(** * Bitcoin script builders and parsers of the signing core

    A shallow embedding of [core/src/apps/bitcoin/scripts.py],
    [core/src/apps/bitcoin/common.py],
    [core/src/apps/bitcoin/authorize_coinjoin.py] and
    [core/src/apps/bitcoin/sign_tx/progress.py], with the properties
    the specification states about them and further properties of the
    code.

    Python values are embedded as follows: [int] is [Z]; [bytes] and
    [bytearray] are lists of [byte]; exceptions are the [Raise] branch of
    [result]; a [Writer] is the byte buffer threaded through the calls
    that append to it; a Python list that is shared between caller and
    callee lives in an explicit store of list objects. *)

From Stdlib Require Import ZArith Lia Bool.
From Stdlib Require Import Strings.Byte.
From stdpp Require Import base list gmap strings.

Local Open Scope Z_scope.

(** ** Exceptions and the error monad *)

Inductive exception : Type :=
| DataError (msg : string)      (* wire.DataError *)
| ProcessError (msg : string)   (* wire.ProcessError *)
| AssertionError                (* utils.ensure *)
| IndexError                    (* sequence index out of range *)
| TypeError                     (* len() or iteration of None *)
| ValueError.                   (* byte must be in range(0, 256) *)

Inductive result (A : Type) : Type :=
| Ok (a : A)
| Raise (e : exception).
Arguments Ok {A} a.
Arguments Raise {A} e.

#[global] Instance result_ret : MRet result := @Ok.
#[global] Instance result_bind : MBind result := λ A B f m,
  match m with
  | Ok a => f a
  | Raise e => Raise e
  end.
#[global] Instance result_fmap : FMap result := λ A B f m,
  match m with
  | Ok a => Ok (f a)
  | Raise e => Raise e
  end.

(** Modelled from the spec: [ensure] of trezor/utils.py, the check of a
    precondition of a builder (a 20-byte hash, a 20- or 32-byte witness
    program); a failed precondition is an error of its own kind. *)
Definition ensure (cond : bool) : result unit :=
  if cond then Ok tt else Raise AssertionError.

(** ** Python sequences *)

Abbreviation bytes := (list byte).

Definition len {A} (l : list A) : Z := Z.of_nat (length l).

(** [l[i]]: a negative index counts from the end, anything out of range
    raises [IndexError]. *)
Definition getitem {A} (l : list A) (i : Z) : result A :=
  let j := if i <? 0 then i + len l else i in
  if j <? 0 then Raise IndexError
  else match l !! Z.to_nat j with
       | Some x => Ok x
       | None => Raise IndexError
       end.

(** [l[i] = x] on a mutable list. *)
Definition setitem {A} (l : list A) (i : Z) (x : A) : result (list A) :=
  let j := if i <? 0 then i + len l else i in
  if (j <? 0) || (len l <=? j) then Raise IndexError
  else Ok (<[Z.to_nat j := x]> l).

(** [l[lo:hi]]: bounds are clamped, never raises. *)
Definition clamp (n i : Z) : Z :=
  if i <? 0 then Z.max (i + n) 0 else Z.min i n.

Definition slice {A} (l : list A) (lo hi : Z) : list A :=
  let lo' := clamp (len l) lo in
  let hi' := clamp (len l) hi in
  take (Z.to_nat (hi' - lo')) (drop (Z.to_nat lo') l).

(** [l[lo:hi] = v] on a bytearray. *)
Definition setslice {A} (l : list A) (lo hi : Z) (v : list A) : list A :=
  let lo' := clamp (len l) lo in
  let hi' := Z.max lo' (clamp (len l) hi) in
  take (Z.to_nat lo') l ++ v ++ drop (Z.to_nat hi') l.

(** ** Bytes *)

Definition int_of_byte (b : byte) : Z := Z.of_N (Byte.to_N b).

(** The value stored by [bytearray.append(n)] and [s[i] = n]. *)
Definition byte_of_int (n : Z) : result byte :=
  if (n <? 0) || (255 <? n) then Raise ValueError
  else match Byte.of_N (Z.to_N n) with
       | Some b => Ok b
       | None => Raise ValueError
       end.

(** [data[i]] on a bytes object yields an int. *)
Definition byte_at (data : bytes) (i : Z) : result Z :=
  int_of_byte <$> getitem data i.

(** [w.append(n)] *)
Definition append (w : bytes) (n : Z) : result bytes :=
  b ← byte_of_int n; Ok (w ++ [b]).

(** [bytearray(n)]: [n] zero bytes. *)
Definition bytearray (n : Z) : bytes := replicate (Z.to_nat n) x00.

(** [s[i] = n] on a bytearray. *)
Definition setbyte (s : bytes) (i n : Z) : result bytes :=
  b ← byte_of_int n; setitem s i b.

(** ** Writers (apps/common/writers.py, apps/bitcoin/writers.py) *)

(** Modelled from the spec: [empty_bytearray] of apps/common/writers.py.
    Section 5 has the builders allocate a buffer sized to the known
    output length; the builders then append to it from position zero, so
    the buffer starts out with length 0 and the argument only reserves
    capacity. *)
Definition empty_bytearray (preallocate : Z) : bytes := [].

(** Modelled from the spec: [write_bytes_unchecked] of
    apps/bitcoin/writers.py, the append-bytes primitive of section 4.A. *)
Definition write_bytes_unchecked (w : bytes) (b : bytes) : bytes := w ++ b.

(** Modelled from the spec: [write_bytes_fixed] of apps/bitcoin/writers.py,
    the append-bytes primitive for a field of a known length. *)
Definition write_bytes_fixed (w : bytes) (b : bytes) (length : Z) : result bytes :=
  _ ← ensure (len b =? length); Ok (w ++ b).

(** Modelled from the spec: [write_bitcoin_varint] of apps/common/writers.py.
    Section 4.A: n<253 gives 1 byte; n<=0xFFFF gives 0xFD + LE16;
    n<=0xFFFFFFFF gives 0xFE + LE32; else 0xFF + LE64. *)
Definition write_bitcoin_varint (w : bytes) (n : Z) : result bytes :=
  if n <? 253 then
    append w n
  else if n <=? 0xFFFF then
    w ← append w 0xFD;
    w ← append w (Z.land n 0xFF);
    append w (Z.land (Z.shiftr n 8) 0xFF)
  else if n <=? 0xFFFFFFFF then
    w ← append w 0xFE;
    w ← append w (Z.land n 0xFF);
    w ← append w (Z.land (Z.shiftr n 8) 0xFF);
    w ← append w (Z.land (Z.shiftr n 16) 0xFF);
    append w (Z.land (Z.shiftr n 24) 0xFF)
  else
    w ← append w 0xFF;
    w ← append w (Z.land n 0xFF);
    w ← append w (Z.land (Z.shiftr n 8) 0xFF);
    w ← append w (Z.land (Z.shiftr n 16) 0xFF);
    w ← append w (Z.land (Z.shiftr n 24) 0xFF);
    w ← append w (Z.land (Z.shiftr n 32) 0xFF);
    w ← append w (Z.land (Z.shiftr n 40) 0xFF);
    w ← append w (Z.land (Z.shiftr n 48) 0xFF);
    append w (Z.land (Z.shiftr n 56) 0xFF).

(** Modelled from the spec: [write_op_push] of apps/bitcoin/writers.py.
    Section 4.A: n<0x4C gives the single byte n; n<=0xFF gives 0x4C, n;
    n<=0xFFFF gives 0x4D, LE16; n<=0xFFFFFFFF gives 0x4E, LE32.  The spec
    gives no encoding for a longer push: the precondition fails. *)
Definition write_op_push (w : bytes) (n : Z) : result bytes :=
  if n <? 0x4C then
    append w n
  else if n <=? 0xFF then
    w ← append w 0x4C;
    append w n
  else if n <=? 0xFFFF then
    w ← append w 0x4D;
    w ← append w (Z.land n 0xFF);
    append w (Z.land (Z.shiftr n 8) 0xFF)
  else if n <=? 0xFFFFFFFF then
    w ← append w 0x4E;
    w ← append w (Z.land n 0xFF);
    w ← append w (Z.land (Z.shiftr n 8) 0xFF);
    w ← append w (Z.land (Z.shiftr n 16) 0xFF);
    append w (Z.land (Z.shiftr n 24) 0xFF)
  else
    Raise AssertionError.

(** Modelled from the spec: [write_bytes_prefixed] of
    apps/bitcoin/writers.py, a varint length followed by the bytes (the
    framing of the pubkey in the P2WPKH witness, section 4.E). *)
Definition write_bytes_prefixed (w : bytes) (b : bytes) : result bytes :=
  w ← write_bitcoin_varint w (len b);
  Ok (write_bytes_unchecked w b).

(** ** Helpers (scripts.py) *)

Definition write_signature_prefixed (w : bytes) (signature : bytes) (hash_type : Z)
  : result bytes :=
  w ← write_bitcoin_varint w (len signature + 1);
  let w := write_bytes_unchecked w signature in
  append w hash_type.

Definition append_signature (w : bytes) (signature : bytes) (hash_type : Z)
  : result bytes :=
  w ← write_op_push w (len signature + 1);
  let w := write_bytes_unchecked w signature in
  append w hash_type.

Definition append_pubkey (w : bytes) (pubkey : bytes) : result bytes :=
  w ← write_op_push w (len pubkey);
  Ok (write_bytes_unchecked w pubkey).

Definition read_bitcoin_varint (data : bytes) (offset : Z) : result (Z * Z) :=
  prefix ← byte_at data offset;
  let offset := offset + 1 in
  if prefix <? 253 then
    Ok (prefix, offset)
  else if prefix =? 253 then
    n ← byte_at data offset;
    b1 ← byte_at data (offset + 1);
    let n := n + Z.shiftl b1 8 in
    Ok (n, offset + 2)
  else if prefix =? 254 then
    n ← byte_at data offset;
    b1 ← byte_at data (offset + 1);
    let n := n + Z.shiftl b1 8 in
    b2 ← byte_at data (offset + 2);
    let n := n + Z.shiftl b2 16 in
    b3 ← byte_at data (offset + 3);
    let n := n + Z.shiftl b3 24 in
    Ok (n, offset + 4)
  else
    Raise (DataError "Invalid VarInt").

Definition read_op_push (data : bytes) (offset : Z) : result (Z * Z) :=
  prefix ← byte_at data offset;
  let offset := offset + 1 in
  if prefix <? 0x4C then
    Ok (prefix, offset)
  else if prefix =? 0x4C then
    n ← byte_at data offset;
    Ok (n, offset + 1)
  else if prefix =? 0x4D then
    n ← byte_at data offset;
    b1 ← byte_at data (offset + 1);
    let n := n + Z.shiftl b1 8 in
    Ok (n, offset + 2)
  else if prefix =? 0x4E then
    n ← byte_at data offset;
    b1 ← byte_at data (offset + 1);
    let n := n + Z.shiftl b1 8 in
    b2 ← byte_at data (offset + 2);
    let n := n + Z.shiftl b2 16 in
    b3 ← byte_at data (offset + 3);
    let n := n + Z.shiftl b3 24 in
    Ok (n, offset + 4)
  else
    Raise (DataError "Invalid OP_PUSH").

(** ** Loops *)

(** [for x in l: body] with the loop-carried variables as state. *)
Fixpoint for_each {A S : Type} (l : list A) (body : S → A → result S) (s : S)
  : result S :=
  match l with
  | [] => Ok s
  | x :: l' => s' ← body s x; for_each l' body s'
  end.

(** [for i in range(k): body], for a body that does not read [i];
    [range] of a negative number is empty. *)
Fixpoint for_range_nat {S : Type} (k : nat) (body : S → result S) (s : S)
  : result S :=
  match k with
  | O => Ok s
  | Datatypes.S k' => s' ← body s; for_range_nat k' body s'
  end.

Definition for_range {S : Type} (k : Z) (body : S → result S) (s : S) : result S :=
  for_range_nat (Z.to_nat k) body s.

(** ** Messages and coin parameters *)

(** Modelled from the spec: trezor.messages.InputScriptType, the closed
    enumeration of script types of section 3. *)
Inductive InputScriptType : Type :=
| SPENDADDRESS
| SPENDMULTISIG
| EXTERNAL
| SPENDWITNESS
| SPENDP2SHWITNESS.

#[global] Instance InputScriptType_eq_dec : EqDecision InputScriptType.
Proof. solve_decision. Defined.

(** Modelled from the spec: trezor.messages.TxInputType, the typed input
    descriptor of section 2; the script code reads its script type. *)
Record TxInputType : Type := {
  txi_script_type : InputScriptType;
}.

(** A Python [str]: a sequence of code points, [ord] is the identity. *)
Definition str : Type := list Z.

Definition ord (x : Z) : Z := x.

Definition str_of_string (s : string) : str :=
  (λ a, Z.of_N (Ascii.N_of_ascii a)) <$> String.list_ascii_of_string s.

(** Modelled from the spec: apps.common.coininfo.CoinInfo, with the
    fields of section 6 that are read here. *)
Record CoinInfo : Type := {
  coin_shortcut : str;
  decimals : Z;
  curve_name : str;
  decred : bool;
  script_hash : bytes → bytes;
}.

(** ** common.py *)

Definition ecdsa_hash_pubkey (pubkey : bytes) (coin : CoinInfo) : result bytes :=
  b0 ← byte_at pubkey 0;
  _ ← (if b0 =? 0x04 then
         ensure (len pubkey =? 65)  (* uncompressed format *)
       else
         b0 ← byte_at pubkey 0;
         if b0 =? 0x00 then
           ensure (len pubkey =? 1)  (* point at infinity *)
         else
           ensure (len pubkey =? 33));  (* compressed format *)
  Ok (script_hash coin pubkey).

(** ** scripts.py: P2PKH *)

Definition input_script_p2pkh_or_p2sh (pubkey signature : bytes) (hash_type : Z)
  : result bytes :=
  let w := empty_bytearray (5 + len signature + 1 + 5 + len pubkey) in
  w ← append_signature w signature hash_type;
  w ← append_pubkey w pubkey;
  Ok w.

Definition read_input_script_p2pkh (script_sig : bytes)
  : result (list bytes * list (bytes * Z)) :=
  '(n, offset) ← read_op_push script_sig 0;
  let signature := slice script_sig offset (offset + n - 1) in
  sighash_type ← byte_at script_sig (offset + n - 1);
  let offset := offset + n in
  '(n, offset) ← read_op_push script_sig offset;
  if negb (offset + n =? len script_sig) then
    Raise (DataError "Invalid scriptSig.")
  else
    let pubkey := slice script_sig offset (offset + n) in
    Ok ([pubkey], [(signature, sighash_type)]).

Definition output_script_p2pkh (pubkeyhash : bytes) : result bytes :=
  _ ← ensure (len pubkeyhash =? 20);
  let s := bytearray 25 in
  s ← setbyte s 0 0x76;  (* OP_DUP *)
  s ← setbyte s 1 0xA9;  (* OP_HASH_160 *)
  s ← setbyte s 2 0x14;  (* pushing 20 bytes *)
  let s := setslice s 3 23 pubkeyhash in
  s ← setbyte s 23 0x88;  (* OP_EQUALVERIFY *)
  s ← setbyte s 24 0xAC;  (* OP_CHECKSIG *)
  Ok s.

(** ** scripts.py: witness getters *)

Definition witness_p2wpkh (signature pubkey : bytes) (hash_type : Z) : result bytes :=
  let w := empty_bytearray (1 + 5 + len signature + 1 + 5 + len pubkey) in
  w ← write_bitcoin_varint w 0x02;  (* num of segwit items, in P2WPKH it's always 2 *)
  w ← write_signature_prefixed w signature hash_type;
  w ← write_bytes_prefixed w pubkey;
  Ok w.

Definition read_witness_p2wpkh (witness : bytes)
  : result (list bytes * list (bytes * Z)) :=
  w0 ← byte_at witness 0;
  if negb (w0 =? 2) then
    (* num of stack items, in P2WPKH it's always 2 *)
    Raise (DataError "Invalid witness.")
  else
    '(n, offset) ← read_bitcoin_varint witness 1;
    let signature := slice witness offset (offset + n - 1) in
    sighash_type ← byte_at witness (offset + n - 1);
    let offset := offset + n in
    '(n, offset) ← read_bitcoin_varint witness offset;
    if negb (offset + n =? len witness) then
      Raise (DataError "Invalid witness.")
    else
      let pubkey := slice witness offset (offset + n) in
      Ok ([pubkey], [(signature, sighash_type)]).

(** One iteration of the signature loop of [read_witness_p2wsh]; the
    loop-carried variables are [offset] and [signatures]. *)
Definition read_witness_p2wsh_step (witness : bytes) (st : Z * list (bytes * Z))
  : result (Z * list (bytes * Z)) :=
  let '(offset, signatures) := st in
  '(n, offset) ← read_bitcoin_varint witness offset;
  let signature := slice witness offset (offset + n - 1) in
  sighash_type ← byte_at witness (offset + n - 1);
  let signatures := signatures ++ [(signature, sighash_type)] in
  let offset := offset + n in
  Ok (offset, signatures).

Definition read_witness_p2wsh (witness : bytes) : result (bytes * list (bytes * Z)) :=
  (* Get number of witness stack items. *)
  '(item_count, offset) ← read_bitcoin_varint witness 0;
  (* Skip over OP_FALSE, which is due to the old OP_CHECKMULTISIG bug. *)
  b ← byte_at witness offset;
  if negb (b =? 0) then
    Raise (DataError "Invalid witness.")
  else
    let offset := offset + 1 in
    let signatures := [] in
    '(offset, signatures) ←
      for_range (item_count - 2) (read_witness_p2wsh_step witness) (offset, signatures);
    '(n, offset) ← read_bitcoin_varint witness offset;
    if negb (offset + n =? len witness) then
      Raise (DataError "Invalid witness.")
    else
      let script := slice witness offset (offset + n) in
      Ok (script, signatures).

(** ** scripts.py: multisig output script *)

Definition output_script_multisig_length (pubkeys : list bytes) (m : Z) : Z :=
  1 + len pubkeys * (1 + 33) + 1 + 1.  (* see output_script_multisig *)

Definition write_output_script_multisig (w : bytes) (pubkeys : list bytes) (m : Z)
  : result bytes :=
  let n := len pubkeys in
  if (n <? 1) || (15 <? n) || (m <? 1) || (15 <? m) || (n <? m) then
    Raise (DataError "Invalid multisig parameters")
  else
    _ ← for_each pubkeys
          (λ _ pubkey,
             if negb (len pubkey =? 33) then
               Raise (DataError "Invalid multisig parameters")
             else Ok tt) tt;
    w ← append w (0x50 + m);  (* numbers 1 to 16 are pushed as 0x50 + value *)
    w ← for_each pubkeys (λ w p, append_pubkey w p) w;
    w ← append w (0x50 + n);
    append w 0xAE.  (* OP_CHECKMULTISIG *)

Definition output_script_multisig (pubkeys : list bytes) (m : Z) : result bytes :=
  let w := empty_bytearray (output_script_multisig_length pubkeys m) in
  write_output_script_multisig w pubkeys m.

(** One iteration of the pubkey loop of [read_output_script_multisig];
    the loop-carried variables are [offset] and [public_keys]. *)
Definition read_output_script_multisig_step (script : bytes) (st : Z * list bytes)
  : result (Z * list bytes) :=
  let '(offset, public_keys) := st in
  '(n, offset) ← read_op_push script offset;
  if negb (n =? 33) then
    Raise (DataError "Invalid multisig script")
  else
    let public_keys := public_keys ++ [slice script offset (offset + n)] in
    let offset := offset + n in
    Ok (offset, public_keys).

Definition read_output_script_multisig (script : bytes) : result (list bytes * Z) :=
  last ← byte_at script (-1);
  if negb (last =? 0xAE) then  (* OP_CHECKMULTISIG *)
    Raise (DataError "Invalid multisig script")
  else
    s0 ← byte_at script 0;
    bad ← (if negb ((0x51 <=? s0) && (s0 <? 0x60)) then Ok true
           else s2 ← byte_at script (-2);
                Ok (negb ((0x51 <=? s2) && (s2 <? 0x60))));
    if bad : bool then
      Raise (DataError "Invalid multisig script")
    else
      s0 ← byte_at script 0;
      let threshold := s0 - 0x50 in
      s2 ← byte_at script (-2);
      let pubkey_count := s2 - 0x50 in
      if pubkey_count <? threshold then
        Raise (DataError "Invalid multisig script")
      else
        let offset := 1 in
        let public_keys := [] in
        '(offset, public_keys) ←
          for_range pubkey_count (read_output_script_multisig_step script)
                    (offset, public_keys);
        if negb (offset + 2 =? len script) then
          Raise (DataError "Invalid multisig script")
        else
          Ok (public_keys, threshold).

(** ** scripts.py: BIP-143 script code *)

Definition bip143_derive_script_code
    (txi : TxInputType) (public_keys : list bytes) (threshold : Z) (coin : CoinInfo)
  : result bytes :=
  if 1 <? len public_keys then
    output_script_multisig public_keys threshold
  else
    let p2pkh :=
      bool_decide (txi_script_type txi = SPENDWITNESS)
      || bool_decide (txi_script_type txi = SPENDP2SHWITNESS)
      || bool_decide (txi_script_type txi = SPENDADDRESS)
      || bool_decide (txi_script_type txi = EXTERNAL) in
    if p2pkh then
      (* for p2wpkh in p2sh or native p2wpkh
         the scriptCode is a classic p2pkh *)
      pk ← getitem public_keys 0;
      h ← ecdsa_hash_pubkey pk coin;
      output_script_p2pkh h
    else
      Raise (DataError "Unknown input script type for bip143 script code").

(** ** scripts.py: multisig scriptSig parser *)

(** The [while True] loop of [read_input_script_multisig].  Every
    iteration moves [offset] forward, so the length of the script bounds
    the number of iterations; [None] stands for a loop cut short by
    [fuel].  The loop leaves [n], [offset] and [signatures] behind. *)
Fixpoint read_input_script_multisig_loop
    (fuel : nat) (script_sig : bytes) (offset : Z) (signatures : list (bytes * Z))
  : option (result (Z * Z * list (bytes * Z))) :=
  match fuel with
  | O => None
  | Datatypes.S fuel' =>
      match read_op_push script_sig offset with
      | Raise e => Some (Raise e)
      | Ok (n, offset) =>
          if len script_sig <=? offset + n then
            Some (Ok (n, offset, signatures))  (* break *)
          else
            let signature := slice script_sig offset (offset + n - 1) in
            match byte_at script_sig (offset + n - 1) with
            | Raise e => Some (Raise e)
            | Ok sighash_type =>
                let signatures := signatures ++ [(signature, sighash_type)] in
                let offset := offset + n in
                read_input_script_multisig_loop fuel' script_sig offset signatures
            end
      end
  end.

Definition read_input_script_multisig (script_sig : bytes)
  : result (bytes * list (bytes * Z)) :=
  let offset := 0 in
  (* Skip over OP_FALSE, which is due to the old OP_CHECKMULTISIG bug. *)
  b ← byte_at script_sig offset;
  if negb (b =? 0) then
    Raise (DataError "Invalid witness.")
  else
    let offset := offset + 1 in
    let signatures := [] in
    match read_input_script_multisig_loop
            (Datatypes.S (length script_sig)) script_sig offset signatures with
    | None => Raise IndexError  (* not reached: read_input_script_multisig_loop_fuel *)
    | Some (Raise e) => Raise e
    | Some (Ok (n, offset, signatures)) =>
        if negb (offset + n =? len script_sig) then
          Raise (DataError "Invalid scriptSig.")
        else
          let script := slice script_sig offset (offset + n) in
          Ok (script, signatures)
    end.

(** ** The store of list objects *)

(** A signature slot holds a bytes object or Python's [None]. *)
Abbreviation slot := (option bytes).
Abbreviation loc := positive.
Abbreviation store := (gmap positive (list (option bytes))).

(** Computations over a state that may raise; the state survives an
    exception. *)
Definition stateM (S A : Type) : Type := S → result A * S.

#[global] Instance stateM_ret {S} : MRet (stateM S) := λ A a s, (Ok a, s).
#[global] Instance stateM_bind {S} : MBind (stateM S) := λ A B f m s,
  match m s with
  | (Ok a, s') => f a s'
  | (Raise e, s') => (Raise e, s')
  end.

Definition lift {S A} (r : result A) : stateM S A := λ s, (r, s).

Abbreviation heapM := (stateM store).

(** The list object behind a reference. *)
Definition load (l : loc) : heapM (list slot) := λ h, (Ok (default [] (h !! l)), h).

(** A new list object, at a reference not in use. *)
Definition alloc (v : list slot) : heapM loc := λ h,
  let l := fresh (dom h) in (Ok l, <[l := v]> h).

(** [l[i]] and [l[i] = x] through a reference. *)
Definition list_getitem (l : loc) (i : Z) : heapM slot := λ h,
  (getitem (default [] (h !! l)) i, h).

Definition list_setitem (l : loc) (i : Z) (x : slot) : heapM unit := λ h,
  match setitem (default [] (h !! l)) i x with
  | Ok v => (Ok tt, <[l := v]> h)
  | Raise e => (Raise e, h)
  end.

(** [len(s)] of a slot: [None] has no length. *)
Definition slot_len (s : slot) : result Z :=
  match s with
  | Some b => Ok (len b)
  | None => Raise TypeError
  end.

(** Truth value of a slot: [None] and the empty bytes object are false. *)
Definition truthy (s : slot) : bool :=
  match s with
  | Some b => negb (len b =? 0)
  | None => false
  end.

(** The bytes object in a slot that is written out. *)
Definition slot_bytes (s : slot) : result bytes :=
  match s with
  | Some b => Ok b
  | None => Raise TypeError
  end.

(** ** scripts.py: multisig scriptSig and P2WSH witness *)

(** Modelled from the spec: trezor.messages.MultisigRedeemScriptType
    (section 3): the key material, which only apps/bitcoin/multisig.py
    reads, the threshold and a reference to the list of signature
    slots. *)
Record MultisigRedeemScriptType (HDNodePathType : Type) : Type := {
  ms_pubkeys : list HDNodePathType;
  ms_signatures : loc;
  ms_m : Z;
}.
Arguments ms_pubkeys {HDNodePathType} _.
Arguments ms_signatures {HDNodePathType} _.
Arguments ms_m {HDNodePathType} _.

Section Multisig.
Context {HDNodePathType : Type}.

(** [utils.BITCOIN_ONLY], a constant of the build. *)
Variable BITCOIN_ONLY : bool.

(** [multisig_get_pubkeys] and [multisig_get_pubkey_count] of
    apps/bitcoin/multisig.py: they derive the public keys from the key
    material (section 4.D) and do not touch the signature slots. *)
Variable multisig_get_pubkeys :
  MultisigRedeemScriptType HDNodePathType → result (list bytes).
Variable multisig_get_pubkey_count :
  MultisigRedeemScriptType HDNodePathType → Z.

Definition witness_p2wsh
    (multisig : MultisigRedeemScriptType HDNodePathType)
    (signature : bytes) (signature_index : Z) (hash_type : Z)
  : heapM bytes :=
  (* get other signatures, stretch with None to the number of the pubkeys *)
  others ← load (ms_signatures multisig);
  signatures ← alloc (others ++
    replicate (Z.to_nat (multisig_get_pubkey_count multisig - len others)) None);
  (* fill in our signature *)
  s ← list_getitem signatures signature_index;
  if truthy s then
    lift (Raise (DataError "Invalid multisig parameters"))
  else
    _ ← list_setitem signatures signature_index (Some signature);
    (* filter empty *)
    unfiltered ← load signatures;
    signatures ← alloc (base.filter (λ s, truthy s = true) unfiltered);
    (* witness program + signatures + redeem script *)
    sigs ← load signatures;
    let num_of_witness_items := 1 + len sigs + 1 in
    (* length of the redeem script *)
    pubkeys ← lift (multisig_get_pubkeys multisig);
    let redeem_script_length :=
      output_script_multisig_length pubkeys (ms_m multisig) in
    (* length of the result *)
    let total_length := 1 + 1 in  (* number of items, OP_FALSE *)
    total_length ← lift (for_each sigs
      (λ total_length s, n ← slot_len s; Ok (total_length + (1 + n + 1)))
      total_length);
    let total_length := total_length + (1 + redeem_script_length) in
    let w := empty_bytearray total_length in
    w ← lift (write_bitcoin_varint w num_of_witness_items);
    (* Starts with OP_FALSE because of an old OP_CHECKMULTISIG bug, which
       consumes one additional item on the stack *)
    w ← lift (write_bitcoin_varint w 0);
    w ← lift (for_each sigs
      (λ w s, b ← slot_bytes s; write_signature_prefixed w b hash_type) w);
    (* redeem script *)
    w ← lift (write_bitcoin_varint w redeem_script_length);
    w ← lift (write_output_script_multisig w pubkeys (ms_m multisig));
    mret w.

Definition input_script_multisig
    (multisig : MultisigRedeemScriptType HDNodePathType)
    (signature : bytes) (signature_index : Z) (hash_type : Z) (coin : CoinInfo)
  : heapM bytes :=
  let signatures := ms_signatures multisig in  (* other signatures *)
  s ← list_getitem signatures signature_index;
  n ← lift (slot_len s);
  if 0 <? n then
    lift (Raise (DataError "Invalid multisig parameters"))
  else
    _ ← list_setitem signatures signature_index (Some signature);  (* our signature *)
    (* length of the redeem script *)
    pubkeys ← lift (multisig_get_pubkeys multisig);
    let redeem_script_length :=
      output_script_multisig_length pubkeys (ms_m multisig) in
    (* length of the result *)
    let total_length := 0 in
    let total_length :=
      if BITCOIN_ONLY || negb (decred coin) then total_length + 1  (* OP_FALSE *)
      else total_length in
    sigs ← load signatures;
    total_length ← lift (for_each sigs
      (λ total_length s, n ← slot_len s; Ok (total_length + (1 + n + 1)))
      total_length);
    let total_length := total_length + (1 + redeem_script_length) in
    let w := empty_bytearray total_length in
    w ← lift (if BITCOIN_ONLY || negb (decred coin) then
                (* Starts with OP_FALSE because of an old OP_CHECKMULTISIG
                   bug, which consumes one additional item on the stack *)
                append w 0x00
              else Ok w);
    w ← lift (for_each sigs
      (λ w s,
         n ← slot_len s;
         if negb (n =? 0) then
           b ← slot_bytes s; append_signature w b hash_type
         else Ok w) w);
    (* redeem script *)
    w ← lift (write_op_push w redeem_script_length);
    w ← lift (write_output_script_multisig w pubkeys (ms_m multisig));
    mret w.

End Multisig.

(** ** authorize_coinjoin.py *)

Definition _MAX_COORDINATOR_LEN : Z := 18.

(** Modelled from the spec: trezor.messages.AuthorizeCoinJoin, with the
    fields of the authorization of section 3. *)
Record AuthorizeCoinJoin : Type := {
  coordinator : str;
  max_fee : Z;
  amount : Z;
  address_n : list Z;
  acj_script_type : InputScriptType;
}.

(** Modelled from the spec: trezor.ui.text.Text, the text of a
    confirmation (section 6): a header and the lines added to it. *)
Inductive line : Type :=
| normal (s : str)
| bold (s : str)
| mono_bold (s : str).

Record Text : Type := {
  header : str;
  lines : list line;
}.

(** What the user and the path validator are asked, in order. *)
Inductive request : Type :=
| validate_path_request (path : list Z) (curve : str) (script_type : InputScriptType)
| require_confirm_request (text : Text)
| require_hold_to_confirm_request (text : Text).

Inductive Success : Type := SuccessMessage.

(** The session: the requests made so far and the module-level
    [coinjoin_authorization]. *)
Record session (Authorization : Type) : Type := {
  requests : list request;
  coinjoin_authorization : option Authorization;
}.
Arguments requests {Authorization} _.
Arguments coinjoin_authorization {Authorization} _.

Section AuthorizeCoinJoin.
Context {Keychain Authorization : Type}.

(** [BIP32_WALLET_DEPTH] of apps/bitcoin/common.py. *)
Variable BIP32_WALLET_DEPTH : Z.

(** The collaborators of section 6: the answer of the path validator
    (called with [addresses.validate_full_path]) and of the two
    confirmation dialogs, amount formatting, and the constructor of
    the authorization of apps/bitcoin/preauthorization.py. *)
Variable validate_path :
  Keychain → list Z → str → CoinInfo → InputScriptType → result unit.
Variable require_confirm : Text → result unit.
Variable require_hold_to_confirm : Text → result unit.
Variable format_amount : Z → Z → str.
Variable set_coinjoin_authorization : AuthorizeCoinJoin → CoinInfo → Authorization.

Definition ask (r : request) (answer : result unit)
  : stateM (session Authorization) unit := λ s,
  (answer, {| requests := requests s ++ [r];
              coinjoin_authorization := coinjoin_authorization s |}).

Definition set_global (a : Authorization)
  : stateM (session Authorization) unit := λ s,
  (Ok tt, {| requests := requests s; coinjoin_authorization := Some a |}).

Definition authorize_coinjoin
    (msg : AuthorizeCoinJoin) (keychain : Keychain) (coin : CoinInfo)
  : stateM (session Authorization) Success :=
  if (_MAX_COORDINATOR_LEN <? len (coordinator msg))
     || existsb (λ x, (ord x <? 32) || (126 <? ord x)) (coordinator msg)
  then
    lift (Raise (DataError "Invalid coordinator name."))
  else
    let path := address_n msg ++ replicate (Z.to_nat BIP32_WALLET_DEPTH) 0 in
    _ ← ask (validate_path_request path (curve_name coin) (acj_script_type msg))
            (validate_path keychain path (curve_name coin) coin (acj_script_type msg));
    let text :=
      {| header := str_of_string "Authorize CoinJoin";
         lines := [normal (str_of_string "Do you really want to");
                   normal (str_of_string "take part in a CoinJoin");
                   normal (str_of_string "transaction at:");
                   mono_bold (coordinator msg)] |} in
    _ ← ask (require_confirm_request text) (require_confirm text);
    let text :=
      {| header := str_of_string "Authorize CoinJoin";
         lines := [normal (str_of_string "Amount to mix:");
                   bold (format_amount (amount msg) (decimals coin)
                         ++ str_of_string " " ++ coin_shortcut coin);
                   normal (str_of_string "Maximum total fees:");
                   bold (format_amount (max_fee msg) (decimals coin)
                         ++ str_of_string " " ++ coin_shortcut coin)] |} in
    _ ← ask (require_hold_to_confirm_request text) (require_hold_to_confirm text);
    _ ← set_global (set_coinjoin_authorization msg coin);
    mret SuccessMessage.

End AuthorizeCoinJoin.

(** The coordinator names matched by [^[\x20-\x7E]{1,18}$]: between 1
    and 18 characters, each in the printable ASCII range. *)
Definition matches_coordinator_regex (s : str) : bool :=
  (1 <=? len s) && (len s <=? 18)
  && forallb (λ x, (0x20 <=? ord x) && (ord x <=? 0x7E)) s.

(** The coordinator names matched by [^[\x20-\x7E]{0,18}$]. *)
Definition matches_coordinator_regex_0_18 (s : str) : bool :=
  (len s <=? 18)
  && forallb (λ x, (0x20 <=? ord x) && (ord x <=? 0x7E)) s.

(** ** Auxiliary definitions used in the statements *)

(** The pushes of a list of 33-byte public keys, as laid out in a bare
    multisig script: opcode 0x21 before every key. *)
Definition pubkey_pushes (pubkeys : list bytes) : bytes :=
  concat ((λ p, x21 :: p) <$> pubkeys).

(** The signature slots [witness_p2wsh] works on: those of the caller,
    stretched with [None] to the number of public keys. *)
Definition stretched_signatures (pubkey_count : Z) (others : list slot) : list slot :=
  others ++ replicate (Z.to_nat (pubkey_count - len others)) None.







(** ** Sample inputs *)

(** A compressed public key and a second one. *)
Definition sample_pubkey : bytes := x02 :: replicate 32 xaa.
Definition sample_pubkey' : bytes := x03 :: replicate 32 xbb.

(** A coin that is not Decred; its script hash stands in for HASH160 and
    keeps the first 20 bytes. *)
Definition sample_coin : CoinInfo := {|
  coin_shortcut := str_of_string "BTC";
  decimals := 8;
  curve_name := str_of_string "secp256k1";
  decred := false;
  script_hash := take 20;
|}.

(** A CoinJoin request with an empty coordinator name. *)
Definition sample_authorize_empty : AuthorizeCoinJoin := {|
  coordinator := [];
  max_fee := 1000;
  amount := 100000;
  address_n := [];
  acj_script_type := SPENDWITNESS;
|}.

(** A CoinJoin request with a coordinator name of 16 printable
    characters. *)
Definition sample_authorize : AuthorizeCoinJoin := {|
  coordinator := str_of_string "good.coordinator";
  max_fee := 1000;
  amount := 100000;
  address_n := [];
  acj_script_type := SPENDWITNESS;
|}.

(** A session in which nothing has been asked or authorized yet. *)
Definition empty_session {Authorization : Type} : session Authorization :=
  {| requests := []; coinjoin_authorization := None |}.

(** A 2-of-2 multisig whose key material is the derived public keys; the
    first signature slot is ours and empty, the second holds the
    signature of the cosigner. *)
Definition sample_multisig : MultisigRedeemScriptType bytes := {|
  ms_pubkeys := [sample_pubkey; sample_pubkey'];
  ms_signatures := 1%positive;
  ms_m := 2;
|}.

Definition sample_store : store := {[ 1%positive := [Some []; Some [x30; x45]] ]}.

Definition sample_get_pubkeys (multisig : MultisigRedeemScriptType bytes)
  : result (list bytes) := Ok (ms_pubkeys multisig).

Definition sample_get_pubkey_count (multisig : MultisigRedeemScriptType bytes) : Z :=
  len (ms_pubkeys multisig).

(** * The remaining builders *)

(** ** scripts.py: P2SH, native witness programs, OP_RETURN *)

Definition output_script_p2sh (scripthash : bytes) : result bytes :=
  (* A9 14 <scripthash> 87 *)
  _ ← ensure (len scripthash =? 20);
  let s := bytearray 23 in
  s ← setbyte s 0 0xA9;  (* OP_HASH_160 *)
  s ← setbyte s 1 0x14;  (* pushing 20 bytes *)
  let s := setslice s 2 22 scripthash in
  s ← setbyte s 22 0x87;  (* OP_EQUAL *)
  Ok s.

Definition input_script_native_p2wpkh_or_p2wsh : bytes :=
  (* Completely replaced by the witness and therefore empty. *)
  bytearray 0.

Definition output_script_native_p2wpkh_or_p2wsh (witprog : bytes) : result bytes :=
  (* Either:
     00 14 <20-byte-key-hash>
     00 20 <32-byte-script-hash> *)
  let length := len witprog in
  _ ← ensure ((length =? 20) || (length =? 32));
  let w := empty_bytearray (3 + length) in
  w ← append w 0x00;  (* witness version byte *)
  w ← append w length;  (* pub key hash length is 20 (P2WPKH) or 32 (P2WSH) bytes *)
  w ← write_bytes_fixed w witprog length;  (* pub key hash *)
  Ok w.

Definition input_script_p2wpkh_in_p2sh (pubkeyhash : bytes) : result bytes :=
  (* 16 00 14 <pubkeyhash>
     Signature is moved to the witness. *)
  _ ← ensure (len pubkeyhash =? 20);
  let w := empty_bytearray (3 + len pubkeyhash) in
  w ← append w 0x16;  (* length of the data *)
  w ← append w 0x00;  (* witness version byte *)
  w ← append w 0x14;  (* P2WPKH witness program (pub key hash length) *)
  w ← write_bytes_fixed w pubkeyhash 20;  (* pub key hash *)
  Ok w.

Definition input_script_p2wsh_in_p2sh (script_hash : bytes) : result bytes :=
  (* 22 00 20 <redeem script hash>
     Signature is moved to the witness. *)
  if negb (len script_hash =? 32) then
    Raise (DataError "Redeem script hash should be 32 bytes long")
  else
    let w := empty_bytearray (3 + len script_hash) in
    w ← append w 0x22;  (* length of the data *)
    w ← append w 0x00;  (* witness version byte *)
    w ← append w 0x20;  (* P2WSH witness program (redeem script hash length) *)
    w ← write_bytes_fixed w script_hash 32;
    Ok w.

Definition output_script_paytoopreturn (data : bytes) : result bytes :=
  let w := empty_bytearray (1 + 5 + len data) in
  w ← append w 0x6A;  (* OP_RETURN *)
  w ← write_op_push w (len data);
  Ok (w ++ data).  (* w.extend(data) *)

(** ** common.py: signature verification *)

Section Ecdsa.

(** [der.decode_seq] of trezor.crypto and [secp256k1.verify] of
    trezor.crypto.curve: the DER decoder, which may raise, and the curve
    check (section 6). *)
Variable der_decode_seq : bytes → result (list bytes).
Variable secp256k1_verify : bytes → bytes → bytes → bool.

Definition ecdsa_verify (public_key der_signature digest : bytes) : result bool :=
  seq ← der_decode_seq der_signature;
  if negb (len seq =? 2) || existsb (λ i, 32 <? len i) seq then
    Raise ValueError
  else
    let signature := bytearray 64 in
    seq0 ← getitem seq 0;
    seq0' ← getitem seq 0;
    let signature := setslice signature (32 - len seq0') 32 seq0 in
    seq1 ← getitem seq 1;
    seq1' ← getitem seq 1;
    let signature := setslice signature (64 - len seq1') 64 seq1 in
    Ok (secp256k1_verify public_key signature digest).

End Ecdsa.

(** ** sign_tx/progress.py *)

Module Progress.

(** What is drawn: [ui.display.clear()], [ui.header(title)] and
    [ui.display.loader(p, False, 18, ui.WHITE, ui.BG)]. *)
Inductive drawing : Type :=
| clear
| header (title : string)
| loader (p : Z).

(** The module-level [_progress] and [_steps], and the drawings made so
    far. *)
Record state : Type := {
  _progress : Z;
  _steps : Z;
  drawn : list drawing;
}.

(** A call returns, or the division in [report] raises
    [ZeroDivisionError]; the state is kept either way. *)
Inductive outcome : Type :=
| Return (s : state)
| ZeroDivisionError (s : state).

Definition and_then (o : outcome) (f : state → outcome) : outcome :=
  match o with
  | Return s => f s
  | ZeroDivisionError s => ZeroDivisionError s
  end.

Section Report.

(** [utils.DISABLE_ANIMATION], a constant of the build. *)
Variable DISABLE_ANIMATION : bool.

Definition report_init (s : state) : outcome :=
  Return {| _progress := _progress s; _steps := _steps s;
            drawn := drawn s ++ [clear; header "Signing transaction"] |}.

Definition report (s : state) : outcome :=
  if DISABLE_ANIMATION then
    Return s
  else if _steps s =? 0 then
    ZeroDivisionError s
  else
    let p := 1000 * _progress s / _steps s in
    Return {| _progress := _progress s; _steps := _steps s;
              drawn := drawn s ++ [loader p] |}.

Definition init (inputs outputs : Z) (s : state) : outcome :=
  let s := {| _progress := 0;
              _steps := inputs + inputs + outputs + inputs;
              drawn := drawn s |} in
  and_then (report_init s) report.

Definition advance (s : state) : outcome :=
  let s := {| _progress := _progress s + 1; _steps := _steps s;
              drawn := drawn s |} in
  report s.

(** [advance()] called [k] times in a row. *)
Fixpoint advances (k : nat) (s : state) : outcome :=
  match k with
  | O => Return s
  | S k' => and_then (advance s) (advances k')
  end.

End Report.

End Progress.

(** ** The signatures that are written out *)

(** The bytes objects of the slots that count as true, in the order of
    the slots: [None] and the empty bytes object are left out. *)
Definition filled (l : list slot) : list bytes :=
  omap (λ s : slot, if truthy s then s else None) l.

(** ** Further sample inputs *)

(** A coin with the Decred flag set. *)
Definition sample_decred_coin : CoinInfo := {|
  coin_shortcut := str_of_string "DCR";
  decimals := 8;
  curve_name := str_of_string "secp256k1";
  decred := true;
  script_hash := take 20;
|}.

(** * Properties *)

(** Case analysis on the integer comparisons of the goal. *)
Ltac no_if t :=
  lazymatch t with
  | context [if _ then _ else _] => fail
  | _ => idtac
  end.

Ltac zcmp :=
  cbv zeta;
  repeat (match goal with
          | |- context [Z.ltb ?a ?b] =>
              no_if a; no_if b; destruct (Z.ltb_spec a b); try lia
          | |- context [Z.leb ?a ?b] =>
              no_if a; no_if b; destruct (Z.leb_spec a b); try lia
          | |- context [Z.eqb ?a ?b] =>
              no_if a; no_if b; destruct (Z.eqb_spec a b); try lia
          end; cbv zeta; cbn [orb andb negb]).

(** ** Sequences and bytes *)

Lemma len_nonneg {A} (l : list A) : 0 ≤ len l.
Proof. unfold len. lia. Qed.

Lemma len_app {A} (a b : list A) : len (a ++ b) = len a + len b.
Proof. unfold len. rewrite length_app. lia. Qed.

Lemma len_cons {A} (x : A) (l : list A) : len (x :: l) = 1 + len l.
Proof. unfold len. cbn [length]. lia. Qed.

Lemma len_nil {A} : len (@nil A) = 0.
Proof. reflexivity. Qed.

(** Lengths of concatenations and literals. *)
Ltac len_simpl :=
  repeat first [rewrite len_app | rewrite len_cons];
  repeat match goal with
         | |- context [@len ?A []] => change (@len A []) with 0
         end.

Lemma getitem_app_r {A} (a l : list A) (k : Z) :
  0 ≤ k → getitem (a ++ l) (len a + k) = getitem l k.
Proof.
  intros Hk. unfold getitem.
  pose proof (len_nonneg a). zcmp.
  rewrite lookup_app_r by (unfold len in *; lia).
  replace (Z.to_nat (len a + k) - length a)%nat with (Z.to_nat k)
    by (unfold len; lia).
  done.
Qed.


Lemma byte_at_app_r (a l : bytes) (k : Z) :
  0 ≤ k → byte_at (a ++ l) (len a + k) = byte_at l k.
Proof. intros. unfold byte_at. by rewrite getitem_app_r. Qed.


Lemma byte_at_mid (a : bytes) (b : byte) (l : bytes) :
  byte_at (a ++ b :: l) (len a) = Ok (int_of_byte b).
Proof.
  replace (len a) with (len a + 0) by lia.
  rewrite byte_at_app_r by lia. reflexivity.
Qed.

Lemma byte_at_last (a : bytes) (b : byte) :
  byte_at (a ++ [b]) (-1) = Ok (int_of_byte b).
Proof.
  unfold byte_at, getitem. cbn [Z.ltb Z.compare].
  rewrite len_app, len_cons, len_nil.
  pose proof (len_nonneg a). zcmp.
  replace (Z.to_nat (-1 + (len a + (1 + 0)))) with (length a + 0)%nat
    by (unfold len; lia).
  by rewrite lookup_app_r, Nat.add_0_r, Nat.sub_diag by lia.
Qed.

Lemma clamp_in_range (n i : Z) : 0 ≤ i ≤ n → clamp n i = i.
Proof. intros. unfold clamp. zcmp. Qed.

Lemma slice_app_r {A} (a l : list A) (lo hi : Z) :
  0 ≤ lo → 0 ≤ hi →
  slice (a ++ l) (len a + lo) (len a + hi) = slice l lo hi.
Proof.
  intros Hlo Hhi. unfold slice, clamp. rewrite len_app.
  pose proof (len_nonneg a). pose proof (len_nonneg l). zcmp.
  replace (Z.to_nat (Z.min (len a + lo) (len a + len l)))
    with (length a + Z.to_nat (Z.min lo (len l)))%nat by (unfold len; lia).
  rewrite drop_app_add. f_equal. lia.
Qed.

Lemma slice_prefix {A} (b c : list A) : slice (b ++ c) 0 (len b) = b.
Proof.
  unfold slice. rewrite len_app.
  pose proof (len_nonneg b). pose proof (len_nonneg c).
  rewrite !clamp_in_range by lia.
  replace (Z.to_nat (len b - 0)) with (length b) by (unfold len; lia).
  cbn [Z.to_nat drop]. apply take_app_length.
Qed.

Lemma slice_mid {A} (a b c : list A) :
  slice (a ++ b ++ c) (len a) (len a + len b) = b.
Proof.
  replace (len a) with (len a + 0) at 1 by lia.
  rewrite slice_app_r by (pose proof (len_nonneg b); lia).
  apply slice_prefix.
Qed.

Lemma int_of_byte_range (b : byte) : 0 ≤ int_of_byte b ≤ 255.
Proof.
  unfold int_of_byte. pose proof (Byte.to_N_bounded b). lia.
Qed.

Lemma byte_of_int_ok (n : Z) :
  0 ≤ n ≤ 255 → ∃ b, byte_of_int n = Ok b ∧ int_of_byte b = n.
Proof.
  intros Hn. unfold byte_of_int. zcmp.
  destruct (Byte.of_N (Z.to_N n)) as [b|] eqn:Hb.
  - exists b. split; [done |]. unfold int_of_byte.
    apply Byte.to_of_N in Hb. lia.
  - apply Byte.of_N_None_iff in Hb. lia.
Qed.

Lemma append_inv (w w' : bytes) (n : Z) :
  append w n = Ok w' → ∃ b, w' = w ++ [b] ∧ int_of_byte b = n ∧ 0 ≤ n ≤ 255.
Proof.
  unfold append. intros H.
  destruct (byte_of_int n) as [b|] eqn:Hb; [| done].
  cbn in H. injection H as <-. exists b. split; [done |].
  unfold byte_of_int in Hb.
  destruct (Z.ltb_spec n 0); [done |].
  destruct (Z.ltb_spec 255 n); [done |]. cbn [orb] in Hb.
  destruct (Byte.of_N (Z.to_N n)) as [b'|] eqn:Hb'; [| done].
  injection Hb as ->. apply Byte.to_of_N in Hb'. unfold int_of_byte. lia.
Qed.

(** ** Little-endian length fields *)

Lemma land_ff_range (x : Z) : 0 ≤ Z.land x 0xFF ≤ 255.
Proof.
  change (Z.land x 0xFF) with (Z.land x (Z.ones 8)).
  rewrite Z.land_ones by lia.
  pose proof (Z.mod_pos_bound x (2 ^ 8)). lia.
Qed.

Lemma le16_decode (n : Z) :
  0 ≤ n ≤ 0xFFFF →
  Z.land n 0xFF + Z.shiftl (Z.land (Z.shiftr n 8) 0xFF) 8 = n.
Proof.
  intros Hn. change 0xFF with (Z.ones 8).
  rewrite !Z.land_ones, !Z.shiftr_div_pow2, !Z.shiftl_mul_pow2 by lia.
  change (2 ^ 8) with 256. Z.div_mod_to_equations. lia.
Qed.

Lemma le32_decode (n : Z) :
  0 ≤ n ≤ 0xFFFFFFFF →
  Z.land n 0xFF
  + Z.shiftl (Z.land (Z.shiftr n 8) 0xFF) 8
  + Z.shiftl (Z.land (Z.shiftr n 16) 0xFF) 16
  + Z.shiftl (Z.land (Z.shiftr n 24) 0xFF) 24 = n.
Proof.
  intros Hn. change 0xFF with (Z.ones 8).
  rewrite !Z.land_ones, !Z.shiftr_div_pow2, !Z.shiftl_mul_pow2 by lia.
  change (2 ^ 8) with 256. change (2 ^ 16) with 65536.
  change (2 ^ 24) with 16777216. Z.div_mod_to_equations. lia.
Qed.

(** ** Framing: OP_PUSH and varint *)

Lemma byte_at_0 (x0 : byte) (l : bytes) :
  byte_at (x0 :: l) 0 = Ok (int_of_byte x0).
Proof. reflexivity. Qed.

Lemma byte_at_1 (x0 x1 : byte) (l : bytes) :
  byte_at (x0 :: x1 :: l) 1 = Ok (int_of_byte x1).
Proof. reflexivity. Qed.

Lemma byte_at_2 (x0 x1 x2 : byte) (l : bytes) :
  byte_at (x0 :: x1 :: x2 :: l) 2 = Ok (int_of_byte x2).
Proof. reflexivity. Qed.

Lemma byte_at_3 (x0 x1 x2 x3 : byte) (l : bytes) :
  byte_at (x0 :: x1 :: x2 :: x3 :: l) 3 = Ok (int_of_byte x3).
Proof. reflexivity. Qed.

Lemma byte_at_4 (x0 x1 x2 x3 x4 : byte) (l : bytes) :
  byte_at (x0 :: x1 :: x2 :: x3 :: x4 :: l) 4 = Ok (int_of_byte x4).
Proof. reflexivity. Qed.

(** Reading a length field off the front of a buffer: evaluate the
    reads at the constant offsets and the tests on the opcode [op]. *)
Ltac read_front op :=
  cbv zeta; cbn [app];
  change (0 + 1 + 4) with 5; change (0 + 1 + 3) with 4;
  change (0 + 1 + 2) with 3; change (0 + 1 + 1) with 2;
  change (0 + 1) with 1;
  rewrite ?byte_at_0, ?byte_at_1, ?byte_at_2, ?byte_at_3, ?byte_at_4;
  cbn [mbind result_bind];
  let v := eval vm_compute in (int_of_byte op) in
  change (int_of_byte op) with v;
  cbv iota beta;
  repeat match goal with
         | |- context [Z.ltb ?a ?b] =>
             let r := eval vm_compute in (Z.ltb a b) in
             change (Z.ltb a b) with r; cbv iota
         | |- context [Z.eqb ?a ?b] =>
             let r := eval vm_compute in (Z.eqb a b) in
             change (Z.eqb a b) with r; cbv iota
         end.

Lemma result_fmap_Ok {A B} (f : A → B) (m : result A) (b : B) :
  f <$> m = Ok b → ∃ a, m = Ok a ∧ b = f a.
Proof. destruct m as [a|e]; cbn; [| done]. intros [= <-]. eauto. Qed.

Lemma result_bind_Ok {A B} (f : A → result B) (m : result A) (b : B) :
  m ≫= f = Ok b → ∃ a, m = Ok a ∧ f a = Ok b.
Proof. destruct m as [a|e]; cbn; [| done]. eauto. Qed.

Lemma read_op_push_app_r (a l : bytes) (k : Z) :
  0 ≤ k →
  read_op_push (a ++ l) (len a + k) =
  (λ '(n, offset), (n, len a + offset)) <$> read_op_push l k.
Proof.
  intros Hk. unfold read_op_push.
  rewrite byte_at_app_r by done.
  destruct (byte_at l k) as [prefix|e]; [| done]. cbn. cbv zeta.
  rewrite <- !Z.add_assoc. rewrite !byte_at_app_r by lia.
  repeat (match goal with
          | |- context [byte_at l ?x] => destruct (byte_at l x); cbn
          | |- context [if ?c then _ else _] => destruct c; cbn
          end); try done; f_equal; f_equal; lia.
Qed.

(** The bytes of a push opcode, and reading them back. *)
Lemma op_push_roundtrip (n : Z) :
  0 ≤ n ≤ 0xFFFFFFFF →
  ∃ pre, (∀ w, write_op_push w n = Ok (w ++ pre))
         ∧ 1 ≤ len pre ≤ 5
         ∧ ∀ rest, read_op_push (pre ++ rest) 0 = Ok (n, len pre).
Proof.
  intros Hn. unfold write_op_push.
  pose proof (land_ff_range n) as R0.
  pose proof (land_ff_range (Z.shiftr n 8)) as R1.
  pose proof (land_ff_range (Z.shiftr n 16)) as R2.
  pose proof (land_ff_range (Z.shiftr n 24)) as R3.
  destruct (byte_of_int_ok _ R0) as (b0 & E0 & V0).
  destruct (byte_of_int_ok _ R1) as (b1 & E1 & V1).
  destruct (byte_of_int_ok _ R2) as (b2 & E2 & V2).
  destruct (byte_of_int_ok _ R3) as (b3 & E3 & V3).
  destruct (Z.ltb_spec n 0x4C) as [Ha|Ha].
  { destruct (byte_of_int_ok n ltac:(lia)) as (b & E & V).
    exists [b]. split; [| split; [done |]].
    - intros w. unfold append. by rewrite E.
    - intros rest. unfold read_op_push. cbn [app]. rewrite byte_at_0.
      cbn [mbind result_bind]. rewrite V.
      destruct (Z.ltb_spec n 76); [done | lia]. }
  destruct (Z.leb_spec n 0xFF) as [Hb|Hb].
  { destruct (byte_of_int_ok n ltac:(lia)) as (b & E & V).
    exists [x4c; b]. split; [| split; [done |]].
    - intros w. unfold append. cbn. rewrite E. cbn. by rewrite <- app_assoc.
    - intros rest. unfold read_op_push. read_front x4c. by rewrite V. }
  destruct (Z.leb_spec n 0xFFFF) as [Hc|Hc].
  { exists [x4d; b0; b1]. split; [| split; [done |]].
    - intros w. unfold append. cbn. rewrite E0. cbn. rewrite E1. cbn.
      by rewrite <- !app_assoc.
    - intros rest. unfold read_op_push. read_front x4d. rewrite V0, V1.
      by rewrite le16_decode by lia. }
  destruct (Z.leb_spec n 0xFFFFFFFF) as [Hd|Hd]; [| lia].
  exists [x4e; b0; b1; b2; b3]. split; [| split; [done |]].
  - intros w. unfold append. cbn. rewrite E0. cbn. rewrite E1. cbn.
    rewrite E2. cbn. rewrite E3. cbn. by rewrite <- !app_assoc.
  - intros rest. unfold read_op_push. read_front x4e. rewrite V0, V1, V2, V3.
    by rewrite le32_decode by lia.
Qed.

Lemma write_read_op_push (w : bytes) (n : Z) :
  0 ≤ n ≤ 0xFFFFFFFF →
  ∃ pre, write_op_push w n = Ok (w ++ pre)
         ∧ 1 ≤ len pre ≤ 5
         ∧ ∀ rest, read_op_push (w ++ pre ++ rest) (len w) = Ok (n, len w + len pre).
Proof.
  intros Hn. destruct (op_push_roundtrip n Hn) as (pre & Hw & Hlen & Hr).
  exists pre. split; [done |]. split; [done |]. intros rest.
  replace (len w) with (len w + 0) at 1 by lia.
  rewrite read_op_push_app_r by lia. rewrite Hr. cbn. done.
Qed.

(** A 33-byte public key is pushed with the single opcode 0x21. *)
Lemma append_pubkey_33 (w pubkey : bytes) :
  len pubkey = 33 → append_pubkey w pubkey = Ok (w ++ x21 :: pubkey).
Proof.
  intros H. unfold append_pubkey. rewrite H. cbn.
  unfold write_bytes_unchecked. by rewrite <- app_assoc.
Qed.

Lemma read_op_push_33 (a rest : bytes) :
  read_op_push (a ++ x21 :: rest) (len a) = Ok (33, len a + 1).
Proof.
  replace (len a) with (len a + 0) at 1 by lia.
  rewrite read_op_push_app_r by lia. reflexivity.
Qed.

(** ** Legacy P2PKH scriptSig *)

(** The scriptSig of a P2PKH spend: two pushes, signature with its hash
    type and then the public key. *)
Lemma input_script_p2pkh_or_p2sh_layout (P S : bytes) (H : Z) :
  len P = 33 → 0 ≤ H ≤ 255 → len S + 1 ≤ 0xFFFFFFFF →
  ∃ pre bH,
    input_script_p2pkh_or_p2sh P S H = Ok (pre ++ S ++ [bH] ++ x21 :: P)
    ∧ int_of_byte bH = H
    ∧ ∀ rest, read_op_push (pre ++ rest) 0 = Ok (len S + 1, len pre).
Proof.
  intros HP HH HS. pose proof (len_nonneg S).
  destruct (op_push_roundtrip (len S + 1)) as (pre & Hw & _ & Hr); [lia |].
  destruct (byte_of_int_ok H HH) as (bH & EH & VH).
  exists pre, bH. split; [| done].
  unfold input_script_p2pkh_or_p2sh, empty_bytearray, append_signature.
  rewrite Hw. cbn [mbind result_bind app]. unfold write_bytes_unchecked, append.
  rewrite EH. cbn [mbind result_bind]. rewrite append_pubkey_33 by done.
  cbn [mbind result_bind]. by rewrite <- !app_assoc.
Qed.

(** C1: for every 33-byte pubkey P, every signature S that fits a push
    and every hash type H in [0,255], parsing the scriptSig built by
    [input_script_p2pkh_or_p2sh] gives back ([P], [(S, H)]). *)
Theorem read_input_script_p2pkh_roundtrip (P S : bytes) (H : Z) :
  len P = 33 → 0 ≤ H ≤ 255 → len S + 1 ≤ 0xFFFFFFFF →
  input_script_p2pkh_or_p2sh P S H ≫= read_input_script_p2pkh
  = Ok ([P], [(S, H)]).
Proof.
  intros HP HH HS. pose proof (len_nonneg S). pose proof (len_nonneg P).
  destruct (input_script_p2pkh_or_p2sh_layout P S H HP HH HS)
    as (pre & bH & -> & VH & Hr).
  cbn [mbind result_bind]. pose proof (len_nonneg pre).
  set (script := pre ++ S ++ [bH] ++ x21 :: P).
  assert (len script = len pre + len S + 35) as Hlen.
  { unfold script. rewrite !len_app, len_cons, len_cons, len_nil. lia. }
  assert (read_op_push script 0 = Ok (len S + 1, len pre)) as R1 by apply Hr.
  assert (slice script (len pre) (len pre + (len S + 1) - 1) = S) as Sl.
  { replace (len pre + (len S + 1) - 1) with (len pre + len S) by lia.
    apply slice_mid. }
  assert (byte_at script (len pre + (len S + 1) - 1) = Ok H) as B.
  { replace (len pre + (len S + 1) - 1) with (len (pre ++ S))
      by (rewrite len_app; lia).
    unfold script. rewrite (app_assoc pre S). cbn [app].
    rewrite byte_at_mid. by rewrite VH. }
  assert (read_op_push script (len pre + (len S + 1))
          = Ok (33, len pre + len S + 2)) as R2.
  { replace (len pre + (len S + 1)) with (len (pre ++ S ++ [bH]))
      by (rewrite !len_app, len_cons, len_nil; lia).
    unfold script.
    replace (pre ++ S ++ [bH] ++ x21 :: P) with ((pre ++ S ++ [bH]) ++ x21 :: P)
      by (by rewrite <- !app_assoc).
    rewrite read_op_push_33. f_equal. f_equal.
    rewrite !len_app, len_cons, len_nil. lia. }
  assert (slice script (len pre + len S + 2) (len pre + len S + 2 + 33) = P) as Sp.
  { unfold script.
    replace (pre ++ S ++ [bH] ++ x21 :: P)
      with ((pre ++ S ++ [bH; x21]) ++ P ++ [])
      by (rewrite app_nil_r, <- !app_assoc; done).
    replace (len pre + len S + 2) with (len (pre ++ S ++ [bH; x21]))
      by (rewrite !len_app, !len_cons, len_nil; lia).
    rewrite <- HP. apply slice_mid. }
  unfold read_input_script_p2pkh.
  rewrite R1. cbn [mbind result_bind]. rewrite B. cbn [mbind result_bind].
  rewrite R2. cbn [mbind result_bind]. rewrite Hlen.
  destruct (Z.eqb_spec (len pre + len S + 2 + 33) (len pre + len S + 35)); [| lia].
  cbn [negb]. by rewrite Sl, Sp.
Qed.

Lemma read_input_script_p2pkh_roundtrip_witness :
  input_script_p2pkh_or_p2sh (x02 :: replicate 32 xaa) [x30; x44] 1
    ≫= read_input_script_p2pkh
  = Ok ([x02 :: replicate 32 xaa], [([x30; x44], 1)]).
Proof.
  apply (read_input_script_p2pkh_roundtrip (x02 :: replicate 32 xaa) [x30; x44] 1).
  - reflexivity.
  - lia.
  - vm_compute. discriminate.
Defined.

(** ** Bare multisig output script *)

Lemma byte_at_last2 (a : bytes) (b c : byte) :
  byte_at (a ++ [b; c]) (-2) = Ok (int_of_byte b).
Proof.
  unfold byte_at, getitem. cbv zeta.
  len_simpl.
  pose proof (len_nonneg a).
  change (-2 <? 0) with true. cbv iota. zcmp.
  replace (Z.to_nat (-2 + (len a + (1 + (1 + 0))))) with (length a + 0)%nat
    by (unfold len; lia).
  by rewrite lookup_app_r, Nat.add_0_r, Nat.sub_diag by lia.
Qed.

Lemma len_pubkey_pushes (pubkeys : list bytes) :
  Forall (λ p, len p = 33) pubkeys →
  len (pubkey_pushes pubkeys) = len pubkeys * 34.
Proof.
  induction 1 as [|p ps Hp _ IH]; [done |].
  unfold pubkey_pushes in *. cbn [fmap list_fmap concat].
  len_simpl. rewrite IH, Hp. lia.
Qed.

Lemma check_pubkeys_33 (pubkeys : list bytes) :
  Forall (λ p, len p = 33) pubkeys →
  for_each pubkeys
    (λ (_ : unit) pubkey,
       if negb (len pubkey =? 33) then
         Raise (DataError "Invalid multisig parameters")
       else Ok tt) tt = Ok tt.
Proof.
  induction 1 as [|p ps Hp _ IH]; [done |].
  cbn [for_each]. rewrite Hp. cbn. exact IH.
Qed.

Lemma check_pubkeys_not_33 (pubkeys : list bytes) :
  ¬ Forall (λ p, len p = 33) pubkeys →
  for_each pubkeys
    (λ (_ : unit) pubkey,
       if negb (len pubkey =? 33) then
         Raise (DataError "Invalid multisig parameters")
       else Ok tt) tt = Raise (DataError "Invalid multisig parameters").
Proof.
  induction pubkeys as [|p ps IH]; intros Hnot.
  - by destruct Hnot.
  - cbn [for_each]. destruct (Z.eqb_spec (len p) 33) as [Hp|Hp]; [| done].
    cbn [negb mbind result_bind]. apply IH. intros Hps. apply Hnot.
    by constructor.
Qed.

Lemma append_pubkeys_33 (pubkeys : list bytes) (w : bytes) :
  Forall (λ p, len p = 33) pubkeys →
  for_each pubkeys (λ w p, append_pubkey w p) w = Ok (w ++ pubkey_pushes pubkeys).
Proof.
  intros H. revert w. induction H as [|p ps Hp _ IH]; intros w.
  - cbn. by rewrite app_nil_r.
  - cbn [for_each]. rewrite append_pubkey_33 by done. cbn [mbind result_bind].
    rewrite IH. unfold pubkey_pushes. cbn [fmap list_fmap concat].
    by rewrite <- !app_assoc.
Qed.

(** The bytes written for a valid (pubkeys, m). *)
Lemma write_output_script_multisig_layout (w : bytes) (pubkeys : list bytes) (m : Z) :
  Forall (λ p, len p = 33) pubkeys →
  1 ≤ m ≤ len pubkeys → len pubkeys ≤ 15 →
  ∃ bm bn,
    write_output_script_multisig w pubkeys m
    = Ok (w ++ bm :: pubkey_pushes pubkeys ++ [bn; xae])
    ∧ int_of_byte bm = 0x50 + m
    ∧ int_of_byte bn = 0x50 + len pubkeys.
Proof.
  intros H33 Hm Hn.
  destruct (byte_of_int_ok (0x50 + m)) as (bm & Em & Vm); [lia |].
  destruct (byte_of_int_ok (0x50 + len pubkeys)) as (bn & En & Vn); [lia |].
  exists bm, bn. split; [| done].
  unfold write_output_script_multisig. zcmp.
  rewrite check_pubkeys_33 by done. cbn [mbind result_bind].
  unfold append at 3. rewrite Em. cbn [mbind result_bind].
  rewrite append_pubkeys_33 by done. cbn [mbind result_bind].
  unfold append at 2. rewrite En. cbn [mbind result_bind].
  unfold append. change (byte_of_int 174) with (Ok xae). cbn [mbind result_bind].
  by rewrite <- !app_assoc.
Qed.

(** C6: for 33-byte keys and 1 <= m <= n <= 15 the built script has the
    length computed by [output_script_multisig_length], that is
    1 + n*34 + 1 + 1. *)
Theorem output_script_multisig_length_law (pubkeys : list bytes) (m : Z) :
  Forall (λ p, len p = 33) pubkeys →
  1 ≤ m ≤ len pubkeys → len pubkeys ≤ 15 →
  ∃ script,
    output_script_multisig pubkeys m = Ok script
    ∧ len script = output_script_multisig_length pubkeys m
    ∧ output_script_multisig_length pubkeys m = 1 + len pubkeys * 34 + 1 + 1.
Proof.
  intros H33 Hm Hn.
  destruct (write_output_script_multisig_layout [] pubkeys m H33 Hm Hn)
    as (bm & bn & Hw & _ & _).
  eexists. split; [exact Hw |].
  unfold output_script_multisig_length. split; [| lia].
  cbn [app]. len_simpl.
  rewrite len_pubkey_pushes by done. lia.
Qed.

Lemma output_script_multisig_length_law_witness :
  ∃ script,
    output_script_multisig [x02 :: replicate 32 xaa] 1 = Ok script
    ∧ len script = output_script_multisig_length [x02 :: replicate 32 xaa] 1
    ∧ output_script_multisig_length [x02 :: replicate 32 xaa] 1
      = 1 + len [x02 :: replicate 32 xaa] * 34 + 1 + 1.
Proof.
  apply (output_script_multisig_length_law [x02 :: replicate 32 xaa] 1).
  - repeat constructor.
  - vm_compute. split; discriminate.
  - vm_compute. discriminate.
Defined.

(** One iteration of the pubkey loop of the parser takes one push. *)
Lemma read_output_script_multisig_step_push (a p rest : bytes) (acc : list bytes) :
  len p = 33 →
  read_output_script_multisig_step (a ++ x21 :: p ++ rest) (len a, acc)
  = Ok (len (a ++ x21 :: p), acc ++ [p]).
Proof.
  intros Hp. unfold read_output_script_multisig_step.
  rewrite read_op_push_33. cbn [mbind result_bind].
  change (33 =? 33) with true. cbn [negb].
  replace (a ++ x21 :: p ++ rest) with ((a ++ [x21]) ++ p ++ rest)
    by (by rewrite <- app_assoc).
  replace (len a + 1) with (len (a ++ [x21])) by (len_simpl; lia).
  rewrite <- Hp, slice_mid. do 2 f_equal. len_simpl. lia.
Qed.

(** The pubkey loop of the parser walks over the pushes one key at a
    time. *)
Lemma read_pubkey_pushes (pubkeys : list bytes) (a rest : bytes) (acc : list bytes) :
  Forall (λ p, len p = 33) pubkeys →
  for_range_nat (length pubkeys)
    (read_output_script_multisig_step (a ++ pubkey_pushes pubkeys ++ rest))
    (len a, acc)
  = Ok (len a + len pubkeys * 34, acc ++ pubkeys).
Proof.
  intros H. revert a acc. induction H as [|p ps Hp H33 IH]; intros a acc.
  - cbn. rewrite app_nil_r. do 2 f_equal. unfold len. cbn. lia.
  - cbn [length for_range_nat].
    unfold pubkey_pushes. cbn [fmap list_fmap concat].
    fold (pubkey_pushes ps). cbn [app]. rewrite <- app_assoc.
    rewrite read_output_script_multisig_step_push by done.
    cbn [mbind result_bind].
    replace (a ++ x21 :: p ++ pubkey_pushes ps ++ rest)
      with ((a ++ x21 :: p) ++ pubkey_pushes ps ++ rest)
      by (by rewrite <- app_assoc).
    rewrite IH. do 2 f_equal.
    + len_simpl. lia.
    + by rewrite <- app_assoc.
Qed.

(** C2: for 33-byte keys and 1 <= m <= len(pubkeys) <= 15, parsing the
    bare multisig output script gives back (pubkeys, m). *)
Theorem read_output_script_multisig_roundtrip (pubkeys : list bytes) (m : Z) :
  Forall (λ p, len p = 33) pubkeys →
  1 ≤ m ≤ len pubkeys → len pubkeys ≤ 15 →
  output_script_multisig pubkeys m ≫= read_output_script_multisig
  = Ok (pubkeys, m).
Proof.
  intros H33 Hm Hn. unfold output_script_multisig, empty_bytearray.
  destruct (write_output_script_multisig_layout [] pubkeys m H33 Hm Hn)
    as (bm & bn & -> & Vm & Vn).
  cbn [mbind result_bind app].
  set (script := bm :: pubkey_pushes pubkeys ++ [bn; xae]).
  assert (byte_at script (-1) = Ok 0xAE) as Blast.
  { unfold script.
    replace (bm :: pubkey_pushes pubkeys ++ [bn; xae])
      with ((bm :: pubkey_pushes pubkeys ++ [bn]) ++ [xae])
      by (cbn [app]; by rewrite <- app_assoc).
    by rewrite byte_at_last. }
  assert (byte_at script 0 = Ok (0x50 + m)) as B0.
  { unfold script. by rewrite byte_at_0, Vm. }
  assert (byte_at script (-2) = Ok (0x50 + len pubkeys)) as B2.
  { unfold script. rewrite app_comm_cons. by rewrite byte_at_last2, Vn. }
  assert (len script = len pubkeys * 34 + 3) as Hlen.
  { unfold script. len_simpl.
    rewrite len_pubkey_pushes by done. lia. }
  assert (for_range (0x50 + len pubkeys - 0x50)
            (read_output_script_multisig_step script) (1, [])
          = Ok (1 + len pubkeys * 34, pubkeys)) as Hloop.
  { unfold for_range.
    replace (Z.to_nat (0x50 + len pubkeys - 0x50)) with (length pubkeys)
      by (unfold len; lia).
    pose proof (read_pubkey_pushes pubkeys [bm] [bn; xae] [] H33) as HL.
    cbn [app] in HL. exact HL. }
  unfold read_output_script_multisig.
  rewrite Blast. cbn [mbind result_bind]. change (174 =? 174) with true.
  cbn [negb]. rewrite B0. cbn [mbind result_bind]. rewrite B2.
  zcmp. cbn [mbind result_bind]. zcmp.
  rewrite Hloop. cbn [mbind result_bind]. rewrite Hlen. zcmp.
  do 2 f_equal. lia.
Qed.

Lemma read_output_script_multisig_roundtrip_witness :
  output_script_multisig [x02 :: replicate 32 xaa; x03 :: replicate 32 xbb] 1
    ≫= read_output_script_multisig
  = Ok ([x02 :: replicate 32 xaa; x03 :: replicate 32 xbb], 1).
Proof.
  apply (read_output_script_multisig_roundtrip
           [x02 :: replicate 32 xaa; x03 :: replicate 32 xbb] 1).
  - repeat constructor.
  - vm_compute. split; discriminate.
  - vm_compute. discriminate.
Defined.

(** ** Parsers and the length of the buffer *)






(** *** What a successful read says about the offsets *)

Lemma getitem_Ok_range {A} (l : list A) (i : Z) (x : A) :
  0 ≤ i → getitem l i = Ok x → i < len l ∧ l !! Z.to_nat i = Some x.
Proof.
  intros Hi. unfold getitem. zcmp.
  destruct (l !! Z.to_nat i) as [y|] eqn:E; [| done].
  intros [= ->]. split; [| done].
  apply lookup_lt_Some in E. unfold len. lia.
Qed.

Lemma byte_at_Ok (data : bytes) (i v : Z) :
  0 ≤ i → byte_at data i = Ok v → 0 ≤ v ≤ 255 ∧ i < len data.
Proof.
  intros Hi. unfold byte_at. intros H.
  apply result_fmap_Ok in H as (b & Hb & ->).
  apply getitem_Ok_range in Hb as [? _]; [| done].
  split; [apply int_of_byte_range | done].
Qed.


(** Case analysis over the reads of [read_op_push] and
    [read_bitcoin_varint] in a hypothesis [H] of the form
    [read data k = Ok (n, o)]. *)
Ltac split_reads data H :=
  repeat match type of H with
         | context [byte_at data ?i] =>
             let v := fresh "v" in
             let E := fresh "E" in
             destruct (byte_at data i) as [v|] eqn:E; [| discriminate H];
             cbn [mbind result_bind] in H
         | context [if ?c then _ else _] =>
             let C := fresh "C" in destruct c eqn:C
         end.

Lemma read_op_push_bounds (data : bytes) (k n o : Z) :
  0 ≤ k → read_op_push data k = Ok (n, o) → 0 ≤ n ∧ k < o ∧ o ≤ len data.
Proof.
  intros Hk H. unfold read_op_push in H. cbv zeta in H.
  split_reads data H; try discriminate H; injection H as <- <-;
    repeat match goal with
           | E : byte_at data ?i = Ok ?v |- _ =>
               apply byte_at_Ok in E; [| lia]
           end;
    repeat match goal with
           | |- context [Z.shiftl ?v ?s] =>
               lazymatch goal with
               | _ : 0 ≤ Z.shiftl v s |- _ => fail
               | _ => assert (0 ≤ Z.shiftl v s) by (apply Z.shiftl_nonneg; lia)
               end
           end; lia.
Qed.


(** *** Reads do not depend on what follows the bytes they look at *)




Lemma slice_suffix {A} (l : list A) (lo : Z) : slice l lo (len l) `suffix_of` l.
Proof.
  unfold slice. cbv zeta. pose proof (len_nonneg l) as Hn.
  rewrite (clamp_in_range (len l) (len l)) by lia.
  set (lo' := clamp (len l) lo).
  assert (0 ≤ lo' ≤ len l) as Hlo by (unfold lo', clamp; zcmp).
  rewrite take_ge by (rewrite length_drop; unfold len in *; lia).
  apply suffix_drop.
Qed.

(** *** The loop of the multisig scriptSig parser *)

(** The length of the script is enough fuel: the loop is never cut
    short. *)
Lemma read_input_script_multisig_loop_fuel
    (fuel : nat) (script_sig : bytes) (offset : Z) (signatures : list (bytes * Z)) :
  0 ≤ offset → (Z.to_nat (len script_sig - offset) < fuel)%nat →
  read_input_script_multisig_loop fuel script_sig offset signatures ≠ None.
Proof.
  revert offset signatures.
  induction fuel as [|fuel IH]; intros offset signatures Hoff Hfuel; [lia |].
  cbn [read_input_script_multisig_loop].
  destruct (read_op_push script_sig offset) as [[n o]|e] eqn:R; [| done].
  apply read_op_push_bounds in R as (Hn & Ho & Hlen); [| done].
  destruct (Z.leb_spec (len script_sig) (o + n)); [done |].
  destruct (byte_at script_sig (o + n - 1)) as [h|e]; [| done].
  apply IH; lia.
Qed.

Lemma read_input_script_multisig_total (script_sig : bytes) :
  read_input_script_multisig_loop (S (length script_sig)) script_sig (0 + 1) []
  ≠ None.
Proof.
  apply read_input_script_multisig_loop_fuel; [lia |].
  unfold len. lia.
Qed.



(** *** Bytes after an accepted buffer *)












(** *** Bytes after an accepted multisig output script *)




Lemma read_output_script_multisig_Ok (data : bytes) (keys : list bytes) (m : Z) :
  read_output_script_multisig data = Ok (keys, m) →
  ∃ s2 o,
    byte_at data (-1) = Ok 0xAE
    ∧ byte_at data 0 = Ok (m + 0x50) ∧ 0x51 ≤ m + 0x50 < 0x60
    ∧ byte_at data (-2) = Ok s2 ∧ 0x51 ≤ s2 < 0x60 ∧ m ≤ s2 - 0x50
    ∧ for_range (s2 - 0x50) (read_output_script_multisig_step data) (1, [])
      = Ok (o, keys)
    ∧ o + 2 = len data.
Proof.
  unfold read_output_script_multisig. intros H.
  destruct (byte_at data (-1)) as [l|e]; [| done]. cbn [mbind result_bind] in H.
  destruct (Z.eqb_spec l 0xAE) as [Hl|]; [subst l | done]. cbn [negb] in H.
  destruct (byte_at data 0) as [s0|e]; [| done]. cbn [mbind result_bind] in H.
  destruct (Z.leb_spec 0x51 s0); [| done].
  destruct (Z.ltb_spec s0 0x60); [| done]. cbn [andb negb] in H.
  destruct (byte_at data (-2)) as [s2|e]; [| done]. cbn [mbind result_bind] in H.
  destruct (Z.leb_spec 0x51 s2); [| done].
  destruct (Z.ltb_spec s2 0x60); [| done]. cbn [andb negb] in H. cbv zeta in H.
  destruct (Z.ltb_spec (s2 - 0x50) (s0 - 0x50)); [done |].
  destruct (for_range (s2 - 0x50) (read_output_script_multisig_step data) (1, []))
    as [[o ks]|e] eqn:L; [| done].
  cbn [mbind result_bind] in H.
  destruct (Z.eqb_spec (o + 2) (len data)); [| done]. cbn [negb] in H.
  injection H as <- <-. exists s2, o.
  replace (s0 - 80 + 80) with s0 by lia. repeat split; try done; lia.
Qed.

Lemma read_output_script_multisig_step_Ok (data : bytes) (offset : Z)
    (acc : list bytes) (st : Z * list bytes) :
  0 ≤ offset →
  read_output_script_multisig_step data (offset, acc) = Ok st →
  ∃ o, read_op_push data offset = Ok (33, o) ∧ offset < o
       ∧ st = (o + 33, acc ++ [slice data o (o + 33)]).
Proof.
  intros Hoff. unfold read_output_script_multisig_step. intros H.
  destruct (read_op_push data offset) as [[n o]|e] eqn:R; [| done].
  cbn [mbind result_bind] in H.
  destruct (Z.eqb_spec n 33) as [Hn|]; [subst n | done]. cbn [negb] in H.
  injection H as <-. exists o.
  apply read_op_push_bounds in R as (? & ? & ?); done.
Qed.





(** *** Bytes after an accepted multisig scriptSig *)






(** A P2PKH scriptSig followed by one more byte. *)
Example read_input_script_p2pkh_trailing_byte :
  read_input_script_p2pkh [x01; x01; x01; xaa] = Ok ([[xaa]], [([], 1)])
  ∧ read_input_script_p2pkh [x01; x01; x01; xaa; x00]
    = Raise (DataError "Invalid scriptSig.").
Proof. split; reflexivity. Qed.


(** C10: [read_witness_p2wsh] does not compare the declared item count
    with the content.  When the leading varint is some N <= 2, the next
    byte is 0x00 and one varint-prefixed item takes the rest of the
    buffer, the parse succeeds with an empty signature list. *)
Theorem read_witness_p2wsh_item_count_unchecked
    (witness : bytes) (N offset n offset' : Z) :
  read_bitcoin_varint witness 0 = Ok (N, offset) →
  N ≤ 2 →
  byte_at witness offset = Ok 0 →
  read_bitcoin_varint witness (offset + 1) = Ok (n, offset') →
  offset' + n = len witness →
  read_witness_p2wsh witness = Ok (slice witness offset' (offset' + n), []).
Proof.
  intros R0 HN B R1 Hlen. unfold read_witness_p2wsh.
  rewrite R0. cbn [mbind result_bind]. rewrite B. cbn [mbind result_bind].
  change (0 =? 0) with true. cbn [negb]. cbv zeta. unfold for_range.
  replace (Z.to_nat (N - 2)) with 0%nat by lia. cbn [for_range_nat].
  cbn [mbind result_bind]. rewrite R1. cbn [mbind result_bind].
  rewrite Hlen, Z.eqb_refl. done.
Qed.

Lemma read_witness_p2wsh_item_count_unchecked_witness :
  read_witness_p2wsh [x00; x00; x01; xaa] = Ok ([xaa], [])
  ∧ read_witness_p2wsh [x01; x00; x01; xaa] = Ok ([xaa], [])
  ∧ read_witness_p2wsh [x02; x00; x01; xaa] = Ok ([xaa], []).
Proof.
  split; [| split].
  - apply (read_witness_p2wsh_item_count_unchecked [x00; x00; x01; xaa] 0 1 1 3);
      solve [reflexivity | lia].
  - apply (read_witness_p2wsh_item_count_unchecked [x01; x00; x01; xaa] 1 1 1 3);
      solve [reflexivity | lia].
  - apply (read_witness_p2wsh_item_count_unchecked [x02; x00; x01; xaa] 2 1 1 3);
      solve [reflexivity | lia].
Defined.

(** ** BIP-143 script code *)

(** The P2PKH output script: 76 A9 14 <20 bytes> 88 AC. *)
Lemma output_script_p2pkh_layout (pubkeyhash : bytes) :
  len pubkeyhash = 20 →
  output_script_p2pkh pubkeyhash
  = Ok ([x76; xa9; x14] ++ pubkeyhash ++ [x88; xac]).
Proof.
  intros H. unfold output_script_p2pkh. rewrite H.
  assert (length pubkeyhash = 20%nat) as Hn by (unfold len in H; lia).
  clear H.
  do 20 (destruct pubkeyhash as [|? pubkeyhash]; [discriminate Hn |]).
  destruct pubkeyhash; [| discriminate Hn]. reflexivity.
Qed.

(** C5: with more than one public key the script code is the bare
    multisig output script of (public_keys, threshold): the opcode
    0x50 + threshold, every key behind its push opcode 0x21, the opcode
    0x50 + n and OP_CHECKMULTISIG, for 33-byte keys and
    1 <= threshold <= n <= 15, and the error of the builder of that
    script otherwise.  With one key and one of the script types
    SPENDWITNESS, SPENDP2SHWITNESS, SPENDADDRESS and EXTERNAL it is the
    P2PKH output script of the hash of public_keys[0], that is
    76 A9 14 <hash> 88 AC, for a key of the length its first byte asks
    for and a 20-byte hash; a key or a hash of another length fails
    the precondition, and a missing or empty key is an [IndexError].
    Every other combination fails with the unknown-script-type
    error. *)
Theorem bip143_derive_script_code_cases
    (txi : TxInputType) (public_keys : list bytes) (threshold : Z) (coin : CoinInfo) :
  (1 < len public_keys →
   (Forall (λ p, len p = 33) public_keys →
    1 ≤ threshold ≤ len public_keys → len public_keys ≤ 15 →
    ∃ bm bn,
      bip143_derive_script_code txi public_keys threshold coin
      = Ok (bm :: pubkey_pushes public_keys ++ [bn; xae])
      ∧ int_of_byte bm = 0x50 + threshold
      ∧ int_of_byte bn = 0x50 + len public_keys)
   ∧ (¬ (Forall (λ p, len p = 33) public_keys
         ∧ 1 ≤ threshold ≤ len public_keys ∧ len public_keys ≤ 15) →
      bip143_derive_script_code txi public_keys threshold coin
      = Raise (DataError "Invalid multisig parameters")))
  ∧ (len public_keys ≤ 1 →
     txi_script_type txi = SPENDWITNESS ∨ txi_script_type txi = SPENDP2SHWITNESS
     ∨ txi_script_type txi = SPENDADDRESS ∨ txi_script_type txi = EXTERNAL →
     (public_keys = [] ∨ public_keys = [[]] →
      bip143_derive_script_code txi public_keys threshold coin
      = Raise IndexError)
     ∧ ∀ b rest,
         public_keys = [b :: rest] →
         let pubkey := b :: rest in
         let expected :=
           if int_of_byte b =? 0x04 then 65
           else if int_of_byte b =? 0x00 then 1 else 33 in
         (len pubkey = expected → len (script_hash coin pubkey) = 20 →
          bip143_derive_script_code txi public_keys threshold coin
          = Ok ([x76; xa9; x14] ++ script_hash coin pubkey ++ [x88; xac]))
         ∧ (len pubkey ≠ expected ∨ len (script_hash coin pubkey) ≠ 20 →
            bip143_derive_script_code txi public_keys threshold coin
            = Raise AssertionError))
  ∧ (len public_keys ≤ 1 →
     ¬ (txi_script_type txi = SPENDWITNESS ∨ txi_script_type txi = SPENDP2SHWITNESS
        ∨ txi_script_type txi = SPENDADDRESS ∨ txi_script_type txi = EXTERNAL) →
     bip143_derive_script_code txi public_keys threshold coin
     = Raise (DataError "Unknown input script type for bip143 script code")).
Proof.
  unfold bip143_derive_script_code.
  split; [| split]; intros Hlen.
  - destruct (Z.ltb_spec 1 (len public_keys)); [| lia].
    unfold output_script_multisig, empty_bytearray. cbv zeta. split.
    + intros H33 Hm Hn.
      destruct (write_output_script_multisig_layout [] public_keys threshold
                  H33 Hm Hn) as (bm & bn & Hw & Vm & Vn).
      exists bm, bn. by rewrite Hw.
    + intros Hnot. unfold write_output_script_multisig. cbv zeta.
      destruct (_ || _) eqn:Hrange; [done |].
      rewrite !orb_false_iff in Hrange.
      destruct Hrange as ((((R1 & R2) & R3) & R4) & R5).
      apply Z.ltb_ge in R1, R2, R3, R4, R5.
      rewrite check_pubkeys_not_33; [done |].
      intros H33. apply Hnot. split; [done |]. lia.
  - intros Hty. destruct (Z.ltb_spec 1 (len public_keys)); [lia |]. cbv zeta.
    assert (bool_decide (txi_script_type txi = SPENDWITNESS)
            || bool_decide (txi_script_type txi = SPENDP2SHWITNESS)
            || bool_decide (txi_script_type txi = SPENDADDRESS)
            || bool_decide (txi_script_type txi = EXTERNAL) = true) as ->.
    { by destruct Hty as [-> | [-> | [-> | ->]]]. }
    split.
    + by intros [-> | ->].
    + intros b rest ->. cbv zeta.
      change (getitem [b :: rest] 0) with (Ok (b :: rest)).
      cbn [mbind result_bind]. unfold ecdsa_hash_pubkey.
      rewrite byte_at_0. cbn [mbind result_bind].
      assert (∀ e : Z,
                (len (b :: rest) = e → len (script_hash coin (b :: rest)) = 20 →
                 (ensure (len (b :: rest) =? e)
                    ≫= λ _, Ok (script_hash coin (b :: rest)))
                   ≫= (λ h, output_script_p2pkh h)
                 = Ok ([x76; xa9; x14] ++ script_hash coin (b :: rest)
                       ++ [x88; xac]))
                ∧ (len (b :: rest) ≠ e ∨ len (script_hash coin (b :: rest)) ≠ 20 →
                   (ensure (len (b :: rest) =? e)
                      ≫= λ _, Ok (script_hash coin (b :: rest)))
                     ≫= (λ h, output_script_p2pkh h)
                   = Raise AssertionError)) as Hcase.
      { intros e. split.
        - intros Hkey Hhash. rewrite Hkey, Z.eqb_refl.
          cbn [ensure mbind result_bind]. by apply output_script_p2pkh_layout.
        - intros Hbad.
          destruct (Z.eqb_spec (len (b :: rest)) e) as [Hkey|Hkey]; [| done].
          cbn [ensure mbind result_bind]. destruct Hbad as [Hbad | Hbad]; [done |].
          unfold output_script_p2pkh.
          by destruct (Z.eqb_spec (len (script_hash coin (b :: rest))) 20). }
      destruct (int_of_byte b =? 4); [apply Hcase |].
      destruct (int_of_byte b =? 0); apply Hcase.
  - intros Hty. destruct (Z.ltb_spec 1 (len public_keys)); [lia |].
    destruct (txi_script_type txi); try reflexivity; exfalso; apply Hty; auto.
Qed.

Lemma bip143_derive_script_code_cases_witness :
  (∃ bm bn,
     bip143_derive_script_code {| txi_script_type := SPENDMULTISIG |}
       [sample_pubkey; sample_pubkey'] 2 sample_coin
     = Ok (bm :: pubkey_pushes [sample_pubkey; sample_pubkey'] ++ [bn; xae])
     ∧ int_of_byte bm = 0x50 + 2
     ∧ int_of_byte bn = 0x50 + len [sample_pubkey; sample_pubkey'])
  ∧ bip143_derive_script_code {| txi_script_type := SPENDMULTISIG |}
      [sample_pubkey; sample_pubkey'] 3 sample_coin
    = Raise (DataError "Invalid multisig parameters")
  ∧ bip143_derive_script_code {| txi_script_type := SPENDP2SHWITNESS |}
      [sample_pubkey] 1 sample_coin
    = Ok ([x76; xa9; x14] ++ script_hash sample_coin sample_pubkey ++ [x88; xac])
  ∧ bip143_derive_script_code {| txi_script_type := SPENDMULTISIG |}
      [sample_pubkey] 1 sample_coin
    = Raise (DataError "Unknown input script type for bip143 script code").
Proof.
  split; [| split; [| split]].
  - destruct (bip143_derive_script_code_cases {| txi_script_type := SPENDMULTISIG |}
                [sample_pubkey; sample_pubkey'] 2 sample_coin)
      as (Hmulti & _).
    destruct Hmulti as (Hvalid & _); [reflexivity |].
    apply Hvalid.
    + repeat constructor.
    + vm_compute. split; discriminate.
    + vm_compute. discriminate.
  - destruct (bip143_derive_script_code_cases {| txi_script_type := SPENDMULTISIG |}
                [sample_pubkey; sample_pubkey'] 3 sample_coin)
      as (Hmulti & _).
    destruct Hmulti as (_ & Hinvalid); [reflexivity |].
    apply Hinvalid. intros (_ & Hm & _). vm_compute in Hm.
    destruct Hm as [_ Hm]. by apply Hm.
  - destruct (bip143_derive_script_code_cases
                {| txi_script_type := SPENDP2SHWITNESS |}
                [sample_pubkey] 1 sample_coin)
      as (_ & Hsingle & _).
    destruct Hsingle as (_ & Hkey).
    + vm_compute. discriminate.
    + right. left. reflexivity.
    + destruct (Hkey x02 (replicate 32 xaa) eq_refl) as (Hok & _).
      apply Hok; reflexivity.
  - apply (bip143_derive_script_code_cases {| txi_script_type := SPENDMULTISIG |}
             [sample_pubkey] 1 sample_coin).
    + vm_compute. discriminate.
    + cbn. intros [H | [H | [H | H]]]; discriminate H.
Defined.

(** ** CoinJoin authorization *)

Section AuthorizeCoinJoinProperties.
Context {Keychain Authorization : Type}.
Variable BIP32_WALLET_DEPTH : Z.
Variable validate_path :
  Keychain → list Z → str → CoinInfo → InputScriptType → result unit.
Variable require_confirm : Text → result unit.
Variable require_hold_to_confirm : Text → result unit.
Variable format_amount : Z → Z → str.
Variable set_coinjoin_authorization : AuthorizeCoinJoin → CoinInfo → Authorization.

Let run (msg : AuthorizeCoinJoin) (keychain : Keychain) (coin : CoinInfo)
    (s : session Authorization) :=
  authorize_coinjoin BIP32_WALLET_DEPTH validate_path require_confirm
    require_hold_to_confirm format_amount set_coinjoin_authorization
    msg keychain coin s.

(** The test of the first statement of [authorize_coinjoin]. *)
Lemma coordinator_test (c : str) :
  (_MAX_COORDINATOR_LEN <? len c)
  || existsb (λ x, (ord x <? 32) || (126 <? ord x)) c
  = negb (matches_coordinator_regex_0_18 c).
Proof.
  unfold matches_coordinator_regex_0_18, _MAX_COORDINATOR_LEN.
  rewrite negb_andb, Z.leb_antisym, negb_involutive. f_equal.
  induction c as [|x c IH]; [done |].
  cbn [existsb forallb]. rewrite negb_andb, IH. f_equal.
  rewrite negb_andb, !Z.leb_antisym, !negb_involutive. done.
Qed.

(** A name that passes the test leads to the request to the path
    validator; the later requests come after it. *)
Lemma authorize_coinjoin_passes msg keychain coin s :
  matches_coordinator_regex_0_18 (coordinator msg) = true →
  ∃ rest,
    requests (run msg keychain coin s).2
    = requests s
      ++ validate_path_request
           (address_n msg ++ replicate (Z.to_nat BIP32_WALLET_DEPTH) 0)
           (curve_name coin) (acj_script_type msg) :: rest.
Proof.
  intros Hm. unfold run, authorize_coinjoin.
  rewrite coordinator_test, Hm. cbn [negb]. cbv zeta.
  unfold mbind, stateM_bind, ask, set_global, mret, stateM_ret.
  destruct (validate_path _ _ _ _ _); cbn; [| by eexists].
  destruct (require_confirm _); cbn; [| rewrite <- app_assoc; by eexists].
  destruct (require_hold_to_confirm _); cbn;
    rewrite <- !app_assoc; by eexists.
Qed.

(** C3 (amended): [authorize_coinjoin] rejects the coordinator name,
    with [DataError] and before any request is made, exactly when
    the name does not match [^[\\x20-\\x7E]{0,18}$]; a name that
    matches, the empty name included, passes on to path validation. *)
Theorem authorize_coinjoin_coordinator_validation msg keychain coin s :
  (run msg keychain coin s = (Raise (DataError "Invalid coordinator name."), s)
   ↔ matches_coordinator_regex_0_18 (coordinator msg) = false)
  ∧ (matches_coordinator_regex_0_18 (coordinator msg) = true →
     ∃ rest,
       requests (run msg keychain coin s).2
       = requests s
         ++ validate_path_request
              (address_n msg ++ replicate (Z.to_nat BIP32_WALLET_DEPTH) 0)
              (curve_name coin) (acj_script_type msg) :: rest).
Proof.
  split; [| apply authorize_coinjoin_passes].
  split.
  - intros Hrun.
    destruct (matches_coordinator_regex_0_18 (coordinator msg)) eqn:Hm; [| done].
    destruct (authorize_coinjoin_passes msg keychain coin s Hm) as (rest & Hr).
    rewrite Hrun in Hr. cbn in Hr.
    apply (f_equal length) in Hr. rewrite length_app in Hr. cbn in Hr. lia.
  - intros Hm. unfold run, authorize_coinjoin.
    rewrite coordinator_test, Hm. reflexivity.
Qed.

End AuthorizeCoinJoinProperties.

Lemma authorize_coinjoin_coordinator_validation_witness :
  ∃ rest,
    requests
      (authorize_coinjoin (Keychain := unit) (Authorization := AuthorizeCoinJoin)
         2 (λ _ _ _ _ _, Ok tt) (λ _, Ok tt) (λ _, Ok tt) (λ _ _, [])
         (λ msg _, msg) sample_authorize tt sample_coin empty_session).2
    = requests (@empty_session AuthorizeCoinJoin)
      ++ validate_path_request (address_n sample_authorize ++ replicate (Z.to_nat 2) 0)
           (curve_name sample_coin) (acj_script_type sample_authorize) :: rest.
Proof.
  apply (authorize_coinjoin_coordinator_validation (Keychain := unit)
           2 (λ _ _ _ _ _, Ok tt) (λ _, Ok tt) (λ _, Ok tt) (λ _ _, [])
           (λ msg _, msg) sample_authorize tt sample_coin empty_session).
  reflexivity.
Defined.

(** The empty coordinator name does not match [^[\\x20-\\x7E]{1,18}$],
    and [authorize_coinjoin] accepts it: with a valid path and both
    confirmations given, the authorization is installed. *)
Lemma authorize_coinjoin_accepts_empty_coordinator :
  matches_coordinator_regex (coordinator sample_authorize_empty) = false
  ∧ (authorize_coinjoin (Keychain := unit) (Authorization := AuthorizeCoinJoin)
       2 (λ _ _ _ _ _, Ok tt) (λ _, Ok tt) (λ _, Ok tt) (λ _ _, [])
       (λ msg _, msg) sample_authorize_empty tt sample_coin empty_session).1
    = Ok SuccessMessage.
Proof. split; reflexivity. Qed.

(** ** Computations over the store *)

Lemma lift_bind {S A B} (r : result A) (f : A → stateM S B) (s : S) :
  (lift r ≫= f) s = match r with
                    | Ok a => f a s
                    | Raise e => (Raise e, s)
                    end.
Proof. by destruct r. Qed.

Lemma lift_bind_Ok {S A B} (r : result A) (f : A → stateM S B) (s s' : S) (b : B) :
  (lift r ≫= f) s = (Ok b, s') → ∃ a, r = Ok a ∧ f a s = (Ok b, s').
Proof. rewrite lift_bind. destruct r as [a|e]; [eauto | done]. Qed.

(** A tail of pure steps leaves the state as it is. *)
Lemma lift_bind_state {S A B} (r : result A) (f : A → stateM S B) (s : S)
    (P : S → Prop) :
  P s → (∀ a, P (f a s).2) → P ((lift r ≫= f) s).2.
Proof. intros Hs Hf. rewrite lift_bind. destruct r; [apply Hf | done]. Qed.

(** [l[i] = x] changes slot [i] and nothing else. *)
Lemma setitem_Ok {A} (l l' : list A) (i : Z) (x : A) :
  setitem l i x = Ok l' →
  ∃ j : nat, (j < length l)%nat
             ∧ Z.of_nat j = (if i <? 0 then i + len l else i)
             ∧ l' = <[j := x]> l.
Proof.
  unfold setitem. cbv zeta.
  set (k := if i <? 0 then i + len l else i).
  destruct (Z.ltb_spec k 0); [done |].
  destruct (Z.leb_spec (len l) k); [done |]. cbn [orb].
  intros [= <-]. exists (Z.to_nat k). unfold len in *. split; [lia |].
  split; [lia | done].
Qed.

Lemma setitem_nonneg {A} (l l' : list A) (i : Z) (x : A) :
  0 ≤ i → setitem l i x = Ok l' → l' = <[Z.to_nat i := x]> l.
Proof.
  intros Hi H. apply setitem_Ok in H as (j & _ & Hj & ->).
  destruct (Z.ltb_spec i 0); [lia |]. f_equal. lia.
Qed.

Lemma setitem_other {A} (l l' : list A) (i : Z) (x : A) (j : nat) :
  setitem l i x = Ok l' →
  Z.of_nat j ≠ (if i <? 0 then i + len l else i) →
  l' !! j = l !! j.
Proof.
  intros H Hj. apply setitem_Ok in H as (k & _ & Hk & ->).
  apply list_lookup_insert_ne. lia.
Qed.

Lemma getitem_nonneg {A} (l : list A) (i : Z) :
  0 ≤ i → getitem l i = match l !! Z.to_nat i with
                        | Some x => Ok x
                        | None => Raise IndexError
                        end.
Proof. intros. unfold getitem. by zcmp. Qed.

Lemma load_bind {B} (l : loc) (f : list slot → heapM B) (h : store) :
  (load l ≫= f) h = f (default [] (h !! l)) h.
Proof. reflexivity. Qed.

Lemma alloc_bind {B} (v : list slot) (f : loc → heapM B) (h : store) :
  (alloc v ≫= f) h = f (fresh (dom h)) (<[fresh (dom h) := v]> h).
Proof. reflexivity. Qed.

Lemma list_getitem_bind {B} (l : loc) (i : Z) (f : slot → heapM B) (h : store) :
  (list_getitem l i ≫= f) h
  = match getitem (default [] (h !! l)) i with
    | Ok s => f s h
    | Raise e => (Raise e, h)
    end.
Proof.
  unfold mbind, stateM_bind, list_getitem. by destruct (getitem _ i).
Qed.

Lemma list_setitem_bind {B} (l : loc) (i : Z) (x : slot) (f : unit → heapM B)
    (h : store) :
  (list_setitem l i x ≫= f) h
  = match setitem (default [] (h !! l)) i x with
    | Ok v => f tt (<[l := v]> h)
    | Raise e => (Raise e, h)
    end.
Proof.
  unfold mbind, stateM_bind, list_setitem. by destruct (setitem _ i x).
Qed.

Ltac simpl_default :=
  repeat match goal with
         | |- context [default ?d (Some ?x)] => change (default d (Some x)) with x
         | H : context [default ?d (Some ?x)] |- _ =>
             change (default d (Some x)) with x in H
         end.

(** ** Writers only append *)

Lemma append_prefix (w w' : bytes) (n : Z) : append w n = Ok w' → w `prefix_of` w'.
Proof. intros H. apply append_inv in H as (b & -> & _). by eexists. Qed.

(** Split a chain of appends in [H] and chain the prefixes. *)
Ltac append_chain H :=
  repeat match type of H with
         | mbind _ _ = Ok _ =>
             let w := fresh "w" in
             let Ha := fresh "Ha" in
             apply result_bind_Ok in H as (w & Ha & H)
         end;
  apply append_prefix in H;
  repeat match goal with
         | Ha : append _ _ = Ok _ |- _ => apply append_prefix in Ha
         end;
  repeat (etrans; [eassumption |]); done.

Lemma write_bitcoin_varint_prefix (w w' : bytes) (n : Z) :
  write_bitcoin_varint w n = Ok w' → w `prefix_of` w'.
Proof.
  unfold write_bitcoin_varint. intros H.
  destruct (n <? 253); [by eapply append_prefix |].
  destruct (n <=? 65535); [append_chain H |].
  destruct (n <=? 4294967295); append_chain H.
Qed.

Lemma write_op_push_prefix (w w' : bytes) (n : Z) :
  write_op_push w n = Ok w' → w `prefix_of` w'.
Proof.
  unfold write_op_push. intros H.
  destruct (n <? 76); [by eapply append_prefix |].
  destruct (n <=? 255); [append_chain H |].
  destruct (n <=? 65535); [append_chain H |].
  destruct (n <=? 4294967295); [append_chain H | done].
Qed.

Lemma for_each_prefix {A} (l : list A) (body : bytes → A → result bytes)
    (w w' : bytes) :
  (∀ w x w', body w x = Ok w' → w `prefix_of` w') →
  for_each l body w = Ok w' → w `prefix_of` w'.
Proof.
  intros Hbody. revert w. induction l as [|x l IH]; intros w H.
  - cbn in H. by injection H as <-.
  - cbn [for_each] in H. apply result_bind_Ok in H as (w1 & H1 & H).
    etrans; [by eapply Hbody | by apply IH].
Qed.

Lemma append_signature_prefix (w w' signature : bytes) (hash_type : Z) :
  append_signature w signature hash_type = Ok w' → w `prefix_of` w'.
Proof.
  unfold append_signature, write_bytes_unchecked. intros H.
  apply result_bind_Ok in H as (w1 & H1 & H).
  apply write_op_push_prefix in H1. apply append_prefix in H.
  etrans; [exact H1 |]. etrans; [| exact H]. by apply prefix_app_r.
Qed.

Lemma write_signature_prefixed_prefix (w w' signature : bytes) (hash_type : Z) :
  write_signature_prefixed w signature hash_type = Ok w' → w `prefix_of` w'.
Proof.
  unfold write_signature_prefixed, write_bytes_unchecked. intros H.
  apply result_bind_Ok in H as (w1 & H1 & H).
  apply write_bitcoin_varint_prefix in H1. apply append_prefix in H.
  etrans; [exact H1 |]. etrans; [| exact H]. by apply prefix_app_r.
Qed.

Lemma append_pubkey_prefix (w w' pubkey : bytes) :
  append_pubkey w pubkey = Ok w' → w `prefix_of` w'.
Proof.
  unfold append_pubkey, write_bytes_unchecked. intros H.
  apply result_bind_Ok in H as (w1 & H1 & [= <-]).
  apply write_op_push_prefix in H1.
  etrans; [exact H1 |]. by apply prefix_app_r.
Qed.

Lemma write_output_script_multisig_prefix (w w' : bytes) (pubkeys : list bytes) (m : Z) :
  write_output_script_multisig w pubkeys m = Ok w' → w `prefix_of` w'.
Proof.
  unfold write_output_script_multisig. cbv zeta. intros H.
  destruct (_ || _); [done |].
  apply result_bind_Ok in H as (_ & _ & H).
  apply result_bind_Ok in H as (w1 & H1 & H).
  apply result_bind_Ok in H as (w2 & H2 & H).
  apply result_bind_Ok in H as (w3 & H3 & H).
  apply append_prefix in H1, H3, H.
  apply for_each_prefix in H2; [| intros ? ? ?; apply append_pubkey_prefix].
  etrans; [exact H1 |]. etrans; [exact H2 |]. etrans; [exact H3 | exact H].
Qed.

(** The item count of a witness is at least 1, so its varint does not
    start with a zero byte. *)
Lemma write_bitcoin_varint_first_byte (n : Z) (pre : bytes) :
  1 ≤ n → write_bitcoin_varint [] n = Ok pre →
  ∃ b rest, pre = b :: rest ∧ b ≠ x00.
Proof.
  intros Hn. unfold write_bitcoin_varint.
  destruct (n <? 253).
  { intros H. apply append_inv in H as (b & -> & Hb & _).
    exists b, []. split; [done |]. intros ->. cbn in Hb. lia. }
  assert (∀ op k, append [] op = Ok [k] → k ≠ x00 →
            ∀ (f : bytes → result bytes),
              (∀ w w', f w = Ok w' → w `prefix_of` w') →
              (append [] op ≫= f) = Ok pre → ∃ b rest, pre = b :: rest ∧ b ≠ x00)
    as Hgen.
  { intros op k Hop Hk f Hf H. rewrite Hop in H. cbn [mbind result_bind] in H.
    apply Hf in H as [rest ->]. by exists k, rest. }
  destruct (n <=? 65535).
  { apply (Hgen 0xFD xfd); [done | done |]. intros w w' H. append_chain H. }
  destruct (n <=? 4294967295).
  { apply (Hgen 0xFE xfe); [done | done |]. intros w w' H. append_chain H. }
  apply (Hgen 0xFF xff); [done | done |]. intros w w' H. append_chain H.
Qed.

Lemma write_bitcoin_varint_zero (w : bytes) : write_bitcoin_varint w 0 = Ok (w ++ [x00]).
Proof. reflexivity. Qed.

(** ** Multisig scriptSig and P2WSH witness *)

Section MultisigProperties.
Context {HDNodePathType : Type}.
Variable BITCOIN_ONLY : bool.
Variable multisig_get_pubkeys :
  MultisigRedeemScriptType HDNodePathType → result (list bytes).
Variable multisig_get_pubkey_count :
  MultisigRedeemScriptType HDNodePathType → Z.

Local Abbreviation padded multisig h :=
  (stretched_signatures (multisig_get_pubkey_count multisig)
     (default [] (h !! ms_signatures multisig))).

(** What a run of [witness_p2wsh] does, case by case. *)
Lemma witness_p2wsh_inv multisig signature signature_index hash_type h r h' :
  witness_p2wsh multisig_get_pubkeys multisig_get_pubkey_count
    multisig signature signature_index hash_type h = (r, h') →
  h ⊆ h'
  ∧ match getitem (padded multisig h) signature_index with
    | Raise e => r = Raise e
    | Ok s =>
        if truthy s then r = Raise (DataError "Invalid multisig parameters")
        else
          match setitem (padded multisig h) signature_index (Some signature) with
          | Raise e => r = Raise e
          | Ok work =>
              (∃ l, h !! l = None ∧ h' !! l = Some work)
              ∧ ∀ w, r = Ok w →
                  ∃ count rest,
                    write_bitcoin_varint []
                      (1 + len (base.filter (λ s, truthy s = true) work) + 1)
                    = Ok count
                    ∧ w = count ++ x00 :: rest
          end
    end.
Proof.
  unfold witness_p2wsh. rewrite load_bind, alloc_bind.
  change (default [] (h !! ms_signatures multisig) ++ _)
    with (padded multisig h).
  set (l1 := fresh (dom h)).
  assert (h !! l1 = None) as Hl1 by apply not_elem_of_dom, is_fresh.
  assert (h ⊆ <[l1 := padded multisig h]> h) as Hsub1 by by apply insert_subseteq.
  rewrite list_getitem_bind, lookup_insert_eq. simpl_default.
  destruct (getitem (padded multisig h) signature_index) as [s|e];
    [| by intros [= <- <-]].
  destruct (truthy s); [by intros [= <- <-] |].
  rewrite list_setitem_bind, lookup_insert_eq. simpl_default.
  destruct (setitem (padded multisig h) signature_index (Some signature))
    as [work|e]; [| by intros [= <- <-]].
  rewrite insert_insert_eq.
  rewrite load_bind, lookup_insert_eq. simpl_default. rewrite alloc_bind.
  set (filtered := base.filter _ work).
  set (h2 := <[l1:=work]> h).
  set (l2 := fresh (dom h2)).
  assert (h2 !! l2 = None) as Hl2 by apply not_elem_of_dom, is_fresh.
  assert (l1 ≠ l2) as Hne.
  { intros <-. unfold h2 in Hl2. by rewrite lookup_insert_eq in Hl2. }
  rewrite load_bind, lookup_insert_eq. simpl_default. cbv zeta.
  set (h3 := <[l2:=filtered]> h2).
  intros Hrun.
  assert (h' = h3) as ->.
  { replace h' with (r, h').2 by done. rewrite <- Hrun.
    repeat (apply (lift_bind_state _ _ _ (λ s, s = h3)); [done | intros ?]).
    done. }
  split.
  { etrans; [by apply (insert_subseteq h l1 work) |].
    by apply insert_subseteq. }
  split.
  { exists l1. split; [done |]. unfold h3, h2.
    by rewrite lookup_insert_ne, lookup_insert_eq by done. }
  intros w ->.
  apply lift_bind_Ok in Hrun as (pubkeys & _ & Hrun).
  apply lift_bind_Ok in Hrun as (total_length & _ & Hrun).
  apply lift_bind_Ok in Hrun as (w0 & Hcount & Hrun).
  apply lift_bind_Ok in Hrun as (w1 & Hfalse & Hrun).
  apply lift_bind_Ok in Hrun as (w2 & Hsigs & Hrun).
  apply lift_bind_Ok in Hrun as (w3 & Hlen & Hrun).
  apply lift_bind_Ok in Hrun as (w4 & Hscript & Hrun).
  injection Hrun as <-.
  rewrite write_bitcoin_varint_zero in Hfalse. injection Hfalse as <-.
  apply for_each_prefix in Hsigs.
  2:{ intros ? [b|] ?; [| done]. apply write_signature_prefixed_prefix. }
  apply write_bitcoin_varint_prefix in Hlen.
  apply write_output_script_multisig_prefix in Hscript.
  assert ((w0 ++ [x00]) `prefix_of` w4) as [rest ->].
  { etrans; [exact Hsigs |]. etrans; [exact Hlen | exact Hscript]. }
  exists w0, rest. split; [exact Hcount |]. by rewrite <- app_assoc.
Qed.

(** What a run of [input_script_multisig] does, case by case. *)
Lemma input_script_multisig_inv
    multisig signature signature_index hash_type coin h r h' :
  input_script_multisig BITCOIN_ONLY multisig_get_pubkeys
    multisig signature signature_index hash_type coin h = (r, h') →
  let sigs := default [] (h !! ms_signatures multisig) in
  match getitem sigs signature_index with
  | Raise e => r = Raise e ∧ h' = h
  | Ok s =>
      match slot_len s with
      | Raise e => r = Raise e ∧ h' = h
      | Ok n =>
          if 0 <? n then
            r = Raise (DataError "Invalid multisig parameters") ∧ h' = h
          else
            match setitem sigs signature_index (Some signature) with
            | Raise e => r = Raise e ∧ h' = h
            | Ok sigs' =>
                h' = <[ms_signatures multisig := sigs']> h
                ∧ ∀ w, r = Ok w →
                    BITCOIN_ONLY || negb (decred coin) = true →
                    ∃ rest, w = x00 :: rest
            end
      end
  end.
Proof.
  unfold input_script_multisig. cbv zeta.
  rewrite list_getitem_bind.
  destruct (getitem _ signature_index) as [s|e]; [| by intros [= <- <-]].
  rewrite lift_bind.
  destruct (slot_len s) as [n|e]; [| by intros [= <- <-]].
  destruct (0 <? n); [by intros [= <- <-] |].
  rewrite list_setitem_bind.
  destruct (setitem _ signature_index (Some signature)) as [sigs'|e];
    [| by intros [= <- <-]].
  set (h1 := <[ms_signatures multisig := sigs']> h).
  intros Hrun.
  assert (h' = h1) as ->.
  { replace h' with (r, h').2 by done. rewrite <- Hrun.
    apply (lift_bind_state _ _ _ (λ s, s = h1)); [done | intros ?].
    rewrite load_bind.
    repeat (apply (lift_bind_state _ _ _ (λ s, s = h1)); [done | intros ?]).
    done. }
  split; [done |]. intros w -> Hfalse.
  apply lift_bind_Ok in Hrun as (pubkeys & _ & Hrun).
  rewrite load_bind in Hrun.
  apply lift_bind_Ok in Hrun as (total_length & _ & Hrun).
  apply lift_bind_Ok in Hrun as (w0 & Hop & Hrun).
  apply lift_bind_Ok in Hrun as (w1 & Hsigs & Hrun).
  apply lift_bind_Ok in Hrun as (w2 & Hlen & Hrun).
  apply lift_bind_Ok in Hrun as (w3 & Hscript & Hrun).
  injection Hrun as <-.
  rewrite Hfalse in Hop. unfold empty_bytearray in Hop.
  change (append [] 0) with (Ok [x00]) in Hop. injection Hop as <-.
  apply for_each_prefix in Hsigs.
  2:{ intros w x w'. destruct (slot_len x) as [k|]; [| done].
      cbn [mbind result_bind]. destruct (negb (k =? 0)).
      - destruct x as [b|]; [| done]. apply append_signature_prefix.
      - by intros [= <-]. }
  apply write_op_push_prefix in Hlen.
  apply write_output_script_multisig_prefix in Hscript.
  assert ([x00] `prefix_of` w3) as [rest ->].
  { etrans; [exact Hsigs |]. etrans; [exact Hlen | exact Hscript]. }
  by exists rest.
Qed.

(** C7 (amended): a multisig scriptSig built for a coin that is not
    Decred begins with the OP_FALSE byte 0x00.  A P2WSH witness begins
    with the varint of its item count, which is 2 plus the number of
    signature slots that are filled once the given signature is stored,
    and so never starts with a zero byte; the OP_FALSE byte 0x00
    follows the item count. *)
Theorem op_false_in_scriptsig_and_witness
    multisig signature signature_index hash_type coin h :
  (∀ w h',
     decred coin = false →
     input_script_multisig BITCOIN_ONLY multisig_get_pubkeys
       multisig signature signature_index hash_type coin h = (Ok w, h') →
     ∃ rest, w = x00 :: rest)
  ∧ (∀ w h',
       witness_p2wsh multisig_get_pubkeys multisig_get_pubkey_count
         multisig signature signature_index hash_type h = (Ok w, h') →
       ∃ work count b tail rest,
         setitem (padded multisig h) signature_index (Some signature) = Ok work
         ∧ write_bitcoin_varint []
             (2 + len (base.filter (λ s, truthy s = true) work)) = Ok count
         ∧ count = b :: tail ∧ b ≠ x00
         ∧ w = count ++ x00 :: rest).
Proof.
  split.
  - intros w h' Hdecred Hrun. apply input_script_multisig_inv in Hrun.
    cbv zeta in Hrun.
    destruct (getitem _ signature_index) as [s|e]; [| by destruct Hrun].
    destruct (slot_len s) as [n|e]; [| by destruct Hrun].
    destruct (0 <? n); [by destruct Hrun |].
    destruct (setitem _ signature_index _) as [sigs'|e]; [| by destruct Hrun].
    destruct Hrun as [_ Hw]. apply Hw; [done |].
    rewrite Hdecred. apply orb_true_r.
  - intros w h' Hrun. apply witness_p2wsh_inv in Hrun as [_ Hrun].
    destruct (getitem _ signature_index) as [s|e]; [| done].
    destruct (truthy s); [done |].
    destruct (setitem _ signature_index _) as [work|e]; [| done].
    destruct Hrun as [_ Hw].
    destruct (Hw w eq_refl) as (count & rest & Hcount & ->).
    pose proof (len_nonneg (base.filter (λ s, truthy s = true) work)) as Hnn.
    replace (1 + len (base.filter (λ s, truthy s = true) work) + 1)
      with (2 + len (base.filter (λ s, truthy s = true) work)) in Hcount by lia.
    destruct (write_bitcoin_varint_first_byte
                (2 + len (base.filter (λ s, truthy s = true) work)) count)
      as (b & tail & -> & Hb); [lia | done |].
    by exists work, (b :: tail), b, tail, rest.
Qed.

(** C8: when the signature slot at the given index is already
    non-empty, [input_script_multisig] and [witness_p2wsh] fail with
    "Invalid multisig parameters" and nothing of the caller's is
    changed; a call changes no slot but the one at the given index,
    which it sets to the given signature. *)
Theorem filled_slot_is_rejected
    multisig signature signature_index hash_type coin h sigs :
  h !! ms_signatures multisig = Some sigs →
  0 ≤ signature_index →
  (∀ s,
     sigs !! Z.to_nat signature_index = Some (Some s) → s ≠ [] →
     input_script_multisig BITCOIN_ONLY multisig_get_pubkeys
       multisig signature signature_index hash_type coin h
     = (Raise (DataError "Invalid multisig parameters"), h)
     ∧ (witness_p2wsh multisig_get_pubkeys multisig_get_pubkey_count
          multisig signature signature_index hash_type h).1
       = Raise (DataError "Invalid multisig parameters")
     ∧ h ⊆ (witness_p2wsh multisig_get_pubkeys multisig_get_pubkey_count
              multisig signature signature_index hash_type h).2)
  ∧ (∀ r h',
       input_script_multisig BITCOIN_ONLY multisig_get_pubkeys
         multisig signature signature_index hash_type coin h = (r, h') →
       h' = h
       ∨ h' = <[ms_signatures multisig :=
                  <[Z.to_nat signature_index := Some signature]> sigs]> h)
  ∧ (∀ w h',
       witness_p2wsh multisig_get_pubkeys multisig_get_pubkey_count
         multisig signature signature_index hash_type h = (Ok w, h') →
       ∃ l, h !! l = None
            ∧ h' !! l
              = Some (<[Z.to_nat signature_index := Some signature]>
                        (stretched_signatures
                           (multisig_get_pubkey_count multisig) sigs))).
Proof.
  intros Hsigs Hidx. split; [| split].
  - intros s Hs Hne.
    assert (∃ k, len s = k ∧ 0 < k) as (k & Hk & Hpos).
    { exists (len s). split; [done |]. destruct s; [done |].
      rewrite len_cons. pose proof (len_nonneg s). lia. }
    split; [| split].
    + destruct (input_script_multisig _ _ _ _ _ _ _ h) as [r h'] eqn:Hrun.
      apply input_script_multisig_inv in Hrun. cbv zeta in Hrun.
      rewrite Hsigs in Hrun. simpl_default.
      rewrite getitem_nonneg, Hs in Hrun by done. cbn [slot_len] in Hrun.
      rewrite Hk in Hrun.
      destruct (Z.ltb_spec 0 k); [| lia]. by destruct Hrun as [-> ->].
    + destruct (witness_p2wsh _ _ _ _ _ _ h) as [r h'] eqn:Hrun.
      apply witness_p2wsh_inv in Hrun as [_ Hrun].
      rewrite Hsigs in Hrun. simpl_default.
      unfold stretched_signatures in Hrun.
      rewrite getitem_nonneg in Hrun by done.
      rewrite (lookup_app_l_Some _ _ _ _ Hs) in Hrun.
      cbn [truthy] in Hrun. rewrite Hk in Hrun.
      destruct (Z.eqb_spec k 0); [lia |]. done.
    + destruct (witness_p2wsh _ _ _ _ _ _ h) as [r h'] eqn:Hrun.
      by apply witness_p2wsh_inv in Hrun as [? _].
  - intros r h' Hrun. apply input_script_multisig_inv in Hrun.
    cbv zeta in Hrun. rewrite Hsigs in Hrun. simpl_default.
    destruct (getitem sigs signature_index) as [s|e]; [| left; by destruct Hrun].
    destruct (slot_len s) as [n|e]; [| left; by destruct Hrun].
    destruct (0 <? n); [left; by destruct Hrun |].
    destruct (setitem sigs signature_index _) as [sigs'|e] eqn:Hset;
      [| left; by destruct Hrun].
    right. destruct Hrun as [-> _].
    by rewrite (setitem_nonneg _ _ _ _ Hidx Hset).
  - intros w h' Hrun. apply witness_p2wsh_inv in Hrun as [_ Hrun].
    rewrite Hsigs in Hrun. simpl_default.
    destruct (getitem _ signature_index) as [s|e]; [| done].
    destruct (truthy s); [done |].
    destruct (setitem _ signature_index _) as [work|e] eqn:Hset; [| done].
    destruct Hrun as [(l & Hl & Hl') _]. exists l. split; [done |].
    by rewrite <- (setitem_nonneg _ _ _ _ Hidx Hset).
Qed.

(** C9: [witness_p2wsh] leaves every list of the caller as it was, the
    signature slots of the multisig among them: it works on a list of
    its own.  A successful [input_script_multisig] has stored the
    given signature in the caller's list, at the given index. *)
Theorem witness_p2wsh_keeps_input_script_multisig_writes
    multisig signature signature_index hash_type coin h sigs :
  h !! ms_signatures multisig = Some sigs →
  (∀ r h',
     witness_p2wsh multisig_get_pubkeys multisig_get_pubkey_count
       multisig signature signature_index hash_type h = (r, h') →
     h' !! ms_signatures multisig = Some sigs ∧ h ⊆ h')
  ∧ (∀ w h',
       input_script_multisig BITCOIN_ONLY multisig_get_pubkeys
         multisig signature signature_index hash_type coin h = (Ok w, h') →
       ∃ sigs',
         setitem sigs signature_index (Some signature) = Ok sigs'
         ∧ h' = <[ms_signatures multisig := sigs']> h
         ∧ h' !! ms_signatures multisig = Some sigs').
Proof.
  intros Hsigs. split.
  - intros r h' Hrun. apply witness_p2wsh_inv in Hrun as [Hsub _].
    split; [| done]. by eapply lookup_weaken.
  - intros w h' Hrun. apply input_script_multisig_inv in Hrun.
    cbv zeta in Hrun. rewrite Hsigs in Hrun. simpl_default.
    destruct (getitem sigs signature_index) as [s|e]; [| by destruct Hrun].
    destruct (slot_len s) as [n|e]; [| by destruct Hrun].
    destruct (0 <? n); [by destruct Hrun |].
    destruct (setitem sigs signature_index _) as [sigs'|e]; [| by destruct Hrun].
    destruct Hrun as [-> _]. exists sigs'.
    split; [done |]. split; [done |]. apply lookup_insert_eq.
Qed.

End MultisigProperties.

(** The witness built for the sample 2-of-2 multisig starts with its
    item count 4 (OP_FALSE, two signatures, redeem script), not with
    0x00; OP_FALSE is the second byte. *)
Lemma p2wsh_witness_begins_with_item_count :
  ∃ rest,
    (witness_p2wsh sample_get_pubkeys sample_get_pubkey_count
       sample_multisig [x30; x44] 0 1 sample_store).1
    = Ok (x04 :: x00 :: rest)
    ∧ x04 ≠ x00.
Proof. eexists. split; [vm_compute; reflexivity | discriminate]. Qed.

Lemma op_false_in_scriptsig_and_witness_witness :
  (∃ w rest,
     (input_script_multisig false sample_get_pubkeys
        sample_multisig [x30; x44] 0 1 sample_coin sample_store).1 = Ok w
     ∧ w = x00 :: rest)
  ∧ (∃ w rest,
       (witness_p2wsh sample_get_pubkeys sample_get_pubkey_count
          sample_multisig [] 0 1 sample_store).1 = Ok w
       ∧ w = [x03] ++ x00 :: rest).
Proof.
  split.
  - destruct (op_false_in_scriptsig_and_witness false sample_get_pubkeys
                sample_get_pubkey_count sample_multisig [x30; x44] 0 1
                sample_coin sample_store) as [Hsig _].
    destruct (input_script_multisig false sample_get_pubkeys
                sample_multisig [x30; x44] 0 1 sample_coin sample_store)
      as [[w|e] h'] eqn:Hrun; [| vm_compute in Hrun; discriminate Hrun].
    destruct (Hsig w h' eq_refl eq_refl) as [rest Hrest].
    by exists w, rest.
  - destruct (op_false_in_scriptsig_and_witness false sample_get_pubkeys
                sample_get_pubkey_count sample_multisig [] 0 1
                sample_coin sample_store) as [_ Hwit].
    destruct (witness_p2wsh sample_get_pubkeys sample_get_pubkey_count
                sample_multisig [] 0 1 sample_store)
      as [[w|e] h'] eqn:Hrun; [| vm_compute in Hrun; discriminate Hrun].
    destruct (Hwit w h' eq_refl)
      as (work & count & b & tail & rest & Hset & Hcount & _ & _ & Hw).
    exists w, rest. split; [done |].
    vm_compute in Hset. injection Hset as <-.
    vm_compute in Hcount. injection Hcount as <-. exact Hw.
Defined.

Lemma filled_slot_is_rejected_witness :
  input_script_multisig false sample_get_pubkeys
    sample_multisig [x30; x44] 1 1 sample_coin sample_store
  = (Raise (DataError "Invalid multisig parameters"), sample_store)
  ∧ (witness_p2wsh sample_get_pubkeys sample_get_pubkey_count
       sample_multisig [x30; x44] 1 1 sample_store).1
    = Raise (DataError "Invalid multisig parameters").
Proof.
  destruct (filled_slot_is_rejected false sample_get_pubkeys
              sample_get_pubkey_count sample_multisig [x30; x44] 1 1
              sample_coin sample_store [Some []; Some [x30; x45]])
    as [Hfilled _].
  - reflexivity.
  - lia.
  - destruct (Hfilled [x30; x45]) as (Hin & Hwit & _).
    + reflexivity.
    + discriminate.
    + by split.
Defined.

Lemma witness_p2wsh_keeps_input_script_multisig_writes_witness :
  (witness_p2wsh sample_get_pubkeys sample_get_pubkey_count
     sample_multisig [x30; x44] 0 1 sample_store).2 !! 1%positive
  = Some [Some []; Some [x30; x45]]
  ∧ (input_script_multisig false sample_get_pubkeys
       sample_multisig [x30; x44] 0 1 sample_coin sample_store).2 !! 1%positive
    = Some [Some [x30; x44]; Some [x30; x45]].
Proof.
  destruct (witness_p2wsh_keeps_input_script_multisig_writes false
              sample_get_pubkeys sample_get_pubkey_count sample_multisig
              [x30; x44] 0 1 sample_coin sample_store
              [Some []; Some [x30; x45]] eq_refl)
    as [Hwit Hsig].
  split.
  - destruct (witness_p2wsh sample_get_pubkeys sample_get_pubkey_count
                sample_multisig [x30; x44] 0 1 sample_store) as [r h'] eqn:Hrun.
    by destruct (Hwit r h' eq_refl) as [? _].
  - destruct (input_script_multisig false sample_get_pubkeys
                sample_multisig [x30; x44] 0 1 sample_coin sample_store)
      as [[w|e] h'] eqn:Hrun; [| vm_compute in Hrun; discriminate Hrun].
    destruct (Hsig w h' eq_refl) as (sigs' & Hset & _ & Hlook).
    cbn in Hset. injection Hset as <-. exact Hlook.
Defined.

(** * Properties of the remaining builders *)

(** ** Fixed-layout scripts *)

Lemma len_eq_length {A} (l : list A) (n : nat) : len l = Z.of_nat n → length l = n.
Proof. unfold len. lia. Qed.

Lemma output_script_p2sh_layout (scripthash : bytes) :
  len scripthash = 20 →
  output_script_p2sh scripthash = Ok ([xa9; x14] ++ scripthash ++ [x87]).
Proof.
  intros H. unfold output_script_p2sh. rewrite H.
  apply (len_eq_length _ 20) in H.
  do 20 (destruct scripthash as [|? scripthash]; [discriminate H |]).
  destruct scripthash; [| discriminate H]. reflexivity.
Qed.

(** X1: for a 20-byte hash the P2PKH output script is 76 A9 14 <hash>
    88 AC and the P2SH output script is A9 14 <hash> 87; a hash of any
    other length fails the precondition of both builders. *)
Theorem output_script_p2pkh_p2sh_bytes (hash : bytes) :
  (len hash = 20 →
   output_script_p2pkh hash = Ok ([x76; xa9; x14] ++ hash ++ [x88; xac])
   ∧ output_script_p2sh hash = Ok ([xa9; x14] ++ hash ++ [x87]))
  ∧ (len hash ≠ 20 →
     output_script_p2pkh hash = Raise AssertionError
     ∧ output_script_p2sh hash = Raise AssertionError).
Proof.
  split.
  - intros H. split; [by apply output_script_p2pkh_layout |].
    by apply output_script_p2sh_layout.
  - intros H. unfold output_script_p2pkh, output_script_p2sh.
    destruct (Z.eqb_spec (len hash) 20); [done |]. done.
Qed.

Lemma output_script_p2pkh_p2sh_bytes_witness :
  output_script_p2pkh (take 20 sample_pubkey)
  = Ok ([x76; xa9; x14] ++ take 20 sample_pubkey ++ [x88; xac])
  ∧ output_script_p2sh sample_pubkey = Raise AssertionError.
Proof.
  split.
  - apply (output_script_p2pkh_p2sh_bytes (take 20 sample_pubkey)). reflexivity.
  - apply (output_script_p2pkh_p2sh_bytes sample_pubkey).
    vm_compute. discriminate.
Defined.

Lemma write_bytes_fixed_ok (w b : bytes) (n : Z) :
  len b = n → write_bytes_fixed w b n = Ok (w ++ b).
Proof. intros <-. unfold write_bytes_fixed. by rewrite Z.eqb_refl. Qed.

Lemma output_script_native_layout (witprog : bytes) :
  (len witprog = 20 →
   output_script_native_p2wpkh_or_p2wsh witprog = Ok ([x00; x14] ++ witprog))
  ∧ (len witprog = 32 →
     output_script_native_p2wpkh_or_p2wsh witprog = Ok ([x00; x20] ++ witprog)).
Proof.
  unfold output_script_native_p2wpkh_or_p2wsh, empty_bytearray. cbv zeta.
  split.
  - intros H. rewrite H.
    change (ensure ((20 =? 20) || (20 =? 32))) with (Ok tt).
    cbn [mbind result_bind]. change (append [] 0) with (Ok [x00]).
    cbn [mbind result_bind]. change (append [x00] 20) with (Ok [x00; x14]).
    cbn [mbind result_bind]. by rewrite write_bytes_fixed_ok.
  - intros H. rewrite H.
    change (ensure ((32 =? 20) || (32 =? 32))) with (Ok tt).
    cbn [mbind result_bind]. change (append [] 0) with (Ok [x00]).
    cbn [mbind result_bind]. change (append [x00] 32) with (Ok [x00; x20]).
    cbn [mbind result_bind]. by rewrite write_bytes_fixed_ok.
Qed.

(** X2: the native witness output script is 00, the length of the
    program and the program, for a program of 20 or of 32 bytes; any
    other length fails the precondition. *)
Theorem output_script_native_bytes (witprog : bytes) :
  (len witprog = 20 →
   output_script_native_p2wpkh_or_p2wsh witprog = Ok ([x00; x14] ++ witprog))
  ∧ (len witprog = 32 →
     output_script_native_p2wpkh_or_p2wsh witprog = Ok ([x00; x20] ++ witprog))
  ∧ (len witprog ≠ 20 → len witprog ≠ 32 →
     output_script_native_p2wpkh_or_p2wsh witprog = Raise AssertionError).
Proof.
  split; [apply output_script_native_layout |].
  split; [apply output_script_native_layout |].
  intros H20 H32. unfold output_script_native_p2wpkh_or_p2wsh. cbv zeta.
  destruct (Z.eqb_spec (len witprog) 20); [done |].
  destruct (Z.eqb_spec (len witprog) 32); [done |]. done.
Qed.

Lemma output_script_native_bytes_witness :
  output_script_native_p2wpkh_or_p2wsh (take 20 sample_pubkey)
  = Ok ([x00; x14] ++ take 20 sample_pubkey)
  ∧ output_script_native_p2wpkh_or_p2wsh (take 32 sample_pubkey)
    = Ok ([x00; x20] ++ take 32 sample_pubkey)
  ∧ output_script_native_p2wpkh_or_p2wsh sample_pubkey = Raise AssertionError.
Proof.
  split; [| split].
  - apply (output_script_native_bytes (take 20 sample_pubkey)). reflexivity.
  - apply (output_script_native_bytes (take 32 sample_pubkey)). reflexivity.
  - apply (output_script_native_bytes sample_pubkey); vm_compute; discriminate.
Defined.

(** X3: the scriptSig of a witness program nested in P2SH is one push
    of the native witness output script of the same hash: opcode 0x16
    before the 22 bytes of a P2WPKH program, 0x22 before the 34 bytes of
    a P2WSH program, and [read_op_push] reads that one push up to the
    end of the script.  A hash of the wrong length is an
    [AssertionError] for P2WPKH and a [DataError] for P2WSH. *)
Theorem nested_input_script_pushes_witness_program (hash : bytes) :
  (len hash = 20 →
   ∃ program,
     output_script_native_p2wpkh_or_p2wsh hash = Ok program
     ∧ input_script_p2wpkh_in_p2sh hash = Ok (x16 :: program)
     ∧ read_op_push (x16 :: program) 0 = Ok (len program, 1)
     ∧ 1 + len program = len (x16 :: program))
  ∧ (len hash = 32 →
     ∃ program,
       output_script_native_p2wpkh_or_p2wsh hash = Ok program
       ∧ input_script_p2wsh_in_p2sh hash = Ok (x22 :: program)
       ∧ read_op_push (x22 :: program) 0 = Ok (len program, 1)
       ∧ 1 + len program = len (x22 :: program))
  ∧ (len hash ≠ 20 → input_script_p2wpkh_in_p2sh hash = Raise AssertionError)
  ∧ (len hash ≠ 32 →
     input_script_p2wsh_in_p2sh hash
     = Raise (DataError "Redeem script hash should be 32 bytes long")).
Proof.
  split; [| split; [| split]].
  - intros H. exists ([x00; x14] ++ hash).
    split; [by apply output_script_native_layout |].
    split.
    { unfold input_script_p2wpkh_in_p2sh, empty_bytearray. rewrite H.
      change (ensure (20 =? 20)) with (Ok tt). cbn [mbind result_bind].
      change (append [] 22) with (Ok [x16]). cbn [mbind result_bind].
      change (append [x16] 0) with (Ok [x16; x00]). cbn [mbind result_bind].
      change (append [x16; x00] 20) with (Ok [x16; x00; x14]).
      cbn [mbind result_bind]. by rewrite write_bytes_fixed_ok. }
    split; [| by len_simpl].
    unfold read_op_push. rewrite byte_at_0. cbn [app]. len_simpl. rewrite H.
    reflexivity.
  - intros H. exists ([x00; x20] ++ hash).
    split; [by apply output_script_native_layout |].
    split.
    { unfold input_script_p2wsh_in_p2sh, empty_bytearray. rewrite H.
      change (negb (32 =? 32)) with false. cbv iota.
      change (append [] 34) with (Ok [x22]). cbn [mbind result_bind].
      change (append [x22] 0) with (Ok [x22; x00]). cbn [mbind result_bind].
      change (append [x22; x00] 32) with (Ok [x22; x00; x20]).
      cbn [mbind result_bind]. by rewrite write_bytes_fixed_ok. }
    split; [| by len_simpl].
    unfold read_op_push. rewrite byte_at_0. cbn [app]. len_simpl. rewrite H.
    reflexivity.
  - intros H. unfold input_script_p2wpkh_in_p2sh.
    by destruct (Z.eqb_spec (len hash) 20).
  - intros H. unfold input_script_p2wsh_in_p2sh.
    by destruct (Z.eqb_spec (len hash) 32).
Qed.

Lemma nested_input_script_pushes_witness_program_witness :
  input_script_p2wpkh_in_p2sh sample_pubkey = Raise AssertionError
  ∧ input_script_p2wsh_in_p2sh sample_pubkey
    = Raise (DataError "Redeem script hash should be 32 bytes long")
  ∧ ∃ program,
      output_script_native_p2wpkh_or_p2wsh (take 20 sample_pubkey) = Ok program
      ∧ input_script_p2wpkh_in_p2sh (take 20 sample_pubkey) = Ok (x16 :: program)
      ∧ read_op_push (x16 :: program) 0 = Ok (len program, 1)
      ∧ 1 + len program = len (x16 :: program).
Proof.
  split; [| split].
  - apply (nested_input_script_pushes_witness_program sample_pubkey).
    vm_compute. discriminate.
  - apply (nested_input_script_pushes_witness_program sample_pubkey).
    vm_compute. discriminate.
  - apply (nested_input_script_pushes_witness_program (take 20 sample_pubkey)).
    reflexivity.
Defined.

(** X4: an OP_RETURN output script is 0x6A followed by one push of the
    data: for data of up to 0xFFFFFFFF bytes, [read_op_push] at offset 1
    reads the length of the data, the data follow, and the push ends
    where the script ends. *)
Theorem output_script_paytoopreturn_push (data : bytes) :
  len data ≤ 0xFFFFFFFF →
  ∃ script offset,
    output_script_paytoopreturn data = Ok script
    ∧ byte_at script 0 = Ok 0x6A
    ∧ read_op_push script 1 = Ok (len data, offset)
    ∧ slice script offset (offset + len data) = data
    ∧ offset + len data = len script.
Proof.
  intros H. pose proof (len_nonneg data).
  destruct (write_read_op_push [x6a] (len data)) as (pre & Hw & Hpre & Hr); [lia |].
  exists ([x6a] ++ pre ++ data), (1 + len pre).
  split.
  { unfold output_script_paytoopreturn, empty_bytearray.
    change (append [] 106) with (Ok [x6a]). cbn [mbind result_bind].
    rewrite Hw. cbn [mbind result_bind]. by rewrite <- app_assoc. }
  split; [done |].
  split; [apply Hr |].
  split.
  - rewrite app_assoc.
    replace (1 + len pre) with (len ([x6a] ++ pre)) by (len_simpl; lia).
    rewrite <- (app_nil_r data) at 1. apply slice_mid.
  - len_simpl. lia.
Qed.

Lemma output_script_paytoopreturn_push_witness :
  ∃ script offset,
    output_script_paytoopreturn sample_pubkey = Ok script
    ∧ byte_at script 0 = Ok 0x6A
    ∧ read_op_push script 1 = Ok (len sample_pubkey, offset)
    ∧ slice script offset (offset + len sample_pubkey) = sample_pubkey
    ∧ offset + len sample_pubkey = len script.
Proof.
  apply (output_script_paytoopreturn_push sample_pubkey).
  vm_compute. discriminate.
Defined.

(** ** Script code of a single key *)

(** X5: for a single compressed public key (33 bytes, first byte
    neither 0x04 nor 0x00), a 20-byte script hash and one of the script
    types SPENDWITNESS, SPENDP2SHWITNESS, SPENDADDRESS and EXTERNAL, the
    BIP-143 script code is 76 A9 14 <script hash of the key> 88 AC,
    whatever the threshold. *)
Theorem bip143_derive_script_code_single_key
    (txi : TxInputType) (pubkey : bytes) (b0 threshold : Z) (coin : CoinInfo) :
  txi_script_type txi ≠ SPENDMULTISIG →
  len pubkey = 33 →
  byte_at pubkey 0 = Ok b0 → b0 ≠ 0x04 → b0 ≠ 0x00 →
  len (script_hash coin pubkey) = 20 →
  bip143_derive_script_code txi [pubkey] threshold coin
  = Ok ([x76; xa9; x14] ++ script_hash coin pubkey ++ [x88; xac]).
Proof.
  intros Hty Hlen Hb0 H4 H0 Hhash. unfold bip143_derive_script_code.
  change (1 <? len [pubkey]) with false. cbv iota zeta.
  assert (bool_decide (txi_script_type txi = SPENDWITNESS)
          || bool_decide (txi_script_type txi = SPENDP2SHWITNESS)
          || bool_decide (txi_script_type txi = SPENDADDRESS)
          || bool_decide (txi_script_type txi = EXTERNAL) = true) as ->.
  { by destruct (txi_script_type txi). }
  change (getitem [pubkey] 0) with (Ok pubkey). cbn [mbind result_bind].
  unfold ecdsa_hash_pubkey. rewrite Hb0. cbn [mbind result_bind].
  destruct (Z.eqb_spec b0 4); [done |].
  destruct (Z.eqb_spec b0 0); [done |].
  rewrite Hlen. change (ensure (33 =? 33)) with (Ok tt).
  cbn [mbind result_bind]. by apply output_script_p2pkh_layout.
Qed.

Lemma bip143_derive_script_code_single_key_witness :
  bip143_derive_script_code {| txi_script_type := EXTERNAL |}
    [sample_pubkey] 7 sample_coin
  = Ok ([x76; xa9; x14] ++ script_hash sample_coin sample_pubkey ++ [x88; xac]).
Proof.
  apply (bip143_derive_script_code_single_key
           {| txi_script_type := EXTERNAL |} sample_pubkey 2 7 sample_coin).
  - discriminate.
  - reflexivity.
  - reflexivity.
  - discriminate.
  - discriminate.
  - reflexivity.
Defined.

(** ** Signature verification *)

Section EcdsaProperties.
Variable der_decode_seq : bytes → result (list bytes).
Variable secp256k1_verify : bytes → bytes → bytes → bool.

(** X6: [ecdsa_verify] hands to the curve a signature of exactly 64
    bytes: the two integers of the DER sequence, each padded with zero
    bytes on the left to 32 bytes.  A sequence that does not hold
    exactly two integers, or holds an integer of more than 32 bytes, is
    a [ValueError], and an exception of the DER decoder is passed on. *)
Theorem ecdsa_verify_pads_to_64_bytes (public_key der_signature digest : bytes) :
  (∀ r s,
     der_decode_seq der_signature = Ok [r; s] → len r ≤ 32 → len s ≤ 32 →
     let signature :=
       replicate (Z.to_nat (32 - len r)) x00 ++ r
       ++ replicate (Z.to_nat (32 - len s)) x00 ++ s in
     len signature = 64
     ∧ ecdsa_verify der_decode_seq secp256k1_verify public_key der_signature digest
       = Ok (secp256k1_verify public_key signature digest))
  ∧ (∀ seq,
       der_decode_seq der_signature = Ok seq →
       len seq ≠ 2 ∨ Exists (λ i, 32 < len i) seq →
       ecdsa_verify der_decode_seq secp256k1_verify public_key der_signature digest
       = Raise ValueError)
  ∧ (∀ e,
       der_decode_seq der_signature = Raise e →
       ecdsa_verify der_decode_seq secp256k1_verify public_key der_signature digest
       = Raise e).
Proof.
  split; [| split].
  - intros r s Hseq Hr Hs. cbv zeta.
    pose proof (len_nonneg r). pose proof (len_nonneg s).
    split.
    { len_simpl. unfold len. rewrite !length_replicate. unfold len in *. lia. }
    unfold ecdsa_verify. rewrite Hseq. cbn [mbind result_bind].
    change (len [r; s] =? 2) with true. cbn [negb orb existsb].
    destruct (Z.ltb_spec 32 (len r)); [lia |].
    destruct (Z.ltb_spec 32 (len s)); [lia |]. cbn [orb]. cbv zeta.
    change (getitem [r; s] 0) with (Ok r).
    change (getitem [r; s] 1) with (Ok s). cbn [mbind result_bind].
    do 3 f_equal.
    unfold setslice, bytearray, clamp.
    assert (∀ (k : nat) (l : bytes), len (replicate k x00 ++ l) = Z.of_nat k + len l)
      as Hrep.
    { intros k l. len_simpl. unfold len. rewrite length_replicate. lia. }
    change (len (replicate (Z.to_nat 64) x00)) with 64.
    destruct (Z.ltb_spec (32 - len r) 0); [lia |].
    rewrite (Z.min_l (32 - len r) 64) by lia.
    change (32 <? 0) with false. cbv iota. change (Z.min 32 64) with 32.
    rewrite (Z.max_r (32 - len r) 32) by lia.
    rewrite take_replicate, drop_replicate.
    replace (Z.to_nat (32 - len r) `min` Z.to_nat 64)%nat
      with (Z.to_nat (32 - len r)) by lia.
    change (Z.to_nat 64 - Z.to_nat 32)%nat with 32%nat.
    set (left := replicate (Z.to_nat (32 - len r)) x00 ++ r).
    assert (length left = 32%nat) as Hleft.
    { unfold left. rewrite length_app, length_replicate. unfold len in *. lia. }
    rewrite (app_assoc _ r).
    fold left.
    assert (len (left ++ replicate 32 x00) = 64) as ->.
    { unfold len. rewrite length_app, length_replicate, Hleft. done. }
    destruct (Z.ltb_spec (64 - len s) 0); [lia |].
    rewrite (Z.min_l (64 - len s) 64) by lia.
    change (64 <? 0) with false. cbv iota. change (Z.min 64 64) with 64.
    rewrite (Z.max_r (64 - len s) 64) by lia.
    rewrite drop_ge by (rewrite length_app, length_replicate, Hleft; lia).
    rewrite app_nil_r.
    rewrite take_app_ge by lia. rewrite Hleft.
    rewrite take_replicate.
    replace ((Z.to_nat (64 - len s) - 32) `min` 32)%nat
      with (Z.to_nat (32 - len s)) by lia.
    unfold left. by rewrite <- !app_assoc.
  - intros seq Hseq Hbad. unfold ecdsa_verify. rewrite Hseq.
    cbn [mbind result_bind].
    assert (negb (len seq =? 2) || existsb (λ i, 32 <? len i) seq = true) as ->;
      [| done].
    destruct Hbad as [Hlen | Hbig].
    + destruct (Z.eqb_spec (len seq) 2); [done |]. done.
    + apply orb_true_iff. right. apply existsb_exists.
      apply Exists_exists in Hbig as (i & Hin & Hi).
      exists i. split; [by apply list_elem_of_In |]. by apply Z.ltb_lt.
  - intros e Hseq. unfold ecdsa_verify. by rewrite Hseq.
Qed.

End EcdsaProperties.

Lemma ecdsa_verify_pads_to_64_bytes_witness :
  ecdsa_verify (λ _, Ok [[x01; x02]; [x03]]) (λ _ signature _, bool_decide (len signature = 64))
    sample_pubkey [] []
  = Ok true.
Proof.
  refine (proj2 (proj1 (ecdsa_verify_pads_to_64_bytes
            (λ _, Ok [[x01; x02]; [x03]])
            (λ _ signature _, bool_decide (len signature = 64))
            sample_pubkey [] []) [x01; x02] [x03] eq_refl _ _)).
  - vm_compute. discriminate.
  - vm_compute. discriminate.
Defined.

(** ** Progress of signing *)

Module ProgressProperties.
Import Progress.

Lemma advances_drawn (k : nat) (s : state) :
  _steps s ≠ 0 →
  advances false k s
  = Return {| _progress := _progress s + Z.of_nat k;
              _steps := _steps s;
              drawn := drawn s
                       ++ ((λ j : nat,
                              loader (1000 * (_progress s + Z.of_nat j) / _steps s))
                           <$> seq 1 k) |}.
Proof.
  revert s. induction k as [|k IH]; intros s Hs.
  - cbn. destruct s. cbn. by rewrite Z.add_0_r, app_nil_r.
  - cbn [advances]. unfold advance, report. cbn [_steps _progress drawn].
    destruct (Z.eqb_spec (_steps s) 0); [done |]. cbn [and_then].
    rewrite IH by done. cbn [_steps _progress drawn].
    replace (_progress s + 1 + Z.of_nat k) with (_progress s + Z.of_nat (S k)) by lia.
    do 2 f_equal.
    rewrite <- app_assoc. f_equal. cbn [seq fmap list_fmap app].
    f_equal.
    rewrite <- (fmap_S_seq 1 k), <- list_fmap_compose.
    apply list_fmap_ext. intros _ j _. cbn. do 3 f_equal. lia.
Qed.

(** X7: with the animation on and a positive number of steps,
    [init(inputs, outputs)] followed by k calls of [advance()] leaves
    the counter at k of 3*inputs + outputs steps, and has drawn the
    header and then the loader at 1000*j // steps for j = 0, ..., k, in
    this order.  As long as k does not exceed the number of steps every
    value drawn lies in [0, 1000], and the value drawn at the last step
    is 1000. *)
Theorem progress_after_advances (inputs outputs : Z) (k : nat) (s : state) :
  let steps := inputs + inputs + outputs + inputs in
  0 < steps → Z.of_nat k ≤ steps →
  and_then (init false inputs outputs s) (advances false k)
  = Return {| _progress := Z.of_nat k;
              _steps := steps;
              drawn := drawn s ++ [clear; header "Signing transaction"]
                       ++ ((λ j : nat, loader (1000 * Z.of_nat j / steps))
                           <$> seq 0 (S k)) |}
  ∧ (∀ j : nat, (j ≤ k)%nat → 0 ≤ 1000 * Z.of_nat j / steps ≤ 1000)
  ∧ 1000 * steps / steps = 1000.
Proof.
  intros steps Hsteps Hk. split; [| split].
  - unfold init, report_init, report. cbn [and_then _steps _progress drawn].
    fold steps. destruct (Z.eqb_spec steps 0); [lia |]. cbn [and_then].
    rewrite advances_drawn by (cbn; lia). cbn [_steps _progress drawn].
    f_equal. f_equal. rewrite <- !app_assoc. f_equal.
  - intros j Hj. split.
    + apply Z.div_pos; lia.
    + apply Z.div_le_upper_bound; lia.
  - apply Z.div_mul. lia.
Qed.

Lemma progress_after_advances_witness :
  and_then (init false 1 1 {| _progress := 7; _steps := 0; drawn := [] |})
    (advances false 4)
  = Return {| _progress := 4; _steps := 4;
              drawn := [clear; header "Signing transaction"; loader 0;
                        loader 250; loader 500; loader 750; loader 1000] |}.
Proof.
  refine (proj1 (progress_after_advances 1 1 4
                   {| _progress := 7; _steps := 0; drawn := [] |} _ _)).
  - vm_compute. reflexivity.
  - vm_compute. discriminate.
Defined.

(** X8: when 3*inputs + outputs is zero, [init] raises
    [ZeroDivisionError] in [report], after the counters were reset and
    the header was drawn; no loader is drawn.  With the animation
    disabled [init] and [advance] never raise and never draw the
    loader. *)
Theorem progress_zero_steps (inputs outputs : Z) (k : nat) (s : state) :
  (inputs + inputs + outputs + inputs = 0 →
   init false inputs outputs s
   = ZeroDivisionError
       {| _progress := 0; _steps := 0;
          drawn := drawn s ++ [clear; header "Signing transaction"] |})
  ∧ and_then (init true inputs outputs s) (advances true k)
    = Return {| _progress := Z.of_nat k;
                _steps := inputs + inputs + outputs + inputs;
                drawn := drawn s ++ [clear; header "Signing transaction"] |}.
Proof.
  split.
  - intros H. unfold init, report_init, report.
    cbn [and_then _steps _progress drawn]. by rewrite H.
  - unfold init, report_init, report. cbn [and_then _steps _progress drawn].
    generalize (drawn s ++ [clear; header "Signing transaction"]).
    generalize (inputs + inputs + outputs + inputs). intros steps d.
    replace (Z.of_nat k) with (0 + Z.of_nat k) by lia.
    generalize 0. induction k as [|k IH]; intros p.
    + cbn. by rewrite Z.add_0_r.
    + cbn [advances]. unfold advance, report. cbn [and_then _steps _progress drawn].
      rewrite IH. do 2 f_equal. lia.
Qed.

Lemma progress_zero_steps_witness :
  init false 0 0 {| _progress := 3; _steps := 9; drawn := [] |}
  = ZeroDivisionError
      {| _progress := 0; _steps := 0;
         drawn := [clear; header "Signing transaction"] |}.
Proof.
  apply (progress_zero_steps 0 0 0 {| _progress := 3; _steps := 9; drawn := [] |}).
  reflexivity.
Defined.

End ProgressProperties.

(** ** CoinJoin authorization: what is asked and what is installed *)

Section AuthorizeCoinJoinOutcome.
Context {Keychain Authorization : Type}.
Variable BIP32_WALLET_DEPTH : Z.
Variable validate_path :
  Keychain → list Z → str → CoinInfo → InputScriptType → result unit.
Variable require_confirm : Text → result unit.
Variable require_hold_to_confirm : Text → result unit.
Variable format_amount : Z → Z → str.
Variable set_coinjoin_authorization : AuthorizeCoinJoin → CoinInfo → Authorization.

(** X9: [authorize_coinjoin] installs the authorization only when it
    returns Success, and then the path validator, the confirmation
    showing the coordinator name and the hold-to-confirm were asked, in
    this order and each with a positive answer.  When it raises, the
    authorization of the session is the one from before the call, and
    nothing is asked after the request that failed. *)
Theorem authorize_coinjoin_outcome
    (msg : AuthorizeCoinJoin) (keychain : Keychain) (coin : CoinInfo)
    (s s' : session Authorization) (r : result Success) :
  authorize_coinjoin BIP32_WALLET_DEPTH validate_path require_confirm
    require_hold_to_confirm format_amount set_coinjoin_authorization
    msg keychain coin s = (r, s') →
  let path := address_n msg ++ replicate (Z.to_nat BIP32_WALLET_DEPTH) 0 in
  (r = Ok SuccessMessage →
   coinjoin_authorization s' = Some (set_coinjoin_authorization msg coin)
   ∧ ∃ text text',
       requests s'
       = requests s
         ++ [validate_path_request path (curve_name coin) (acj_script_type msg);
             require_confirm_request text;
             require_hold_to_confirm_request text']
       ∧ last (lines text) = Some (mono_bold (coordinator msg))
       ∧ validate_path keychain path (curve_name coin) coin (acj_script_type msg)
         = Ok tt
       ∧ require_confirm text = Ok tt
       ∧ require_hold_to_confirm text' = Ok tt)
  ∧ (∀ e, r = Raise e →
       coinjoin_authorization s' = coinjoin_authorization s
       ∧ ∃ asked, requests s' = requests s ++ asked
                  ∧ (length asked ≤ 3)%nat
                  ∧ (e = DataError "Invalid coordinator name." ∧ asked = []
                     ∨ ∃ before answer,
                         asked = before ++ [answer]
                         ∧ match answer with
                           | validate_path_request p c t =>
                               validate_path keychain p c coin t = Raise e
                           | require_confirm_request text =>
                               require_confirm text = Raise e
                           | require_hold_to_confirm_request text =>
                               require_hold_to_confirm text = Raise e
                           end)).
Proof.
  unfold authorize_coinjoin. cbv zeta.
  destruct (_ || _).
  { intros [= <- <-]. split; [done |]. intros e [= <-]. split; [done |].
    exists []. rewrite app_nil_r. split; [done |]. split; [cbn; lia |]. by left. }
  unfold mbind, stateM_bind, ask, set_global, mret, stateM_ret.
  cbn [requests coinjoin_authorization].
  destruct (validate_path _ _ _ _ _) as [[]|e1] eqn:Hv.
  2:{ intros [= <- <-]. split; [done |]. intros e [= <-].
      cbn [requests coinjoin_authorization]. split; [done |].
      eexists. split; [done |]. split; [cbn; lia |]. right.
      eexists [], _. split; [done |]. exact Hv. }
  destruct (require_confirm _) as [[]|e2] eqn:Hc.
  2:{ intros [= <- <-]. split; [done |]. intros e [= <-].
      cbn [requests coinjoin_authorization]. split; [done |].
      eexists. split; [by rewrite <- app_assoc |]. split; [cbn; lia |]. right.
      eexists [_], _. split; [done |]. exact Hc. }
  destruct (require_hold_to_confirm _) as [[]|e3] eqn:Hh.
  2:{ intros [= <- <-]. split; [done |]. intros e [= <-].
      cbn [requests coinjoin_authorization]. split; [done |].
      eexists. split; [by rewrite <- !app_assoc |]. split; [cbn; lia |]. right.
      eexists [_; _], _. split; [done |]. exact Hh. }
  intros [= <- <-]. split; [| done]. intros _.
  cbn [requests coinjoin_authorization]. split; [done |].
  eexists _, _. split; [by rewrite <- !app_assoc |].
  split; [done |]. split; [done |]. split; [exact Hc | exact Hh].
Qed.

End AuthorizeCoinJoinOutcome.

Lemma authorize_coinjoin_outcome_witness :
  coinjoin_authorization
    (authorize_coinjoin (Keychain := unit) (Authorization := AuthorizeCoinJoin)
       2 (λ _ _ _ _ _, Ok tt) (λ _, Raise (ProcessError "cancelled")) (λ _, Ok tt)
       (λ _ _, []) (λ msg _, msg) sample_authorize tt sample_coin
       {| requests := []; coinjoin_authorization := Some sample_authorize_empty |}).2
  = Some sample_authorize_empty.
Proof.
  destruct (authorize_coinjoin (Keychain := unit) (Authorization := AuthorizeCoinJoin)
       2 (λ _ _ _ _ _, Ok tt) (λ _, Raise (ProcessError "cancelled")) (λ _, Ok tt)
       (λ _ _, []) (λ msg _, msg) sample_authorize tt sample_coin
       {| requests := []; coinjoin_authorization := Some sample_authorize_empty |})
    as [r s'] eqn:Hrun.
  destruct (authorize_coinjoin_outcome _ _ _ _ _ _ _ _ _ _ _ _ Hrun) as [_ Hfail].
  destruct r as [?|e]; [vm_compute in Hrun; discriminate Hrun |].
  destruct (Hfail e eq_refl) as [Hauth _]. exact Hauth.
Defined.

(** ** What the readers accept *)

Lemma byte_at_out_of_range (data : bytes) (k : Z) :
  len data ≤ k → byte_at data k = Raise IndexError.
Proof.
  intros H. pose proof (len_nonneg data). unfold byte_at, getitem. zcmp.
  rewrite (proj2 (lookup_ge_None data (Z.to_nat k))); [done |].
  unfold len in *. lia.
Qed.

Lemma shiftl_byte (v : Z) (k : Z) : 0 ≤ k → Z.shiftl v k = v * 2 ^ k.
Proof. intros. by apply Z.shiftl_mul_pow2. Qed.

(** X10: a successful [read_op_push] at an offset inside the buffer
    returns a length in [0, 2^32) and an offset that lies 1 to 5 bytes
    further and still inside the buffer.  An offset at or beyond the end
    raises [IndexError], and an opcode above 0x4E raises [DataError]. *)
Theorem read_op_push_range (data : bytes) (k : Z) :
  0 ≤ k →
  (∀ n o, read_op_push data k = Ok (n, o) →
          0 ≤ n < 2 ^ 32 ∧ k + 1 ≤ o ≤ k + 5 ∧ o ≤ len data)
  ∧ (len data ≤ k → read_op_push data k = Raise IndexError)
  ∧ (∀ opcode, byte_at data k = Ok opcode → 0x4E < opcode →
               read_op_push data k = Raise (DataError "Invalid OP_PUSH")).
Proof.
  intros Hk. split; [| split].
  - intros n o H. unfold read_op_push in H. cbv zeta in H.
    split_reads data H; try discriminate H; injection H as <- <-;
      repeat match goal with
             | E : byte_at data ?i = Ok ?v |- _ =>
                 apply byte_at_Ok in E; [| lia]
             | C : (_ <? _) = true |- _ => apply Z.ltb_lt in C
             end;
      rewrite ?shiftl_byte by lia;
      change (2 ^ 8) with 256; change (2 ^ 16) with 65536;
      change (2 ^ 24) with 16777216; change (2 ^ 32) with 4294967296; lia.
  - intros H. unfold read_op_push. by rewrite (byte_at_out_of_range data k).
  - intros opcode Hop Hbig. unfold read_op_push. rewrite Hop.
    cbn [mbind result_bind]. cbv zeta. by zcmp.
Qed.

Lemma read_op_push_range_witness :
  read_op_push [x4c; x05] 2 = Raise IndexError
  ∧ read_op_push [x4f; x05] 0 = Raise (DataError "Invalid OP_PUSH").
Proof.
  split.
  - apply (read_op_push_range [x4c; x05] 2); [lia |]. vm_compute. discriminate.
  - apply (read_op_push_range [x4f; x05] 0 ltac:(lia)) with (opcode := 0x4F);
      [reflexivity | reflexivity].
Defined.

(** X11: a successful [read_bitcoin_varint] at an offset inside the
    buffer returns a value in [0, 2^32) and an offset that lies 1, 3 or
    5 bytes further and still inside the buffer.  An offset at or beyond
    the end raises [IndexError], and the prefix 0xFF of a 64-bit value
    raises [DataError]. *)
Theorem read_bitcoin_varint_range (data : bytes) (k : Z) :
  0 ≤ k →
  (∀ n o, read_bitcoin_varint data k = Ok (n, o) →
          0 ≤ n < 2 ^ 32 ∧ (o = k + 1 ∨ o = k + 3 ∨ o = k + 5) ∧ o ≤ len data)
  ∧ (len data ≤ k → read_bitcoin_varint data k = Raise IndexError)
  ∧ (byte_at data k = Ok 0xFF →
     read_bitcoin_varint data k = Raise (DataError "Invalid VarInt")).
Proof.
  intros Hk. split; [| split].
  - intros n o H. unfold read_bitcoin_varint in H. cbv zeta in H.
    split_reads data H; try discriminate H; injection H as <- <-;
      repeat match goal with
             | E : byte_at data ?i = Ok ?v |- _ =>
                 apply byte_at_Ok in E; [| lia]
             | C : (_ <? _) = true |- _ => apply Z.ltb_lt in C
             end;
      rewrite ?shiftl_byte by lia;
      change (2 ^ 8) with 256; change (2 ^ 16) with 65536;
      change (2 ^ 24) with 16777216; change (2 ^ 32) with 4294967296; lia.
  - intros H. unfold read_bitcoin_varint.
    by rewrite (byte_at_out_of_range data k).
  - intros Hop. unfold read_bitcoin_varint. by rewrite Hop.
Qed.

Lemma read_bitcoin_varint_range_witness :
  read_bitcoin_varint [xfd; x05] 2 = Raise IndexError
  ∧ read_bitcoin_varint [xff; x05] 0 = Raise (DataError "Invalid VarInt").
Proof.
  split.
  - apply (read_bitcoin_varint_range [xfd; x05] 2); [lia |].
    vm_compute. discriminate.
  - apply (read_bitcoin_varint_range [xff; x05] 0); [lia | reflexivity].
Defined.

(** ** Signatures of a P2WSH witness *)

Lemma read_witness_p2wsh_loop_count (witness : bytes) (k : nat) (offset : Z)
    (acc : list (bytes * Z)) (st : Z * list (bytes * Z)) :
  for_range_nat k (read_witness_p2wsh_step witness) (offset, acc) = Ok st →
  ∃ new, st.2 = acc ++ new ∧ length new = k
         ∧ Forall (λ x : bytes * Z, 0 ≤ x.2 ≤ 255) new.
Proof.
  revert offset acc. induction k as [|k IH]; intros offset acc H.
  - cbn in H. injection H as <-. exists []. by rewrite app_nil_r.
  - cbn [for_range_nat] in H.
    apply result_bind_Ok in H as ([o1 acc1] & Hstep & H).
    unfold read_witness_p2wsh_step in Hstep.
    apply result_bind_Ok in Hstep as ([n o] & _ & Hstep).
    apply result_bind_Ok in Hstep as (h & Hh & Hstep).
    injection Hstep as <- <-.
    apply IH in H as (new & -> & Hlen & Hall).
    exists ((slice witness o (o + n - 1), h) :: new).
    split; [by rewrite <- app_assoc |]. split; [cbn; lia |].
    constructor; [| done]. cbn. unfold byte_at in Hh.
    apply result_fmap_Ok in Hh as (b & _ & ->). apply int_of_byte_range.
Qed.

(** X12: when [read_witness_p2wsh] accepts a witness whose leading
    varint is N, it returns N - 2 signatures, none for N below 2, and
    every signature hash type it returns is a byte value. *)
Theorem read_witness_p2wsh_signature_count
    (witness script : bytes) (signatures : list (bytes * Z)) :
  read_witness_p2wsh witness = Ok (script, signatures) →
  ∃ item_count offset,
    read_bitcoin_varint witness 0 = Ok (item_count, offset)
    ∧ len signatures = Z.max 0 (item_count - 2)
    ∧ Forall (λ x : bytes * Z, 0 ≤ x.2 ≤ 255) signatures.
Proof.
  unfold read_witness_p2wsh. intros H.
  apply result_bind_Ok in H as ([N o] & HN & H).
  apply result_bind_Ok in H as (b & _ & H).
  destruct (negb (b =? 0)); [done |]. cbv zeta in H.
  apply result_bind_Ok in H as ([o1 sigs] & Hloop & H).
  apply result_bind_Ok in H as ([n2 o2] & _ & H).
  destruct (negb (o2 + n2 =? len witness)); [done |].
  injection H as <- <-.
  apply read_witness_p2wsh_loop_count in Hloop as (new & Hnew & Hlen & Hall).
  cbn in Hnew. subst sigs. exists N, o. split; [done |].
  split; [unfold len; lia | done].
Qed.

Lemma read_witness_p2wsh_signature_count_witness :
  ∃ item_count offset,
    read_bitcoin_varint [x03; x00; x02; x30; x01; x01; xaa] 0
    = Ok (item_count, offset)
    ∧ len [([x30], 1)] = Z.max 0 (item_count - 2)
    ∧ Forall (λ x : bytes * Z, 0 ≤ x.2 ≤ 255) [([x30], 1)].
Proof.
  apply (read_witness_p2wsh_signature_count
           [x03; x00; x02; x30; x01; x01; xaa] [xaa] [([x30], 1)]).
  reflexivity.
Defined.

(** ** Varint framing and the P2WPKH witness *)

Lemma read_bitcoin_varint_app_r (a l : bytes) (k : Z) :
  0 ≤ k →
  read_bitcoin_varint (a ++ l) (len a + k) =
  (λ '(n, offset), (n, len a + offset)) <$> read_bitcoin_varint l k.
Proof.
  intros Hk. unfold read_bitcoin_varint.
  rewrite byte_at_app_r by done.
  destruct (byte_at l k) as [prefix|e]; [| done]. cbn. cbv zeta.
  rewrite <- !Z.add_assoc. rewrite !byte_at_app_r by lia.
  repeat (match goal with
          | |- context [byte_at l ?x] => destruct (byte_at l x); cbn
          | |- context [if ?c then _ else _] => destruct c; cbn
          end); try done; f_equal; f_equal; lia.
Qed.

(** The bytes of a varint below 2^32, and reading them back. *)
Lemma varint_roundtrip (n : Z) :
  0 ≤ n ≤ 0xFFFFFFFF →
  ∃ pre, (∀ w, write_bitcoin_varint w n = Ok (w ++ pre))
         ∧ 1 ≤ len pre ≤ 5
         ∧ ∀ rest, read_bitcoin_varint (pre ++ rest) 0 = Ok (n, len pre).
Proof.
  intros Hn. unfold write_bitcoin_varint.
  pose proof (land_ff_range n) as R0.
  pose proof (land_ff_range (Z.shiftr n 8)) as R1.
  pose proof (land_ff_range (Z.shiftr n 16)) as R2.
  pose proof (land_ff_range (Z.shiftr n 24)) as R3.
  destruct (byte_of_int_ok _ R0) as (b0 & E0 & V0).
  destruct (byte_of_int_ok _ R1) as (b1 & E1 & V1).
  destruct (byte_of_int_ok _ R2) as (b2 & E2 & V2).
  destruct (byte_of_int_ok _ R3) as (b3 & E3 & V3).
  destruct (Z.ltb_spec n 253) as [Ha|Ha].
  { destruct (byte_of_int_ok n ltac:(lia)) as (b & E & V).
    exists [b]. split; [| split; [done |]].
    - intros w. unfold append. by rewrite E.
    - intros rest. unfold read_bitcoin_varint. cbn [app]. rewrite byte_at_0.
      cbn [mbind result_bind]. rewrite V.
      destruct (Z.ltb_spec n 253); [done | lia]. }
  destruct (Z.leb_spec n 0xFFFF) as [Hc|Hc].
  { exists [xfd; b0; b1]. split; [| split; [done |]].
    - intros w. unfold append. cbn. rewrite E0. cbn. rewrite E1. cbn.
      by rewrite <- !app_assoc.
    - intros rest. unfold read_bitcoin_varint. read_front xfd. rewrite V0, V1.
      by rewrite le16_decode by lia. }
  destruct (Z.leb_spec n 0xFFFFFFFF) as [Hd|Hd]; [| lia].
  exists [xfe; b0; b1; b2; b3]. split; [| split; [done |]].
  - intros w. unfold append. cbn. rewrite E0. cbn. rewrite E1. cbn.
    rewrite E2. cbn. rewrite E3. cbn. by rewrite <- !app_assoc.
  - intros rest. unfold read_bitcoin_varint. read_front xfe.
    rewrite V0, V1, V2, V3. by rewrite le32_decode by lia.
Qed.

Lemma read_bitcoin_varint_at (a pre rest : bytes) (n : Z) :
  (∀ rest, read_bitcoin_varint (pre ++ rest) 0 = Ok (n, len pre)) →
  read_bitcoin_varint (a ++ pre ++ rest) (len a) = Ok (n, len a + len pre).
Proof.
  intros Hr. replace (len a) with (len a + 0) at 1 by lia.
  rewrite read_bitcoin_varint_app_r by lia. by rewrite Hr.
Qed.

Lemma read_op_push_at (a pre rest : bytes) (n : Z) :
  (∀ rest, read_op_push (pre ++ rest) 0 = Ok (n, len pre)) →
  read_op_push (a ++ pre ++ rest) (len a) = Ok (n, len a + len pre).
Proof.
  intros Hr. replace (len a) with (len a + 0) at 1 by lia.
  rewrite read_op_push_app_r by lia. by rewrite Hr.
Qed.

(** A signature with its hash type behind a length field. *)
Lemma write_signature_prefixed_layout (S : bytes) (H : Z) :
  0 ≤ H ≤ 255 → len S + 1 ≤ 0xFFFFFFFF →
  ∃ pre bH,
    (∀ w, write_signature_prefixed w S H = Ok (w ++ pre ++ S ++ [bH]))
    ∧ int_of_byte bH = H
    ∧ ∀ rest, read_bitcoin_varint (pre ++ rest) 0 = Ok (len S + 1, len pre).
Proof.
  intros HH HS. pose proof (len_nonneg S).
  destruct (varint_roundtrip (len S + 1)) as (pre & Hw & _ & Hr); [lia |].
  destruct (byte_of_int_ok H HH) as (bH & EH & VH).
  exists pre, bH. split; [| done]. intros w.
  unfold write_signature_prefixed. rewrite Hw. cbn [mbind result_bind].
  unfold write_bytes_unchecked, append. rewrite EH. cbn.
  by rewrite <- !app_assoc.
Qed.

Lemma append_signature_layout (S : bytes) (H : Z) :
  0 ≤ H ≤ 255 → len S + 1 ≤ 0xFFFFFFFF →
  ∃ pre bH,
    (∀ w, append_signature w S H = Ok (w ++ pre ++ S ++ [bH]))
    ∧ int_of_byte bH = H
    ∧ 1 ≤ len pre
    ∧ ∀ rest, read_op_push (pre ++ rest) 0 = Ok (len S + 1, len pre).
Proof.
  intros HH HS. pose proof (len_nonneg S).
  destruct (op_push_roundtrip (len S + 1)) as (pre & Hw & Hlen & Hr); [lia |].
  destruct (byte_of_int_ok H HH) as (bH & EH & VH).
  exists pre, bH. split; [| split; [done | split; [lia | done]]]. intros w.
  unfold append_signature. rewrite Hw. cbn [mbind result_bind].
  unfold write_bytes_unchecked, append. rewrite EH. cbn.
  by rewrite <- !app_assoc.
Qed.

(** Reading the signature and the hash type of a frame that starts at
    offset [len a]. *)
Lemma signature_frame (a pre S rest : bytes) (bH : byte) :
  slice (a ++ (pre ++ S ++ [bH]) ++ rest)
    (len a + len pre) (len a + len pre + (len S + 1) - 1) = S
  ∧ byte_at (a ++ (pre ++ S ++ [bH]) ++ rest) (len a + len pre + (len S + 1) - 1)
    = Ok (int_of_byte bH)
  ∧ len a + len pre + (len S + 1) = len (a ++ pre ++ S ++ [bH]).
Proof.
  split; [| split].
  - replace (len a + len pre + (len S + 1) - 1) with (len (a ++ pre) + len S)
      by (rewrite len_app; lia).
    replace (len a + len pre) with (len (a ++ pre)) by (by rewrite len_app).
    replace (a ++ (pre ++ S ++ [bH]) ++ rest)
      with ((a ++ pre) ++ S ++ [bH] ++ rest) by (by rewrite <- !app_assoc).
    apply slice_mid.
  - replace (len a + len pre + (len S + 1) - 1) with (len (a ++ pre ++ S))
      by (rewrite !len_app; lia).
    replace (a ++ (pre ++ S ++ [bH]) ++ rest)
      with ((a ++ pre ++ S) ++ bH :: rest) by (by rewrite <- !app_assoc).
    apply byte_at_mid.
  - rewrite !len_app, len_cons, len_nil. lia.
Qed.

(** X13: for every signature S that fits a varint frame, every pubkey P
    shorter than 2^32 bytes and every hash type H in [0,255], parsing the
    witness built by [witness_p2wpkh] gives back ([P], [(S, H)]). *)
Theorem read_witness_p2wpkh_roundtrip (S P : bytes) (H : Z) :
  0 ≤ H ≤ 255 → len S + 1 ≤ 0xFFFFFFFF → len P ≤ 0xFFFFFFFF →
  witness_p2wpkh S P H ≫= read_witness_p2wpkh = Ok ([P], [(S, H)]).
Proof.
  intros HH HS HP. pose proof (len_nonneg S). pose proof (len_nonneg P).
  destruct (write_signature_prefixed_layout S H HH HS)
    as (pre & bH & Hsig & VH & Hr).
  destruct (varint_roundtrip (len P)) as (pre' & Hw' & _ & Hr'); [lia |].
  unfold witness_p2wpkh, empty_bytearray. cbv zeta.
  change (write_bitcoin_varint [] 2) with (Ok [x02]).
  cbn [mbind result_bind]. rewrite Hsig. cbn [mbind result_bind].
  unfold write_bytes_prefixed. rewrite Hw'. cbn [mbind result_bind].
  unfold write_bytes_unchecked.
  set (witness := (([x02] ++ pre ++ S ++ [bH]) ++ pre') ++ P).
  assert (witness = [x02] ++ (pre ++ S ++ [bH]) ++ pre' ++ P) as Hshape.
  { unfold witness. by rewrite <- !app_assoc. }
  destruct (signature_frame [x02] pre S (pre' ++ P) bH) as (Sl & B & Hoff).
  rewrite <- Hshape in Sl, B. change (len [x02]) with 1 in *.
  assert (read_bitcoin_varint witness 1 = Ok (len S + 1, 1 + len pre)) as R1.
  { rewrite Hshape, <- app_assoc.
    apply (read_bitcoin_varint_at [x02] pre). exact Hr. }
  assert (read_bitcoin_varint witness (1 + len pre + (len S + 1))
          = Ok (len P, len ([x02] ++ pre ++ S ++ [bH]) + len pre')) as R2.
  { rewrite Hoff. unfold witness. rewrite <- (app_assoc _ pre' P).
    apply read_bitcoin_varint_at. exact Hr'. }
  assert (len witness = len ([x02] ++ pre ++ S ++ [bH]) + len pre' + len P)
    as Hlen.
  { unfold witness. by rewrite !(len_app (_ ++ _)). }
  assert (slice witness (len ([x02] ++ pre ++ S ++ [bH]) + len pre')
            (len ([x02] ++ pre ++ S ++ [bH]) + len pre' + len P) = P) as Sp.
  { rewrite <- len_app. unfold witness.
    rewrite <- (app_nil_r P) at 1. apply slice_mid. }
  unfold read_witness_p2wpkh.
  change (byte_at witness 0) with (Ok 2). cbn [mbind result_bind].
  change (negb (2 =? 2)) with false. cbv iota.
  rewrite R1. cbn [mbind result_bind]. rewrite B. cbn [mbind result_bind].
  rewrite R2. cbn [mbind result_bind]. rewrite Hlen, Z.eqb_refl.
  cbn [negb]. by rewrite Sl, Sp, VH.
Qed.

Lemma read_witness_p2wpkh_roundtrip_witness :
  witness_p2wpkh [x30; x44] sample_pubkey 1 ≫= read_witness_p2wpkh
  = Ok ([sample_pubkey], [([x30; x44], 1)]).
Proof.
  apply (read_witness_p2wpkh_roundtrip [x30; x44] sample_pubkey 1).
  - lia.
  - vm_compute. discriminate.
  - vm_compute. discriminate.
Defined.

(** ** What an accepted multisig output script holds *)

Lemma len_slice {A} (l : list A) (lo hi : Z) :
  0 ≤ lo ≤ hi → hi ≤ len l → len (slice l lo hi) = hi - lo.
Proof.
  intros Hlo Hhi. unfold slice. cbv zeta. rewrite !clamp_in_range by lia.
  unfold len in *. rewrite length_take, length_drop. lia.
Qed.

Lemma read_output_script_multisig_loop_keys (data : bytes) (k : nat) (offset : Z)
    (acc : list bytes) (st : Z * list bytes) :
  0 ≤ offset →
  for_range_nat k (read_output_script_multisig_step data) (offset, acc) = Ok st →
  offset + 34 * Z.of_nat k ≤ st.1
  ∧ ∃ new, st.2 = acc ++ new ∧ length new = k
           ∧ Forall (λ p, ∃ o, 0 ≤ o ∧ o + 33 ≤ st.1 ∧ p = slice data o (o + 33))
               new.
Proof.
  revert offset acc. induction k as [|k IH]; intros offset acc Hoff H.
  - cbn in H. injection H as <-. split; [cbn; lia |].
    exists []. by rewrite app_nil_r.
  - cbn [for_range_nat] in H.
    apply result_bind_Ok in H as ([o1 acc1] & Hstep & H).
    apply read_output_script_multisig_step_Ok in Hstep as (o & _ & Hlt & Heq);
      [| done].
    injection Heq as -> ->.
    apply IH in H as (Hmono & new & Hnew & Hlen & Hall); [| lia].
    split; [lia |].
    exists (slice data o (o + 33) :: new).
    split; [by rewrite Hnew, <- app_assoc |]. split; [cbn; lia |].
    constructor; [| done]. exists o. split; [lia |]. split; [lia | done].
Qed.

(** X14: a script that [read_output_script_multisig] accepts yields a
    threshold m and keys with 1 <= m <= len keys <= 15 and every key 33
    bytes long, so [output_script_multisig] builds a script from them;
    that script is no longer than the one that was read. *)
Theorem read_output_script_multisig_accepts
    (script : bytes) (keys : list bytes) (m : Z) :
  read_output_script_multisig script = Ok (keys, m) →
  1 ≤ m ≤ len keys ∧ len keys ≤ 15
  ∧ Forall (λ p, len p = 33) keys
  ∧ ∃ script', output_script_multisig keys m = Ok script'
               ∧ len script' = 3 + 34 * len keys
               ∧ len script' ≤ len script.
Proof.
  intros H.
  apply read_output_script_multisig_Ok in H
    as (s2 & o & _ & _ & Hm & _ & Hs2 & Hle & Hloop & Hend).
  unfold for_range in Hloop.
  apply read_output_script_multisig_loop_keys in Hloop
    as (Hmono & new & Hnew & Hlen & Hall); [| lia].
  cbn [fst snd] in *. cbn [app] in Hnew. subst new.
  assert (len keys = s2 - 80) as Hcount by (unfold len; lia).
  assert (Forall (λ p, len p = 33) keys) as H33.
  { eapply Forall_impl; [exact Hall |]. cbn beta.
    intros p (o' & Ho' & Hhi & ->). rewrite len_slice by lia. lia. }
  split; [lia |]. split; [lia |]. split; [done |].
  destruct (write_output_script_multisig_layout [] keys m H33)
    as (bm & bn & Hw & _ & _); [lia | lia |].
  unfold output_script_multisig, empty_bytearray. rewrite Hw.
  eexists. split; [done |].
  cbn [app]. rewrite len_cons, len_app, len_pubkey_pushes by done.
  rewrite !len_cons. change (@len byte []) with 0. lia.
Qed.

Lemma read_output_script_multisig_accepts_witness :
  1 ≤ 1 ≤ len [sample_pubkey] ∧ len [sample_pubkey] ≤ 15
  ∧ Forall (λ p, len p = 33) [sample_pubkey]
  ∧ ∃ script', output_script_multisig [sample_pubkey] 1 = Ok script'
               ∧ len script' = 3 + 34 * len [sample_pubkey]
               ∧ len script' ≤ len ([x51; x4c; x21] ++ sample_pubkey ++ [x51; xae]).
Proof.
  apply (read_output_script_multisig_accepts
           ([x51; x4c; x21] ++ sample_pubkey ++ [x51; xae]) [sample_pubkey] 1).
  reflexivity.
Defined.

(** ** Round trip of the P2WSH witness *)

Lemma filled_cons_Some (b : bytes) (l : list slot) :
  len b ≠ 0 → filled (Some b :: l) = b :: filled l.
Proof.
  intros Hb. unfold filled. cbn [omap list_omap truthy].
  by destruct (Z.eqb_spec (len b) 0).
Qed.

Lemma filled_cons_empty (l : list slot) : filled (Some [] :: l) = filled l.
Proof. reflexivity. Qed.

Lemma filled_cons_None (l : list slot) : filled (None :: l) = filled l.
Proof. reflexivity. Qed.

Lemma truthy_Some (s : slot) :
  truthy s = true → ∃ b, s = Some b ∧ len b ≠ 0.
Proof.
  destruct s as [b|]; [| done]. cbn. intros H. exists b. split; [done |].
  by destruct (Z.eqb_spec (len b) 0).
Qed.

Lemma filter_truthy_filled (l : list slot) :
  base.filter (λ s, truthy s = true) l = Some <$> filled l.
Proof.
  induction l as [|s l IH]; [done |].
  destruct (truthy s) eqn:Hs.
  - rewrite filter_cons_True by done.
    apply truthy_Some in Hs as (b & -> & Hb).
    rewrite filled_cons_Some by done. cbn [fmap list_fmap]. by rewrite IH.
  - rewrite filter_cons_False by (by rewrite Hs).
    rewrite IH. f_equal. unfold filled. cbn [omap list_omap]. by rewrite Hs.
Qed.

(** The loop that adds up the total length runs over slots that hold
    bytes objects. *)
Lemma total_length_Ok (bs : list bytes) (t : Z) :
  ∃ t', for_each (Some <$> bs)
          (λ total_length s, n ← slot_len s; Ok (total_length + (1 + n + 1))) t
        = Ok t'.
Proof.
  revert t. induction bs as [|b bs IH]; intros t; [by exists t |].
  cbn [fmap list_fmap for_each slot_len mbind result_bind]. apply IH.
Qed.

Lemma read_witness_p2wsh_step_frame (a pre S rest : bytes) (bH : byte)
    (acc : list (bytes * Z)) :
  (∀ rest, read_bitcoin_varint (pre ++ rest) 0 = Ok (len S + 1, len pre)) →
  read_witness_p2wsh_step (a ++ (pre ++ S ++ [bH]) ++ rest) (len a, acc)
  = Ok (len (a ++ pre ++ S ++ [bH]), acc ++ [(S, int_of_byte bH)]).
Proof.
  intros Hr.
  destruct (signature_frame a pre S rest bH) as (Sl & B & Hoff).
  unfold read_witness_p2wsh_step.
  replace (read_bitcoin_varint (a ++ (pre ++ S ++ [bH]) ++ rest) (len a))
    with (Ok (len S + 1, len a + len pre) : result (Z * Z)).
  2:{ rewrite <- !app_assoc. symmetry. by apply read_bitcoin_varint_at. }
  cbn [mbind result_bind]. rewrite B. cbn [mbind result_bind].
  by rewrite Sl, Hoff.
Qed.

(** The signatures behind their varint length fields, and the loop of
    the parser walking over them. *)
Lemma write_read_signatures_prefixed (H : Z) (bs : list bytes) :
  0 ≤ H ≤ 255 →
  Forall (λ b, len b + 1 ≤ 0xFFFFFFFF) bs →
  ∃ frames,
    (∀ w, for_each (Some <$> bs)
            (λ w s, b ← slot_bytes s; write_signature_prefixed w b H) w
          = Ok (w ++ frames))
    ∧ ∀ a rest acc,
        for_range_nat (length bs)
          (read_witness_p2wsh_step (a ++ frames ++ rest)) (len a, acc)
        = Ok (len a + len frames, acc ++ ((λ b, (b, H)) <$> bs)).
Proof.
  intros HH. induction 1 as [|b bs Hb _ (frames & Hw & Hr)].
  - exists []. split; [intros w; cbn; by rewrite app_nil_r |].
    intros a rest acc. cbn. rewrite app_nil_r. do 2 f_equal.
    change (@len byte []) with 0. lia.
  - destruct (write_signature_prefixed_layout b H HH Hb)
      as (pre & bH & Hsig & VH & Hrd).
    exists ((pre ++ b ++ [bH]) ++ frames). split.
    + intros w. cbn [fmap list_fmap for_each slot_bytes mbind result_bind].
      rewrite Hsig. cbn [mbind result_bind]. rewrite Hw.
      by rewrite <- !app_assoc.
    + intros a rest acc. cbn [length for_range_nat fmap list_fmap].
      rewrite <- (app_assoc (pre ++ b ++ [bH]) frames rest).
      rewrite read_witness_p2wsh_step_frame by done.
      cbn [mbind result_bind].
      replace (a ++ (pre ++ b ++ [bH]) ++ frames ++ rest)
        with ((a ++ pre ++ b ++ [bH]) ++ frames ++ rest)
        by (by rewrite <- !app_assoc).
      rewrite Hr, VH. f_equal. f_equal.
      * rewrite !len_app. lia.
      * by rewrite <- app_assoc.
Qed.

(** The redeem script that is written does not depend on the buffer. *)
Lemma write_output_script_multisig_app (pubkeys : list bytes) (m : Z) :
  Forall (λ p, len p = 33) pubkeys →
  1 ≤ m ≤ len pubkeys → len pubkeys ≤ 15 →
  ∃ script,
    output_script_multisig pubkeys m = Ok script
    ∧ len script = output_script_multisig_length pubkeys m
    ∧ ∀ w, write_output_script_multisig w pubkeys m = Ok (w ++ script).
Proof.
  intros H33 Hm Hn.
  destruct (byte_of_int_ok (0x50 + m)) as (bm & Em & Vm); [lia |].
  destruct (byte_of_int_ok (0x50 + len pubkeys)) as (bn & En & Vn); [lia |].
  assert (∀ w, write_output_script_multisig w pubkeys m
               = Ok (w ++ bm :: pubkey_pushes pubkeys ++ [bn; xae])) as Hw.
  { intros w. unfold write_output_script_multisig. zcmp.
    rewrite check_pubkeys_33 by done. cbn [mbind result_bind].
    unfold append at 3. rewrite Em. cbn [mbind result_bind].
    rewrite append_pubkeys_33 by done. cbn [mbind result_bind].
    unfold append at 2. rewrite En. cbn [mbind result_bind].
    unfold append. change (byte_of_int 174) with (Ok xae).
    cbn [mbind result_bind]. by rewrite <- !app_assoc. }
  exists (bm :: pubkey_pushes pubkeys ++ [bn; xae]).
  split; [apply (Hw []) |]. split; [| done].
  unfold output_script_multisig_length. len_simpl.
  rewrite len_pubkey_pushes by done. lia.
Qed.

Section WitnessRoundTrip.
Context {HDNodePathType : Type}.
Variable multisig_get_pubkeys :
  MultisigRedeemScriptType HDNodePathType → result (list bytes).
Variable multisig_get_pubkey_count :
  MultisigRedeemScriptType HDNodePathType → Z.

(** X15: [witness_p2wsh] followed by [read_witness_p2wsh].  For 33-byte
    keys with 1 <= m <= n <= 15, a hash type in [0,255] and a slot at the
    given index that is empty or [None], the witness parses back to the
    redeem script of [output_script_multisig] and to the filled slots, in
    their order, each with the hash type. *)
Theorem read_witness_p2wsh_roundtrip
    (multisig : MultisigRedeemScriptType HDNodePathType)
    (signature : bytes) (signature_index hash_type : Z) (h : store)
    (sigs work : list slot) (s : slot) (pubkeys : list bytes) :
  h !! ms_signatures multisig = Some sigs →
  multisig_get_pubkeys multisig = Ok pubkeys →
  Forall (λ p, len p = 33) pubkeys →
  1 ≤ ms_m multisig ≤ len pubkeys → len pubkeys ≤ 15 →
  0 ≤ hash_type ≤ 255 →
  getitem (stretched_signatures (multisig_get_pubkey_count multisig) sigs)
    signature_index = Ok s →
  truthy s = false →
  setitem (stretched_signatures (multisig_get_pubkey_count multisig) sigs)
    signature_index (Some signature) = Ok work →
  Forall (λ b, len b + 1 ≤ 0xFFFFFFFF) (filled work) →
  len (filled work) + 2 ≤ 0xFFFFFFFF →
  ∃ w script,
    (witness_p2wsh multisig_get_pubkeys multisig_get_pubkey_count
       multisig signature signature_index hash_type h).1 = Ok w
    ∧ output_script_multisig pubkeys (ms_m multisig) = Ok script
    ∧ read_witness_p2wsh w
      = Ok (script, (λ b, (b, hash_type)) <$> filled work).
Proof.
  intros Hsigs Hkeys H33 Hm Hn HH Hget Hs Hset Hfit Hcount.
  destruct (write_output_script_multisig_app pubkeys (ms_m multisig) H33 Hm Hn)
    as (script & Hscript & Hlen & Hw).
  pose proof (len_nonneg (filled work)) as Hnn.
  pose proof (len_nonneg pubkeys) as Hpn.
  destruct (varint_roundtrip (1 + len (filled work) + 1))
    as (pre0 & Hw0 & _ & Hr0); [lia |].
  destruct (varint_roundtrip (output_script_multisig_length pubkeys (ms_m multisig)))
    as (preL & HwL & _ & HrL); [unfold output_script_multisig_length; lia |].
  destruct (write_read_signatures_prefixed hash_type (filled work) HH Hfit)
    as (frames & Hwf & Hrf).
  destruct (total_length_Ok (filled work) (1 + 1)) as (total & Htotal).
  exists ((((pre0 ++ [x00]) ++ frames) ++ preL) ++ script), script.
  split; [| split; [done |]].
  - unfold witness_p2wsh. rewrite load_bind, Hsigs. simpl_default.
    rewrite alloc_bind.
    change (sigs ++ replicate _ None)
      with (stretched_signatures (multisig_get_pubkey_count multisig) sigs).
    rewrite list_getitem_bind, lookup_insert_eq. simpl_default.
    rewrite Hget, Hs.
    rewrite list_setitem_bind, lookup_insert_eq. simpl_default. rewrite Hset.
    rewrite insert_insert_eq.
    rewrite load_bind, lookup_insert_eq. simpl_default. rewrite alloc_bind.
    rewrite load_bind, lookup_insert_eq. simpl_default. cbv zeta.
    rewrite filter_truthy_filled.
    rewrite lift_bind, Hkeys. rewrite lift_bind, Htotal.
    unfold empty_bytearray.
    replace (len (Some <$> filled work)) with (len (filled work))
      by (unfold len; by rewrite length_fmap).
    rewrite lift_bind, Hw0. rewrite lift_bind, write_bitcoin_varint_zero.
    rewrite lift_bind, Hwf. rewrite lift_bind, HwL. rewrite lift_bind, Hw.
    reflexivity.
  - set (w := (((pre0 ++ [x00]) ++ frames) ++ preL) ++ script).
    assert (read_bitcoin_varint w 0
            = Ok (1 + len (filled work) + 1, len pre0)) as R0.
    { unfold w. rewrite <- !app_assoc. apply Hr0. }
    assert (byte_at w (len pre0) = Ok 0) as B0.
    { unfold w. rewrite <- !app_assoc. cbn [app]. by rewrite byte_at_mid. }
    assert (for_range (1 + len (filled work) + 1 - 2)
              (read_witness_p2wsh_step w) (len pre0 + 1, [])
            = Ok (len (pre0 ++ [x00]) + len frames,
                  (λ b, (b, hash_type)) <$> filled work)) as Rloop.
    { unfold for_range.
      replace (Z.to_nat (1 + len (filled work) + 1 - 2))
        with (length (filled work)) by (unfold len; lia).
      replace (len pre0 + 1) with (len (pre0 ++ [x00]))
        by (by rewrite len_app).
      unfold w. rewrite <- (app_assoc _ preL script).
      rewrite <- (app_assoc _ frames (preL ++ script)).
      by rewrite Hrf. }
    assert (read_bitcoin_varint w (len (pre0 ++ [x00]) + len frames)
            = Ok (output_script_multisig_length pubkeys (ms_m multisig),
                  len ((pre0 ++ [x00]) ++ frames) + len preL)) as RL.
    { rewrite <- len_app. unfold w. rewrite <- (app_assoc _ preL script).
      by apply read_bitcoin_varint_at. }
    assert (len w = len ((pre0 ++ [x00]) ++ frames) + len preL
                    + output_script_multisig_length pubkeys (ms_m multisig))
      as Hlenw.
    { unfold w. by rewrite !(len_app (_ ++ _)), Hlen. }
    assert (slice w (len ((pre0 ++ [x00]) ++ frames) + len preL)
              (len ((pre0 ++ [x00]) ++ frames) + len preL
               + output_script_multisig_length pubkeys (ms_m multisig))
            = script) as Sl.
    { rewrite <- len_app, <- Hlen. unfold w.
      rewrite <- (app_nil_r script) at 1. apply slice_mid. }
    unfold read_witness_p2wsh. rewrite R0. cbn [mbind result_bind].
    rewrite B0. cbn [mbind result_bind]. change (negb (0 =? 0)) with false.
    cbv iota zeta. rewrite Rloop. cbn [mbind result_bind].
    rewrite RL. cbn [mbind result_bind]. rewrite Hlenw, Z.eqb_refl.
    cbn [negb]. by rewrite Sl.
Qed.

End WitnessRoundTrip.

Lemma read_witness_p2wsh_roundtrip_witness :
  ∃ w script,
    (witness_p2wsh sample_get_pubkeys sample_get_pubkey_count
       sample_multisig [x30; x44] 0 1 sample_store).1 = Ok w
    ∧ output_script_multisig [sample_pubkey; sample_pubkey'] 2 = Ok script
    ∧ read_witness_p2wsh w
      = Ok (script,
            (λ b, (b, 1)) <$> filled [Some [x30; x44]; Some [x30; x45]]).
Proof.
  apply (read_witness_p2wsh_roundtrip sample_get_pubkeys sample_get_pubkey_count
           sample_multisig [x30; x44] 0 1 sample_store
           [Some []; Some [x30; x45]] [Some [x30; x44]; Some [x30; x45]]
           (Some []) [sample_pubkey; sample_pubkey']).
  - reflexivity.
  - reflexivity.
  - repeat constructor.
  - vm_compute. split; discriminate.
  - vm_compute. discriminate.
  - lia.
  - reflexivity.
  - reflexivity.
  - reflexivity.
  - repeat constructor; vm_compute; discriminate.
  - vm_compute. discriminate.
Defined.

(** ** Round trip of the multisig scriptSig *)

Lemma filled_fmap_cons (b : bytes) (bs : list bytes) :
  filled (Some <$> b :: bs)
  = if len b =? 0 then filled (Some <$> bs) else b :: filled (Some <$> bs).
Proof.
  unfold filled. cbn [fmap list_fmap omap list_omap truthy].
  by destruct (len b =? 0).
Qed.

(** A push of a length that is not zero does not begin with 0x00. *)
Lemma op_push_first_byte (pre : bytes) (n : Z) :
  (∀ rest, read_op_push (pre ++ rest) 0 = Ok (n, len pre)) → n ≠ 0 →
  ∀ rest, ∃ v, byte_at (pre ++ rest) 0 = Ok v ∧ v ≠ 0.
Proof.
  intros Hr Hn rest. specialize (Hr rest). unfold read_op_push in Hr.
  destruct (byte_at (pre ++ rest) 0) as [v|e]; [| done].
  exists v. split; [done |]. intros ->. cbn in Hr. injection Hr as Hr _.
  by apply Hn.
Qed.

Lemma read_input_script_multisig_loop_frame (fuel : nat) (a pre S rest : bytes)
    (bH : byte) (acc : list (bytes * Z)) :
  (∀ rest, read_op_push (pre ++ rest) 0 = Ok (len S + 1, len pre)) →
  rest ≠ [] →
  read_input_script_multisig_loop (Datatypes.S fuel)
    (a ++ (pre ++ S ++ [bH]) ++ rest) (len a) acc
  = read_input_script_multisig_loop fuel
      (a ++ (pre ++ S ++ [bH]) ++ rest) (len (a ++ pre ++ S ++ [bH]))
      (acc ++ [(S, int_of_byte bH)]).
Proof.
  intros Hr Hrest.
  destruct (signature_frame a pre S rest bH) as (Sl & B & Hoff).
  cbn [read_input_script_multisig_loop].
  replace (read_op_push (a ++ (pre ++ S ++ [bH]) ++ rest) (len a))
    with (Ok (len S + 1, len a + len pre) : result (Z * Z)).
  2:{ rewrite <- !app_assoc. symmetry. by apply read_op_push_at. }
  assert (len (a ++ pre ++ S ++ [bH]) < len (a ++ (pre ++ S ++ [bH]) ++ rest))
    as Hlt.
  { destruct rest as [|r rest]; [done |].
    rewrite !len_app, !len_cons. pose proof (len_nonneg rest). lia. }
  rewrite <- Hoff in Hlt.
  destruct (Z.leb_spec (len (a ++ (pre ++ S ++ [bH]) ++ rest))
              (len a + len pre + (len S + 1))); [lia |].
  rewrite B, Sl. by rewrite Hoff.
Qed.

(** The signatures behind their push opcodes, and the loop of the parser
    walking over them: empty signatures are not written. *)
Lemma write_read_signature_pushes (H : Z) (bs : list bytes) :
  0 ≤ H ≤ 255 →
  Forall (λ b, len b + 1 ≤ 0xFFFFFFFF) bs →
  ∃ frames,
    (∀ w, for_each (Some <$> bs)
            (λ w s,
               n ← slot_len s;
               if negb (n =? 0) then
                 b ← slot_bytes s; append_signature w b H
               else Ok w) w
          = Ok (w ++ frames))
    ∧ (∀ a rest acc fuel,
         rest ≠ [] →
         read_input_script_multisig_loop
           (length (filled (Some <$> bs)) + fuel) (a ++ frames ++ rest) (len a) acc
         = read_input_script_multisig_loop fuel (a ++ frames ++ rest)
             (len a + len frames)
             (acc ++ ((λ b, (b, H)) <$> filled (Some <$> bs))))
    ∧ (length (filled (Some <$> bs)) ≤ length frames)%nat
    ∧ (frames = [] ∨ ∀ rest, ∃ v, byte_at (frames ++ rest) 0 = Ok v ∧ v ≠ 0).
Proof.
  intros HH. induction 1 as [|b bs Hb _ (frames & Hw & Hr & Hlen & Hfirst)].
  - exists []. split; [intros w; cbn; by rewrite app_nil_r |].
    split; [| split; [done | by left]].
    intros a rest acc fuel _. cbn. rewrite app_nil_r. f_equal.
    change (@len byte []) with 0. lia.
  - rewrite filled_fmap_cons.
    cbn [fmap list_fmap for_each slot_len slot_bytes mbind result_bind].
    destruct (Z.eqb_spec (len b) 0) as [Hz|Hz]; cbn [negb].
    { exists frames. split; [exact Hw |]. done. }
    destruct (append_signature_layout b H HH Hb)
      as (pre & bH & Hsig & VH & Hpre & Hrd).
    exists ((pre ++ b ++ [bH]) ++ frames). split; [| split; [| split]].
    + intros w. rewrite Hsig. cbn [mbind result_bind]. rewrite Hw.
      by rewrite <- !app_assoc.
    + intros a rest acc fuel Hrest. cbn [length Nat.add fmap list_fmap].
      rewrite <- (app_assoc (pre ++ b ++ [bH]) frames rest).
      rewrite read_input_script_multisig_loop_frame; [| done |].
      2:{ destruct frames; [done | done]. }
      replace (a ++ (pre ++ b ++ [bH]) ++ frames ++ rest)
        with ((a ++ pre ++ b ++ [bH]) ++ frames ++ rest)
        by (by rewrite <- !app_assoc).
      rewrite Hr by done. rewrite VH. f_equal.
      * rewrite !len_app. lia.
      * by rewrite <- app_assoc.
    + rewrite !length_app. cbn [length]. lia.
    + right. intros rest. rewrite <- !app_assoc.
      apply (op_push_first_byte pre (len b + 1)); [done |].
      pose proof (len_nonneg b). lia.
Qed.

(** The loop of the parser stops at the push that ends the buffer. *)
Lemma read_input_script_multisig_loop_last (fuel : nat) (a pre script : bytes)
    (acc : list (bytes * Z)) :
  (∀ rest, read_op_push (pre ++ rest) 0 = Ok (len script, len pre)) →
  read_input_script_multisig_loop (Datatypes.S fuel) (a ++ pre ++ script) (len a) acc
  = Some (Ok (len script, len a + len pre, acc)).
Proof.
  intros Hr. cbn [read_input_script_multisig_loop].
  rewrite (read_op_push_at a pre script (len script) Hr). rewrite !len_app.
  destruct (Z.leb_spec (len a + (len pre + len script))
              (len a + len pre + len script)); [done | lia].
Qed.

Section ScriptSigRoundTrip.
Context {HDNodePathType : Type}.
Variable BITCOIN_ONLY : bool.
Variable multisig_get_pubkeys :
  MultisigRedeemScriptType HDNodePathType → result (list bytes).

(** The bytes of a multisig scriptSig: OP_FALSE unless the coin is
    Decred, the pushes of the signatures, and the push of the redeem
    script. *)
Lemma input_script_multisig_layout
    (multisig : MultisigRedeemScriptType HDNodePathType)
    (signature : bytes) (signature_index hash_type : Z) (coin : CoinInfo)
    (h : store) (sigs : list slot) (bs pubkeys : list bytes) :
  h !! ms_signatures multisig = Some sigs →
  multisig_get_pubkeys multisig = Ok pubkeys →
  Forall (λ p, len p = 33) pubkeys →
  1 ≤ ms_m multisig ≤ len pubkeys → len pubkeys ≤ 15 →
  0 ≤ hash_type ≤ 255 →
  getitem sigs signature_index = Ok (Some []) →
  setitem sigs signature_index (Some signature) = Ok (Some <$> bs) →
  Forall (λ b, len b + 1 ≤ 0xFFFFFFFF) bs →
  ∃ frames pre script,
    input_script_multisig BITCOIN_ONLY multisig_get_pubkeys
      multisig signature signature_index hash_type coin h
    = (Ok ((((if BITCOIN_ONLY || negb (decred coin) then [x00] else [])
               ++ frames) ++ pre) ++ script),
       <[ms_signatures multisig := Some <$> bs]> h)
    ∧ output_script_multisig pubkeys (ms_m multisig) = Ok script
    ∧ (∀ rest, read_op_push (pre ++ rest) 0 = Ok (len script, len pre))
    ∧ 0 < len script
    ∧ (∀ a rest acc fuel,
         rest ≠ [] →
         read_input_script_multisig_loop
           (length (filled (Some <$> bs)) + fuel) (a ++ frames ++ rest) (len a) acc
         = read_input_script_multisig_loop fuel (a ++ frames ++ rest)
             (len a + len frames)
             (acc ++ ((λ b, (b, hash_type)) <$> filled (Some <$> bs))))
    ∧ (length (filled (Some <$> bs)) ≤ length frames)%nat
    ∧ (frames = [] ∨ ∀ rest, ∃ v, byte_at (frames ++ rest) 0 = Ok v ∧ v ≠ 0).
Proof.
  intros Hsigs Hkeys H33 Hm Hn HH Hget Hset Hfit.
  destruct (write_output_script_multisig_app pubkeys (ms_m multisig) H33 Hm Hn)
    as (script & Hscript & Hlen & Hw).
  pose proof (len_nonneg pubkeys) as Hpn.
  destruct (op_push_roundtrip (output_script_multisig_length pubkeys (ms_m multisig)))
    as (pre & Hwp & _ & Hrp); [unfold output_script_multisig_length; lia |].
  destruct (write_read_signature_pushes hash_type bs HH Hfit)
    as (frames & Hwf & Hrf & Hlf & Hfirst).
  exists frames, pre, script.
  split; [| split; [done | split; [by rewrite Hlen | split; [| done]]]].
  2:{ rewrite Hlen. unfold output_script_multisig_length. lia. }
  unfold input_script_multisig. cbv zeta.
  rewrite list_getitem_bind, Hsigs. simpl_default. rewrite Hget.
  rewrite lift_bind. cbn [slot_len]. change (0 <? @len byte []) with false.
  cbv iota.
  rewrite list_setitem_bind, Hsigs. simpl_default. rewrite Hset.
  rewrite lift_bind, Hkeys. rewrite load_bind, lookup_insert_eq. simpl_default.
  destruct (total_length_Ok bs
              (if BITCOIN_ONLY || negb (decred coin) then 0 + 1 else 0))
    as (total & Htotal).
  rewrite lift_bind, Htotal. unfold empty_bytearray.
  rewrite lift_bind.
  replace (if BITCOIN_ONLY || negb (decred coin) then append [] 0 else Ok [])
    with (Ok (if BITCOIN_ONLY || negb (decred coin) then [x00] else [])
          : result bytes)
    by (by destruct (BITCOIN_ONLY || negb (decred coin))).
  rewrite lift_bind, Hwf. rewrite lift_bind, Hwp. rewrite lift_bind, Hw.
  reflexivity.
Qed.

(** X16: [input_script_multisig] followed by
    [read_input_script_multisig], for a coin whose scriptSig begins with
    OP_FALSE.  For 33-byte keys with 1 <= m <= n <= 15, a hash type in
    [0,255], slots that all hold bytes objects and an empty slot at the
    given index, the call stores the signature in the caller's list and
    the scriptSig parses back to the redeem script of
    [output_script_multisig] and to the non-empty slots, in their
    order, each with the hash type. *)
Theorem read_input_script_multisig_roundtrip
    (multisig : MultisigRedeemScriptType HDNodePathType)
    (signature : bytes) (signature_index hash_type : Z) (coin : CoinInfo)
    (h : store) (sigs : list slot) (bs pubkeys : list bytes) :
  BITCOIN_ONLY || negb (decred coin) = true →
  h !! ms_signatures multisig = Some sigs →
  multisig_get_pubkeys multisig = Ok pubkeys →
  Forall (λ p, len p = 33) pubkeys →
  1 ≤ ms_m multisig ≤ len pubkeys → len pubkeys ≤ 15 →
  0 ≤ hash_type ≤ 255 →
  getitem sigs signature_index = Ok (Some []) →
  setitem sigs signature_index (Some signature) = Ok (Some <$> bs) →
  Forall (λ b, len b + 1 ≤ 0xFFFFFFFF) bs →
  ∃ w script,
    input_script_multisig BITCOIN_ONLY multisig_get_pubkeys
      multisig signature signature_index hash_type coin h
    = (Ok w, <[ms_signatures multisig := Some <$> bs]> h)
    ∧ output_script_multisig pubkeys (ms_m multisig) = Ok script
    ∧ read_input_script_multisig w
      = Ok (script, (λ b, (b, hash_type)) <$> filled (Some <$> bs)).
Proof.
  intros Hflag Hsigs Hkeys H33 Hm Hn HH Hget Hset Hfit.
  destruct (input_script_multisig_layout multisig signature signature_index
              hash_type coin h sigs bs pubkeys)
    as (frames & pre & script & Hrun & Hscript & Hrp & Hpos & Hrf & Hlf & _);
    try done.
  rewrite Hflag in Hrun.
  exists ((([x00] ++ frames) ++ pre) ++ script), script.
  split; [done |]. split; [done |].
  set (w := (([x00] ++ frames) ++ pre) ++ script).
  assert (w = [x00] ++ frames ++ pre ++ script) as Hshape.
  { unfold w. by rewrite <- !app_assoc. }
  assert (len w = len ([x00] ++ frames) + len pre + len script) as Hlenw.
  { unfold w. by rewrite !(len_app (_ ++ _)). }
  assert (read_input_script_multisig_loop (Datatypes.S (length w)) w (0 + 1) []
          = Some (Ok (len script, len ([x00] ++ frames) + len pre,
                      (λ b, (b, hash_type)) <$> filled (Some <$> bs)))) as Hloop.
  { assert (∃ fuel, Datatypes.S (length w)
                    = (length (filled (Some <$> bs)) + Datatypes.S fuel)%nat)
      as (fuel & ->).
    { exists (length w - length (filled (Some <$> bs)))%nat.
      assert (length frames ≤ length w)%nat.
      { rewrite Hshape, !length_app. lia. }
      lia. }
    rewrite Hshape. change (0 + 1) with (len [x00]).
    rewrite Hrf.
    2:{ destruct pre; [| done]. specialize (Hrp []). done. }
    rewrite <- len_app. cbn [app].
    replace (x00 :: frames ++ pre ++ script)
      with ((x00 :: frames) ++ pre ++ script) by done.
    by rewrite read_input_script_multisig_loop_last. }
  assert (slice w (len ([x00] ++ frames) + len pre)
            (len ([x00] ++ frames) + len pre + len script) = script) as Sl.
  { rewrite <- len_app. unfold w.
    rewrite <- (app_nil_r script) at 1. apply slice_mid. }
  unfold read_input_script_multisig. cbv zeta.
  change (byte_at w 0) with (Ok 0 : result Z). cbn [mbind result_bind].
  change (negb (0 =? 0)) with false. cbv iota.
  rewrite Hloop, Hlenw, Z.eqb_refl. cbn [negb]. by rewrite Sl.
Qed.

(** X17: a multisig scriptSig built for Decred has no OP_FALSE in
    front, and [read_input_script_multisig] rejects it: its first byte
    is the opcode of a push of at least one byte, which is not 0x00. *)
Theorem read_input_script_multisig_rejects_decred
    (multisig : MultisigRedeemScriptType HDNodePathType)
    (signature : bytes) (signature_index hash_type : Z) (coin : CoinInfo)
    (h : store) (sigs : list slot) (bs pubkeys : list bytes) :
  BITCOIN_ONLY = false → decred coin = true →
  h !! ms_signatures multisig = Some sigs →
  multisig_get_pubkeys multisig = Ok pubkeys →
  Forall (λ p, len p = 33) pubkeys →
  1 ≤ ms_m multisig ≤ len pubkeys → len pubkeys ≤ 15 →
  0 ≤ hash_type ≤ 255 →
  getitem sigs signature_index = Ok (Some []) →
  setitem sigs signature_index (Some signature) = Ok (Some <$> bs) →
  Forall (λ b, len b + 1 ≤ 0xFFFFFFFF) bs →
  ∃ w,
    input_script_multisig BITCOIN_ONLY multisig_get_pubkeys
      multisig signature signature_index hash_type coin h
    = (Ok w, <[ms_signatures multisig := Some <$> bs]> h)
    ∧ read_input_script_multisig w = Raise (DataError "Invalid witness.").
Proof.
  intros Hbtc Hdecred Hsigs Hkeys H33 Hm Hn HH Hget Hset Hfit.
  destruct (input_script_multisig_layout multisig signature signature_index
              hash_type coin h sigs bs pubkeys)
    as (frames & pre & script & Hrun & _ & Hrp & Hpos & _ & _ & Hfirst);
    try done.
  rewrite Hbtc, Hdecred in Hrun. cbn [orb negb app] in Hrun.
  exists ((frames ++ pre) ++ script). split; [by rewrite Hbtc |].
  assert (∃ v, byte_at ((frames ++ pre) ++ script) 0 = Ok v ∧ v ≠ 0)
    as (v & Hv & Hne).
  { destruct Hfirst as [-> | Hfirst].
    - cbn [app]. apply (op_push_first_byte pre (len script)); [done | lia].
    - rewrite <- app_assoc. apply Hfirst. }
  unfold read_input_script_multisig. cbv zeta. rewrite Hv.
  cbn [mbind result_bind]. by destruct (Z.eqb_spec v 0).
Qed.

End ScriptSigRoundTrip.

Lemma read_input_script_multisig_roundtrip_witness :
  ∃ w script,
    input_script_multisig false sample_get_pubkeys
      sample_multisig [x30; x44] 0 1 sample_coin sample_store
    = (Ok w, <[ms_signatures sample_multisig :=
                 Some <$> [[x30; x44]; [x30; x45]]]> sample_store)
    ∧ output_script_multisig [sample_pubkey; sample_pubkey'] 2 = Ok script
    ∧ read_input_script_multisig w
      = Ok (script,
            (λ b, (b, 1)) <$> filled (Some <$> [[x30; x44]; [x30; x45]])).
Proof.
  apply (read_input_script_multisig_roundtrip false sample_get_pubkeys
           sample_multisig [x30; x44] 0 1 sample_coin sample_store
           [Some []; Some [x30; x45]] [[x30; x44]; [x30; x45]]
           [sample_pubkey; sample_pubkey']).
  - reflexivity.
  - reflexivity.
  - reflexivity.
  - repeat constructor.
  - vm_compute. split; discriminate.
  - vm_compute. discriminate.
  - lia.
  - reflexivity.
  - reflexivity.
  - repeat constructor; vm_compute; discriminate.
Defined.

Lemma read_input_script_multisig_rejects_decred_witness :
  ∃ w,
    input_script_multisig false sample_get_pubkeys
      sample_multisig [x30; x44] 0 1 sample_decred_coin sample_store
    = (Ok w, <[ms_signatures sample_multisig :=
                 Some <$> [[x30; x44]; [x30; x45]]]> sample_store)
    ∧ read_input_script_multisig w = Raise (DataError "Invalid witness.").
Proof.
  apply (read_input_script_multisig_rejects_decred false sample_get_pubkeys
           sample_multisig [x30; x44] 0 1 sample_decred_coin sample_store
           [Some []; Some [x30; x45]] [[x30; x44]; [x30; x45]]
           [sample_pubkey; sample_pubkey']).
  - reflexivity.
  - reflexivity.
  - reflexivity.
  - reflexivity.
  - repeat constructor.
  - vm_compute. split; discriminate.
  - vm_compute. discriminate.
  - lia.
  - reflexivity.
  - reflexivity.
  - repeat constructor; vm_compute; discriminate.
Defined.

(** ** Public key formats *)

(** X18: [ecdsa_hash_pubkey] reads the first byte of the key and asks
    for 65 bytes behind 0x04, for 1 byte behind 0x00 and for 33 bytes
    behind anything else; a key of that length is hashed with the
    coin's script hash, any other length fails the precondition, and the
    empty key raises [IndexError]. *)
Theorem ecdsa_hash_pubkey_formats (pubkey : bytes) (coin : CoinInfo) :
  (pubkey = [] → ecdsa_hash_pubkey pubkey coin = Raise IndexError)
  ∧ ∀ b rest,
      pubkey = b :: rest →
      let expected :=
        if int_of_byte b =? 0x04 then 65
        else if int_of_byte b =? 0x00 then 1 else 33 in
      (len pubkey = expected →
       ecdsa_hash_pubkey pubkey coin = Ok (script_hash coin pubkey))
      ∧ (len pubkey ≠ expected →
         ecdsa_hash_pubkey pubkey coin = Raise AssertionError).
Proof.
  split; [by intros -> |].
  intros b rest -> expected. unfold ecdsa_hash_pubkey.
  rewrite byte_at_0. cbn [mbind result_bind]. subst expected.
  destruct (int_of_byte b =? 4).
  - split; intros Hlen.
    + by rewrite Hlen.
    + by destruct (Z.eqb_spec (len (b :: rest)) 65).
  - destruct (int_of_byte b =? 0).
    + split; intros Hlen.
      * by rewrite Hlen.
      * by destruct (Z.eqb_spec (len (b :: rest)) 1).
    + split; intros Hlen.
      * by rewrite Hlen.
      * by destruct (Z.eqb_spec (len (b :: rest)) 33).
Qed.

Lemma ecdsa_hash_pubkey_formats_witness :
  ecdsa_hash_pubkey [] sample_coin = Raise IndexError
  ∧ ecdsa_hash_pubkey sample_pubkey sample_coin
    = Ok (script_hash sample_coin sample_pubkey)
  ∧ ecdsa_hash_pubkey (x04 :: replicate 32 xaa) sample_coin
    = Raise AssertionError.
Proof.
  split; [| split].
  - by apply (ecdsa_hash_pubkey_formats [] sample_coin).
  - apply (ecdsa_hash_pubkey_formats sample_pubkey sample_coin)
      with (b := x02) (rest := replicate 32 xaa); reflexivity.
  - apply (ecdsa_hash_pubkey_formats (x04 :: replicate 32 xaa) sample_coin)
      with (b := x04) (rest := replicate 32 xaa);
      [reflexivity | vm_compute; discriminate].
Defined.

(** ** Parameters of a multisig output script *)

(** X19: outside its parameter range, that is unless every key has 33
    bytes and 1 <= m <= n <= 15, [output_script_multisig] raises
    [DataError] "Invalid multisig parameters" and writes nothing. *)
Theorem output_script_multisig_invalid (pubkeys : list bytes) (m : Z) :
  ¬ (Forall (λ p, len p = 33) pubkeys ∧ 1 ≤ m ≤ len pubkeys ∧ len pubkeys ≤ 15) →
  output_script_multisig pubkeys m
  = Raise (DataError "Invalid multisig parameters")
  ∧ ∀ w, write_output_script_multisig w pubkeys m
         = Raise (DataError "Invalid multisig parameters").
Proof.
  intros Hnot.
  assert (∀ w, write_output_script_multisig w pubkeys m
               = Raise (DataError "Invalid multisig parameters")) as Hw.
  { intros w. unfold write_output_script_multisig. cbv zeta.
    destruct (_ || _) eqn:Hrange; [done |].
    rewrite !orb_false_iff in Hrange.
    destruct Hrange as ((((H1 & H2) & H3) & H4) & H5).
    apply Z.ltb_ge in H1, H2, H3, H4, H5.
    rewrite check_pubkeys_not_33; [done |].
    intros H33. apply Hnot. split; [done |]. lia. }
  split; [apply Hw | exact Hw].
Qed.

Lemma output_script_multisig_invalid_witness :
  output_script_multisig [sample_pubkey; [x02]] 1
  = Raise (DataError "Invalid multisig parameters")
  ∧ output_script_multisig [sample_pubkey] 2
    = Raise (DataError "Invalid multisig parameters").
Proof.
  split.
  - apply (output_script_multisig_invalid [sample_pubkey; [x02]] 1).
    intros (H33 & _). apply Forall_cons in H33 as [_ H33].
    apply Forall_cons in H33 as [H33 _]. vm_compute in H33. discriminate H33.
  - apply (output_script_multisig_invalid [sample_pubkey] 2).
    intros (_ & Hm & _). vm_compute in Hm. destruct Hm as [_ Hm]. by apply Hm.
Defined.

(** ** Legacy scriptSig with a public key of any length *)

(** X20: the P2PKH scriptSig round trip does not depend on the length
    of the public key: for every signature S and every key P that fit a
    push and every hash type H in [0,255], parsing the scriptSig built by
    [input_script_p2pkh_or_p2sh] gives back ([P], [(S, H)]). *)
Theorem p2pkh_scriptsig_roundtrip_any_pubkey (P S : bytes) (H : Z) :
  0 ≤ H ≤ 255 → len S + 1 ≤ 0xFFFFFFFF → len P ≤ 0xFFFFFFFF →
  input_script_p2pkh_or_p2sh P S H ≫= read_input_script_p2pkh
  = Ok ([P], [(S, H)]).
Proof.
  intros HH HS HP. pose proof (len_nonneg S). pose proof (len_nonneg P).
  destruct (append_signature_layout S H HH HS)
    as (pre & bH & Hsig & VH & _ & Hr).
  destruct (op_push_roundtrip (len P)) as (pre' & Hw' & _ & Hr'); [lia |].
  unfold input_script_p2pkh_or_p2sh, empty_bytearray. cbv zeta.
  rewrite Hsig. cbn [mbind result_bind app].
  unfold append_pubkey. rewrite Hw'. cbn [mbind result_bind].
  unfold write_bytes_unchecked.
  set (script := ((pre ++ S ++ [bH]) ++ pre') ++ P).
  assert (script = [] ++ (pre ++ S ++ [bH]) ++ pre' ++ P) as Hshape.
  { unfold script. by rewrite <- !app_assoc. }
  destruct (signature_frame [] pre S (pre' ++ P) bH) as (Sl & B & Hoff).
  rewrite <- Hshape in Sl, B. change (@len byte []) with 0 in *.
  cbn [app] in Hoff.
  assert (read_op_push script 0 = Ok (len S + 1, 0 + len pre)) as R1.
  { rewrite Hshape, <- app_assoc. apply (read_op_push_at [] pre). exact Hr. }
  assert (read_op_push script (0 + len pre + (len S + 1))
          = Ok (len P, len (pre ++ S ++ [bH]) + len pre')) as R2.
  { rewrite Hoff. unfold script. rewrite <- (app_assoc _ pre' P).
    apply read_op_push_at. exact Hr'. }
  assert (len script = len (pre ++ S ++ [bH]) + len pre' + len P) as Hlen.
  { unfold script. by rewrite !(len_app (_ ++ _)). }
  assert (slice script (len (pre ++ S ++ [bH]) + len pre')
            (len (pre ++ S ++ [bH]) + len pre' + len P) = P) as Sp.
  { rewrite <- len_app. unfold script.
    rewrite <- (app_nil_r P) at 1. apply slice_mid. }
  unfold read_input_script_p2pkh.
  rewrite R1. cbn [mbind result_bind]. rewrite B. cbn [mbind result_bind].
  rewrite R2. cbn [mbind result_bind]. rewrite Hlen, Z.eqb_refl.
  cbn [negb]. by rewrite Sl, Sp, VH.
Qed.

Lemma p2pkh_scriptsig_roundtrip_any_pubkey_witness :
  input_script_p2pkh_or_p2sh (x04 :: replicate 64 xcc) [x30; x44] 1
    ≫= read_input_script_p2pkh
  = Ok ([x04 :: replicate 64 xcc], [([x30; x44], 1)]).
Proof.
  apply (p2pkh_scriptsig_roundtrip_any_pubkey
           (x04 :: replicate 64 xcc) [x30; x44] 1).
  - lia.
  - vm_compute. discriminate.
  - vm_compute. discriminate.
Defined.

(** ** The last item of a parse *)

(** X21: the item that ends a parse is a suffix of the buffer: the
    public key of a P2PKH scriptSig and of a P2WPKH witness, the redeem
    script of a P2WSH witness and of a multisig scriptSig.  The first two
    parsers return one key and one signature. *)
Theorem parsed_tail_is_suffix (data : bytes) :
  (∀ keys sigs,
     read_input_script_p2pkh data = Ok (keys, sigs) →
     ∃ key, keys = [key] ∧ key `suffix_of` data ∧ length sigs = 1%nat)
  ∧ (∀ keys sigs,
       read_witness_p2wpkh data = Ok (keys, sigs) →
       ∃ key, keys = [key] ∧ key `suffix_of` data ∧ length sigs = 1%nat)
  ∧ (∀ script sigs,
       read_witness_p2wsh data = Ok (script, sigs) → script `suffix_of` data)
  ∧ (∀ script sigs,
       read_input_script_multisig data = Ok (script, sigs) →
       script `suffix_of` data).
Proof.
  split; [| split; [| split]].
  - intros keys sigs H. unfold read_input_script_p2pkh in H.
    apply result_bind_Ok in H as ([n o] & _ & H).
    apply result_bind_Ok in H as (h & _ & H).
    apply result_bind_Ok in H as ([n2 o2] & _ & H).
    destruct (Z.eqb_spec (o2 + n2) (len data)) as [Heq|]; [| done].
    cbn [negb] in H. injection H as <- <-. eexists. split; [done |].
    split; [| done]. rewrite Heq. apply slice_suffix.
  - intros keys sigs H. unfold read_witness_p2wpkh in H.
    apply result_bind_Ok in H as (w0 & _ & H).
    destruct (negb (w0 =? 2)); [done |].
    apply result_bind_Ok in H as ([n o] & _ & H).
    apply result_bind_Ok in H as (h & _ & H).
    apply result_bind_Ok in H as ([n2 o2] & _ & H).
    destruct (Z.eqb_spec (o2 + n2) (len data)) as [Heq|]; [| done].
    cbn [negb] in H. injection H as <- <-. eexists. split; [done |].
    split; [| done]. rewrite Heq. apply slice_suffix.
  - intros script sigs H. unfold read_witness_p2wsh in H.
    apply result_bind_Ok in H as ([N o] & _ & H).
    apply result_bind_Ok in H as (b & _ & H).
    destruct (negb (b =? 0)); [done |]. cbv zeta in H.
    apply result_bind_Ok in H as ([o1 sigs1] & _ & H).
    apply result_bind_Ok in H as ([n2 o2] & _ & H).
    destruct (Z.eqb_spec (o2 + n2) (len data)) as [Heq|]; [| done].
    cbn [negb] in H. injection H as <- <-. rewrite Heq. apply slice_suffix.
  - intros script sigs H. unfold read_input_script_multisig in H.
    cbv zeta in H.
    apply result_bind_Ok in H as (b & _ & H).
    destruct (negb (b =? 0)); [done |].
    destruct (read_input_script_multisig_loop _ data (0 + 1) [])
      as [[[[n o] sigs1]|e]|]; [| done | done].
    destruct (Z.eqb_spec (o + n) (len data)) as [Heq|]; [| done].
    cbn [negb] in H. injection H as <- <-. rewrite Heq. apply slice_suffix.
Qed.

Lemma parsed_tail_is_suffix_witness :
  ∃ key, [[xaa]] = [key] ∧ key `suffix_of` [x01; x01; x01; xaa]
         ∧ length [(@nil byte, 1)] = 1%nat.
Proof.
  destruct (parsed_tail_is_suffix [x01; x01; x01; xaa]) as [Hp2pkh _].
  apply Hp2pkh. reflexivity.
Defined.

(** ** The signature slot at the given index *)

Lemma len_stretched_signatures (pubkey_count : Z) (others : list slot) :
  len (stretched_signatures pubkey_count others)
  = Z.max (len others) pubkey_count.
Proof.
  unfold stretched_signatures. rewrite len_app. unfold len.
  rewrite length_replicate. lia.
Qed.

Lemma getitem_out_of_range {A} (l : list A) (i : Z) :
  len l ≤ i → getitem l i = Raise IndexError.
Proof.
  intros Hi. pose proof (len_nonneg l). rewrite getitem_nonneg by lia.
  rewrite (proj2 (lookup_ge_None l (Z.to_nat i))); [done |].
  unfold len in *. lia.
Qed.

Lemma setitem_in_range {A} (l : list A) (i : Z) (x : A) :
  0 ≤ i < len l → setitem l i x = Ok (<[Z.to_nat i := x]> l).
Proof. intros Hi. unfold setitem. by zcmp. Qed.

Section SignatureSlot.
Context {HDNodePathType : Type}.
Variable BITCOIN_ONLY : bool.
Variable multisig_get_pubkeys :
  MultisigRedeemScriptType HDNodePathType → result (list bytes).
Variable multisig_get_pubkey_count :
  MultisigRedeemScriptType HDNodePathType → Z.

(** X22: [input_script_multisig] indexes the caller's list as it is,
    [witness_p2wsh] a copy stretched to the number of public keys.  An
    index at or beyond the caller's list raises [IndexError] in the
    first and leaves the list alone; the second raises [IndexError] only
    at or beyond the stretched length, and below it sets the slot of its
    copy. *)
Theorem signature_index_beyond_slots
    (multisig : MultisigRedeemScriptType HDNodePathType)
    (signature : bytes) (signature_index hash_type : Z) (coin : CoinInfo)
    (h : store) (sigs : list slot) :
  h !! ms_signatures multisig = Some sigs →
  len sigs ≤ signature_index →
  input_script_multisig BITCOIN_ONLY multisig_get_pubkeys
    multisig signature signature_index hash_type coin h
  = (Raise IndexError, h)
  ∧ (multisig_get_pubkey_count multisig ≤ signature_index →
     (witness_p2wsh multisig_get_pubkeys multisig_get_pubkey_count
        multisig signature signature_index hash_type h).1
     = Raise IndexError)
  ∧ (signature_index < multisig_get_pubkey_count multisig →
     ∃ l, h !! l = None
          ∧ (witness_p2wsh multisig_get_pubkeys multisig_get_pubkey_count
               multisig signature signature_index hash_type h).2 !! l
            = Some (<[Z.to_nat signature_index := Some signature]>
                      (stretched_signatures
                         (multisig_get_pubkey_count multisig) sigs))).
Proof.
  intros Hsigs Hidx. pose proof (len_nonneg sigs) as Hnn.
  split; [| split].
  - destruct (input_script_multisig _ _ _ _ _ _ _ h) as [r h'] eqn:Hrun.
    apply input_script_multisig_inv in Hrun. cbv zeta in Hrun.
    rewrite Hsigs in Hrun. simpl_default.
    rewrite getitem_out_of_range in Hrun by done. by destruct Hrun as [-> ->].
  - intros Hcount.
    destruct (witness_p2wsh _ _ _ _ _ _ h) as [r h'] eqn:Hrun.
    apply witness_p2wsh_inv in Hrun as [_ Hrun].
    rewrite Hsigs in Hrun. simpl_default.
    rewrite getitem_out_of_range in Hrun; [done |].
    rewrite len_stretched_signatures. lia.
  - intros Hcount.
    destruct (witness_p2wsh _ _ _ _ _ _ h) as [r h'] eqn:Hrun.
    apply witness_p2wsh_inv in Hrun as [_ Hrun].
    rewrite Hsigs in Hrun. simpl_default.
    assert (stretched_signatures (multisig_get_pubkey_count multisig) sigs
              !! Z.to_nat signature_index = Some None) as Hnone.
    { unfold stretched_signatures.
      rewrite lookup_app_r by (unfold len in *; lia).
      apply lookup_replicate_2. unfold len in *. lia. }
    rewrite getitem_nonneg, Hnone in Hrun by lia. cbn [truthy] in Hrun.
    rewrite setitem_in_range in Hrun
      by (rewrite len_stretched_signatures; lia).
    by destruct Hrun as [Hl _].
Qed.

(** X23: a slot that holds [None] at the given index.
    [input_script_multisig] takes its length, which raises [TypeError],
    and changes nothing; [witness_p2wsh] tests its truth value, takes it
    for empty and sets the slot of its copy. *)
Theorem none_slot_at_index
    (multisig : MultisigRedeemScriptType HDNodePathType)
    (signature : bytes) (signature_index hash_type : Z) (coin : CoinInfo)
    (h : store) (sigs : list slot) :
  h !! ms_signatures multisig = Some sigs →
  0 ≤ signature_index →
  sigs !! Z.to_nat signature_index = Some None →
  input_script_multisig BITCOIN_ONLY multisig_get_pubkeys
    multisig signature signature_index hash_type coin h
  = (Raise TypeError, h)
  ∧ ∃ l, h !! l = None
         ∧ (witness_p2wsh multisig_get_pubkeys multisig_get_pubkey_count
              multisig signature signature_index hash_type h).2 !! l
           = Some (<[Z.to_nat signature_index := Some signature]>
                     (stretched_signatures
                        (multisig_get_pubkey_count multisig) sigs)).
Proof.
  intros Hsigs Hidx Hnone. split.
  - destruct (input_script_multisig _ _ _ _ _ _ _ h) as [r h'] eqn:Hrun.
    apply input_script_multisig_inv in Hrun. cbv zeta in Hrun.
    rewrite Hsigs in Hrun. simpl_default.
    rewrite getitem_nonneg, Hnone in Hrun by done. cbn [slot_len] in Hrun.
    by destruct Hrun as [-> ->].
  - destruct (witness_p2wsh _ _ _ _ _ _ h) as [r h'] eqn:Hrun.
    apply witness_p2wsh_inv in Hrun as [_ Hrun].
    rewrite Hsigs in Hrun. simpl_default.
    assert (Z.to_nat signature_index < length sigs)%nat as Hlt
      by (by eapply lookup_lt_Some).
    unfold stretched_signatures in *.
    rewrite getitem_nonneg in Hrun by done.
    rewrite (lookup_app_l_Some _ _ _ _ Hnone) in Hrun. cbn [truthy] in Hrun.
    rewrite setitem_in_range in Hrun
      by (rewrite len_app; unfold len; lia).
    by destruct Hrun as [Hl _].
Qed.

End SignatureSlot.

Lemma signature_index_beyond_slots_witness :
  input_script_multisig false sample_get_pubkeys
    sample_multisig [x30; x44] 2 1 sample_coin sample_store
  = (Raise IndexError, sample_store)
  ∧ (witness_p2wsh sample_get_pubkeys sample_get_pubkey_count
       sample_multisig [x30; x44] 2 1 sample_store).1
    = Raise IndexError.
Proof.
  destruct (signature_index_beyond_slots false sample_get_pubkeys
              sample_get_pubkey_count sample_multisig [x30; x44] 2 1
              sample_coin sample_store [Some []; Some [x30; x45]])
    as (Hin & Hwit & _).
  - reflexivity.
  - vm_compute. discriminate.
  - split; [exact Hin |]. apply Hwit. vm_compute. discriminate.
Defined.

Lemma none_slot_at_index_witness :
  input_script_multisig false sample_get_pubkeys
    sample_multisig [x30; x44] 0 1 sample_coin
    {[ 1%positive := [None; Some [x30; x45]] ]}
  = (Raise TypeError, {[ 1%positive := [None; Some [x30; x45]] ]}).
Proof.
  destruct (none_slot_at_index false sample_get_pubkeys
              sample_get_pubkey_count sample_multisig [x30; x44] 0 1
              sample_coin {[ 1%positive := [None; Some [x30; x45]] ]}
              [None; Some [x30; x45]])
    as (Hin & _).
  - reflexivity.
  - lia.
  - reflexivity.
  - exact Hin.
Defined.

(** ** Single-key scripts and the multisig parsers *)

(** A varint of a value that is not zero does not begin with 0x00. *)
Lemma varint_first_byte (pre : bytes) (n : Z) :
  (∀ rest, read_bitcoin_varint (pre ++ rest) 0 = Ok (n, len pre)) → n ≠ 0 →
  ∀ rest, ∃ v, byte_at (pre ++ rest) 0 = Ok v ∧ v ≠ 0.
Proof.
  intros Hr Hn rest. specialize (Hr rest). unfold read_bitcoin_varint in Hr.
  destruct (byte_at (pre ++ rest) 0) as [v|e]; [| done].
  exists v. split; [done |]. intros ->. cbn in Hr. injection Hr as Hr _.
  by apply Hn.
Qed.

(** X24: the multisig parsers reject what the single-key builders
    write.  Where [read_witness_p2wsh] and [read_input_script_multisig]
    look for OP_FALSE, a P2WPKH witness and a P2PKH scriptSig hold the
    first byte of the length of the signature with its hash type, which
    is not 0x00: both parsers raise [DataError] "Invalid witness.". *)
Theorem multisig_parsers_reject_single_key (S P : bytes) (H : Z) :
  0 ≤ H ≤ 255 → len S + 1 ≤ 0xFFFFFFFF → len P ≤ 0xFFFFFFFF →
  (∃ w, witness_p2wpkh S P H = Ok w
        ∧ read_witness_p2wsh w = Raise (DataError "Invalid witness."))
  ∧ (∃ w, input_script_p2pkh_or_p2sh P S H = Ok w
          ∧ read_input_script_multisig w = Raise (DataError "Invalid witness.")).
Proof.
  intros HH HS HP. pose proof (len_nonneg S). pose proof (len_nonneg P).
  split.
  - destruct (write_signature_prefixed_layout S H HH HS)
      as (pre & bH & Hsig & _ & Hr).
    destruct (varint_roundtrip (len P)) as (pre' & Hw' & _ & _); [lia |].
    unfold witness_p2wpkh, empty_bytearray. cbv zeta.
    change (write_bitcoin_varint [] 2) with (Ok [x02]).
    cbn [mbind result_bind]. rewrite Hsig. cbn [mbind result_bind].
    unfold write_bytes_prefixed. rewrite Hw'. cbn [mbind result_bind].
    unfold write_bytes_unchecked. eexists. split; [done |].
    destruct (varint_first_byte pre (len S + 1) Hr ltac:(lia)
                (S ++ [bH] ++ pre' ++ P)) as (v & Hv & Hne).
    rewrite <- !app_assoc.
    set (tail := pre ++ S ++ [bH] ++ pre' ++ P) in *.
    assert (read_bitcoin_varint ([x02] ++ tail) 0 = Ok (2, 1)) as R0
      by reflexivity.
    assert (byte_at ([x02] ++ tail) 1 = Ok v) as B0.
    { rewrite <- Hv. apply (byte_at_app_r [x02] tail 0). lia. }
    unfold read_witness_p2wsh. rewrite R0. cbn [mbind result_bind].
    rewrite B0. cbn [mbind result_bind]. by destruct (Z.eqb_spec v 0).
  - destruct (append_signature_layout S H HH HS)
      as (pre & bH & Hsig & _ & _ & Hr).
    destruct (op_push_roundtrip (len P)) as (pre' & Hw' & _ & _); [lia |].
    unfold input_script_p2pkh_or_p2sh, empty_bytearray. cbv zeta.
    rewrite Hsig. cbn [mbind result_bind app].
    unfold append_pubkey. rewrite Hw'. cbn [mbind result_bind].
    unfold write_bytes_unchecked. eexists. split; [done |].
    destruct (op_push_first_byte pre (len S + 1) Hr ltac:(lia)
                (S ++ [bH] ++ pre' ++ P)) as (v & Hv & Hne).
    unfold read_input_script_multisig. cbv zeta. rewrite <- !app_assoc.
    rewrite Hv. cbn [mbind result_bind]. by destruct (Z.eqb_spec v 0).
Qed.

Lemma multisig_parsers_reject_single_key_witness :
  (∃ w, witness_p2wpkh [x30; x44] sample_pubkey 1 = Ok w
        ∧ read_witness_p2wsh w = Raise (DataError "Invalid witness."))
  ∧ (∃ w, input_script_p2pkh_or_p2sh sample_pubkey [x30; x44] 1 = Ok w
          ∧ read_input_script_multisig w = Raise (DataError "Invalid witness.")).
Proof.
  apply (multisig_parsers_reject_single_key [x30; x44] sample_pubkey 1).
  - lia.
  - vm_compute. discriminate.
  - vm_compute. discriminate.
Defined.

(** ** Length fields: what the readers take back *)

Lemma append_land (w : bytes) (x : Z) :
  ∃ b, append w (Z.land x 0xFF) = Ok (w ++ [b]).
Proof.
  destruct (byte_of_int_ok _ (land_ff_range x)) as (b & E & _).
  exists b. unfold append. by rewrite E.
Qed.

(** X25: a length below 2^32 written by [write_op_push] or by
    [write_bitcoin_varint] is read back by [read_op_push] and by
    [read_bitcoin_varint], which stop at the end of the field.  A varint
    of a larger value is written with the prefix 0xFF, and
    [read_bitcoin_varint] raises [DataError] "Invalid VarInt" on it. *)
Theorem length_fields_roundtrip (w rest : bytes) (n : Z) :
  (0 ≤ n ≤ 0xFFFFFFFF →
   (∃ w', write_op_push w n = Ok w'
          ∧ read_op_push (w' ++ rest) (len w) = Ok (n, len w'))
   ∧ (∃ w', write_bitcoin_varint w n = Ok w'
            ∧ read_bitcoin_varint (w' ++ rest) (len w) = Ok (n, len w')))
  ∧ (0xFFFFFFFF < n →
     ∃ w', write_bitcoin_varint w n = Ok w'
           ∧ read_bitcoin_varint (w' ++ rest) (len w)
             = Raise (DataError "Invalid VarInt")).
Proof.
  split.
  - intros Hn. split.
    + destruct (op_push_roundtrip n Hn) as (pre & Hw & _ & Hr).
      exists (w ++ pre). split; [apply Hw |].
      rewrite <- app_assoc, len_app. by apply read_op_push_at.
    + destruct (varint_roundtrip n Hn) as (pre & Hw & _ & Hr).
      exists (w ++ pre). split; [apply Hw |].
      rewrite <- app_assoc, len_app. by apply read_bitcoin_varint_at.
  - intros Hn. unfold write_bitcoin_varint.
    destruct (Z.ltb_spec n 253); [lia |].
    destruct (Z.leb_spec n 65535); [lia |].
    destruct (Z.leb_spec n 4294967295); [lia |].
    change (append w 255) with (Ok (w ++ [xff]) : result bytes).
    cbn [mbind result_bind].
    destruct (append_land (w ++ [xff]) n) as (b0 & ->).
    cbn [mbind result_bind].
    destruct (append_land ((w ++ [xff]) ++ [b0]) (Z.shiftr n 8)) as (b1 & ->).
    cbn [mbind result_bind].
    destruct (append_land (((w ++ [xff]) ++ [b0]) ++ [b1]) (Z.shiftr n 16))
      as (b2 & ->).
    cbn [mbind result_bind].
    destruct (append_land ((((w ++ [xff]) ++ [b0]) ++ [b1]) ++ [b2])
                (Z.shiftr n 24)) as (b3 & ->).
    cbn [mbind result_bind].
    destruct (append_land (((((w ++ [xff]) ++ [b0]) ++ [b1]) ++ [b2]) ++ [b3])
                (Z.shiftr n 32)) as (b4 & ->).
    cbn [mbind result_bind].
    destruct (append_land
                ((((((w ++ [xff]) ++ [b0]) ++ [b1]) ++ [b2]) ++ [b3]) ++ [b4])
                (Z.shiftr n 40)) as (b5 & ->).
    cbn [mbind result_bind].
    destruct (append_land
                (((((((w ++ [xff]) ++ [b0]) ++ [b1]) ++ [b2]) ++ [b3]) ++ [b4])
                 ++ [b5])
                (Z.shiftr n 48)) as (b6 & ->).
    cbn [mbind result_bind].
    destruct (append_land
                ((((((((w ++ [xff]) ++ [b0]) ++ [b1]) ++ [b2]) ++ [b3]) ++ [b4])
                  ++ [b5]) ++ [b6])
                (Z.shiftr n 56)) as (b7 & ->).
    eexists. split; [done |].
    unfold read_bitcoin_varint. rewrite <- !app_assoc. cbn [app].
    by rewrite byte_at_mid.
Qed.

Lemma length_fields_roundtrip_witness :
  (∃ w', write_op_push [x6a] 300 = Ok w'
         ∧ read_op_push (w' ++ [xaa]) (len [x6a]) = Ok (300, len w'))
  ∧ (∃ w', write_bitcoin_varint [] 0x100000000 = Ok w'
           ∧ read_bitcoin_varint (w' ++ []) (len (@nil byte))
             = Raise (DataError "Invalid VarInt")).
Proof.
  destruct (length_fields_roundtrip [x6a] [xaa] 300) as [Hsmall _].
  destruct (length_fields_roundtrip [] [] 0x100000000) as [_ Hbig].
  split.
  - apply Hsmall. lia.
  - apply Hbig. lia.
Defined.
